(** * FEMA Public Assistance ETL: a shallow embedding of [src/etl/etl.py]

    The development follows the layout of the Python module:
    utility functions ([_sleep_backoff], [http_get]), database helpers
    ([landing_count], [db_watermark], [truncate_if_replace],
    [upsert_landing], [sync_flat_from_landing]), the paged fetch loops
    ([full_dump], [incremental_from]) and the watermark decision of
    [run_cycle].  Effects are made explicit: the HTTP session, the random
    generator and the sleeps are threaded as a [world], the clock reading
    is an argument, and the two PostgreSQL tables are finite maps keyed by
    [hash]. *)

From Stdlib Require Import ZArith QArith Qminmax Lia Lqa.
From Stdlib Require Import String Ascii.
From stdpp Require Import base option list gmap fin_maps strings.

Set Warnings "-register-all".

Local Open Scope Z_scope.

(** ** Python values *)

(** A decoded JSON document, as [r.json()] returns it.  Numbers are kept
    integral: the program never computes with them, it only tests values
    for truthiness and hands them to the database driver. *)
Inductive json : Type :=
| JNull
| JBool (b : bool)
| JNum (n : Z)
| JStr (s : string)
| JArr (xs : list json)
| JObj (fields : list (string * json)).

(** Python truthiness, as used by [if not h] and [if not rows]. *)
Definition truthy (v : json) : bool :=
  match v with
  | JNull => false
  | JBool b => b
  | JNum n => negb (n =? 0)
  | JStr s => negb (String.eqb s "")
  | JArr xs => match xs with [] => false | _ => true end
  | JObj fs => match fs with [] => false | _ => true end
  end.

(** [d.get(k)] on a dict whose items are listed in [fields]. *)
Fixpoint dict_get (fields : list (string * json)) (k : string) : option json :=
  match fields with
  | [] => None
  | (k', v) :: rest => if String.eqb k' k then Some v else dict_get rest k
  end.

(** Exceptions that the modelled code paths can raise. *)
Inductive exn : Type :=
| ConnectionError
| HTTPError (status : Z)
| JSONDecodeError
| ValueError
| AttributeError
| TypeError
| OverflowError
| DBError.

Inductive result (A : Type) : Type :=
| Ok (a : A)
| Raise (e : exn).
Arguments Ok {A} a.
Arguments Raise {A} e.

(** ** Configuration *)

Definition MAX_TOP : Z := 1000.
Definition MAX_RETRIES : Z := 5.
Definition RECORDS_KEY : string := "PublicAssistanceFundedProjectsDetails".

(** ** Utility functions: backoff and HTTP *)

(** The query parameters of one page request. *)
Record params : Type := Params {
  p_skip : Z;
  p_top : Z;
  p_orderby : option string;
  p_filter : option string
}.

(** What one call of [SESSION.get] can produce: an exception, or a
    response with a status code, an optional [Retry-After] header and a
    body that [r.json()] either decodes or rejects. *)
Inductive attempt_outcome : Type :=
| NetworkError
| Response (status : Z) (retry_after : option string) (body : option json).

(** The observable side of the process: the requests sent, the random
    numbers consumed and the durations handed to [time.sleep]. *)
Record world : Type := World {
  w_calls : nat;
  w_draws : nat;
  w_slept : list Q;
  w_sent : list params
}.

Definition world0 : world := World 0 0 [] [].

Definition do_sleep (d : Q) (w : world) : world :=
  World (w_calls w) (w_draws w) (w_slept w ++ [d]) (w_sent w).

Definition do_draw (w : world) : world :=
  World (w_calls w) (S (w_draws w)) (w_slept w) (w_sent w).

Definition do_send (p : params) (w : world) : world :=
  World (S (w_calls w)) (w_draws w) (w_slept w) (w_sent w ++ [p]).

(** [time.sleep(secs)] on a whole number of seconds.  A negative length
    is a [ValueError].  CPython keeps the length in nanoseconds in 64
    bits and adds it to the reading of the monotonic clock, so a length
    beyond some 9.2e9 seconds is refused, with an [OverflowError] or,
    close to the limit, an [OSError]: [sleep_limit] is the longest length
    the platform takes at the time of the call, and the one constructor
    [OverflowError] stands for both exceptions.  A minute is always
    within the limit. *)
Definition time_sleep (sleep_limit secs : Z) (w : world) : result unit * world :=
  if secs <? 0 then (Raise ValueError, w)
  else if Z.max 60 sleep_limit <? secs then (Raise OverflowError, w)
  else (Ok tt, do_sleep (inject_Z secs) w).

(** The largest exponent for which [2 ** attempt] converts to a float:
    [2 ** attempt + random.uniform(0, 1)] raises [OverflowError] from
    [attempt = 1024] on. *)
Definition FLOAT_MAX_EXP : Z := 1024.

(** The argument of [time.sleep] in [_sleep_backoff], given the value [j]
    that [random.uniform(0, 1)] yields when it is called.  A truthy
    [retry_after] is passed verbatim; otherwise the delay is
    [min(60, 2 ** attempt + j)], whose sum overflows from attempt 1024
    on. *)
Definition backoff_delay (attempt : Z) (retry_after : option Z) (j : Q) : result Q :=
  match retry_after with
  | Some ra =>
      if ra =? 0 then
        if FLOAT_MAX_EXP <=? attempt then Raise OverflowError
        else Ok (Qmin 60 (inject_Z (2 ^ attempt) + j))
      else Ok (inject_Z ra)
  | None =>
      if FLOAT_MAX_EXP <=? attempt then Raise OverflowError
      else Ok (Qmin 60 (inject_Z (2 ^ attempt) + j))
  end.

(** The delay the specification describes: the cap applied to the
    exponential term, the jitter added afterwards. *)
Definition spec_delay (attempt : Z) (j : Q) : Q :=
  Qmin 60 (inject_Z (2 ^ attempt)) + j.

Section Http.

(** The remote service: the outcome of the n-th call of [SESSION.get]. *)
Variable server : nat -> attempt_outcome.
(** The random generator: the n-th value of [random.uniform(0, 1)]. *)
Variable jitter : nat -> Q.
(** The longest sleep the platform takes, in seconds (see [time_sleep]). *)
Variable sleep_limit : Z.
(** Python's [int] on a header text; [None] stands for [ValueError]. *)
Variable py_int : string -> option Z.

(** The branch of [_sleep_backoff] without a hint:
    [delay = min(60, (2 ** attempt) + random.uniform(0, 1))], then
    [time.sleep(delay)].  The random number is drawn before the sum is
    formed, so an overflowing sum still consumes it. *)
Definition exponential_backoff (attempt : Z) (w : world) : result unit * world :=
  if FLOAT_MAX_EXP <=? attempt then (Raise OverflowError, do_draw w)
  else (Ok tt, do_sleep (Qmin 60 (inject_Z (2 ^ attempt) + jitter (w_draws w))) (do_draw w)).

Definition _sleep_backoff (attempt : Z) (retry_after : option Z) (w : world)
  : result unit * world :=
  match retry_after with
  | Some ra =>
      if ra =? 0 then exponential_backoff attempt w
      else time_sleep sleep_limit ra w
  | None => exponential_backoff attempt w
  end.

(** How the [try] block of one iteration of [http_get] ends. *)
Inductive try_end : Type :=
| TReturn (j : json)
| TContinue
| TExcept (e : exn).

(** [int(r.headers.get("Retry-After", "0") or "0")] *)
Definition retry_after_header (h : option string) : option Z :=
  match h with
  | None => py_int "0"
  | Some s => if String.eqb s "" then py_int "0" else py_int s
  end.

Definition try_block (p : params) (attempt : Z) (w : world) : try_end * world :=
  let w1 := do_send p w in
  match server (w_calls w) with
  | NetworkError => (TExcept ConnectionError, w1)
  | Response status hdr body =>
      if (status =? 429) || (status =? 503) then
        match retry_after_header hdr with
        | None => (TExcept ValueError, w1)
        | Some ra =>
            match _sleep_backoff attempt (Some ra) w1 with
            | (Ok _, w2) => (TContinue, w2)
            | (Raise e, w2) => (TExcept e, w2)
            end
        end
      else if status >=? 500 then
        match _sleep_backoff attempt None w1 with
        | (Ok _, w2) => (TContinue, w2)
        | (Raise e, w2) => (TExcept e, w2)
        end
      else if (400 <=? status) && (status <? 600) then
        (TExcept (HTTPError status), w1)
      else
        match body with
        | None => (TExcept JSONDecodeError, w1)
        | Some j => (TReturn j, w1)
        end
  end.

(** The [for attempt in ...] loop of [http_get] over the attempt numbers
    still to run.  Falling off the end of the loop returns Python's
    [None], which is [JNull] here. *)
Fixpoint http_get_loop (p : params) (attempts : list Z) (w : world)
  : result json * world :=
  match attempts with
  | [] => (Ok JNull, w)
  | attempt :: rest =>
      match try_block p attempt w with
      | (TReturn j, w1) => (Ok j, w1)
      | (TContinue, w1) => http_get_loop p rest w1
      | (TExcept e, w1) =>
          if attempt =? MAX_RETRIES then (Raise e, w1)
          else
            match _sleep_backoff attempt None w1 with
            | (Ok _, w2) => http_get_loop p rest w2
            | (Raise e', w2) => (Raise e', w2)
            end
      end
  end.

(** [range(1, MAX_RETRIES + 1)] *)
Definition attempt_range : list Z := [1; 2; 3; 4; 5].

Definition http_get (p : params) (w : world) : result json * world :=
  http_get_loop p attempt_range w.

End Http.

(** ** Timestamps *)

(** An aware [datetime] as the driver returns it for a [timestamptz]
    column and as [datetime.now(timezone.utc)] builds it.  [utcoffset] is
    in minutes.  Python keeps every field in range ([valid_datetime]). *)
Record datetime : Type := DateTime {
  year : Z; month : Z; day : Z;
  hour : Z; minute : Z; second : Z; microsecond : Z;
  utcoffset : Z
}.

Definition is_leap (y : Z) : bool :=
  (y mod 4 =? 0) && (negb (y mod 100 =? 0) || (y mod 400 =? 0)).

Definition days_in_month (y m : Z) : Z :=
  if m =? 2 then (if is_leap y then 29 else 28)
  else if (m =? 4) || (m =? 6) || (m =? 9) || (m =? 11) then 30
  else 31.

Definition valid_datetime (d : datetime) : bool :=
  (1 <=? year d) && (year d <=? 9999) &&
  (1 <=? month d) && (month d <=? 12) &&
  (1 <=? day d) && (day d <=? days_in_month (year d) (month d)) &&
  (0 <=? hour d) && (hour d <? 24) &&
  (0 <=? minute d) && (minute d <? 60) &&
  (0 <=? second d) && (second d <? 60) &&
  (0 <=? microsecond d) && (microsecond d <? 1000000) &&
  (-1440 <? utcoffset d) && (utcoffset d <? 1440).

(** The instant a [datetime] denotes, in microseconds on the proleptic
    Gregorian calendar: this is the order PostgreSQL uses for
    [timestamptz] ([>], [MAX]) and Python for aware datetimes. *)
Definition days_before_year (y : Z) : Z :=
  let y1 := y - 1 in y1 * 365 + y1 / 4 - y1 / 100 + y1 / 400.

Definition days_before_month (y m : Z) : Z :=
  nth (Z.to_nat (m - 1)) [0; 31; 59; 90; 120; 151; 181; 212; 243; 273; 304; 334] 0
  + (if (2 <? m) && is_leap y then 1 else 0).

Definition ordinal (y m d : Z) : Z :=
  days_before_year y + days_before_month y m + d.

Definition instant_us (d : datetime) : Z :=
  (((ordinal (year d) (month d) (day d) * 24 + hour d) * 60
    + minute d - utcoffset d) * 60 + second d) * 1000000 + microsecond d.

Definition ts_ltb (a b : datetime) : bool := instant_us a <? instant_us b.

(** *** Python string operations used on timestamps *)

Definition digit_char (n : Z) : ascii := ascii_of_nat (48 + Z.to_nat n).

(** [%0wd] applied to a number below [10^w]: exactly [w] digits. *)
Fixpoint pad (w : nat) (n : Z) : string :=
  match w with
  | O => EmptyString
  | S w' => pad w' (n / 10) +:+ String (digit_char (n mod 10)) EmptyString
  end.

(** [datetime.isoformat()]: the fraction is printed only when the
    microsecond is not zero, the offset as a sign and [HH:MM]. *)
Definition isoformat (d : datetime) : string :=
  pad 4 (year d) +:+ "-" +:+ pad 2 (month d) +:+ "-" +:+ pad 2 (day d) +:+ "T"
  +:+ pad 2 (hour d) +:+ ":" +:+ pad 2 (minute d) +:+ ":" +:+ pad 2 (second d)
  +:+ (if microsecond d =? 0 then "" else "." +:+ pad 6 (microsecond d))
  +:+ (if utcoffset d <? 0 then "-" else "+")
  +:+ pad 2 (Z.abs (utcoffset d) / 60) +:+ ":" +:+ pad 2 (Z.abs (utcoffset d) mod 60).

(** [s.replace(old, new)] for a non-empty [old]: every occurrence, left
    to right, without overlap.  [skip] counts the characters of a match
    that are still to be dropped. *)
Fixpoint replace_from (old new : string) (skip : nat) (s : string) : string :=
  match s with
  | EmptyString => EmptyString
  | String c t =>
      match skip with
      | S k => replace_from old new k t
      | O =>
          if String.prefix old s
          then new +:+ replace_from old new (String.length old - 1) t
          else String c (replace_from old new O t)
      end
  end.

Definition str_replace (s old new : string) : string := replace_from old new O s.

(** [max(a, b)] on two strings: [b] only when it is strictly greater. *)
Definition py_max (a b : string) : string := if String.ltb a b then b else a.

(** [f"'{t.isoformat().replace('+00:00','Z')}'"] *)
Definition iso_quoted (t : datetime) : string :=
  "'" +:+ str_replace (isoformat t) "+00:00" "Z" +:+ "'".

(** [today_midnight_iso_quoted], given the reading [now] of
    [datetime.now(timezone.utc)]. *)
Definition today_midnight (now : datetime) : datetime :=
  DateTime (year now) (month now) (day now) 0 0 0 0 (utcoffset now).

Definition today_midnight_iso_quoted (now : datetime) : string :=
  iso_quoted (today_midnight now).

(** The watermark decision of [run_cycle]; a [datetime] is always truthy. *)
Definition run_cycle_watermark (db_wm : option datetime) (now : datetime) : string :=
  let today_q := today_midnight_iso_quoted now in
  match db_wm with
  | Some d =>
      let db_iso_q := iso_quoted d in
      py_max db_iso_q today_q
  | None => today_q
  end.

(** The resolver as the specification words it: the later of the two
    instants, printed the same way. *)
Definition spec_watermark (db_wm : option datetime) (now : datetime) : string :=
  match db_wm with
  | Some d => if ts_ltb (today_midnight now) d then iso_quoted d
              else iso_quoted (today_midnight now)
  | None => iso_quoted (today_midnight now)
  end.

(** ** Database helpers *)

(** A row of the landing table [(hash, raw, lastrefresh)], stored under
    its primary key [hash]. *)
Record landing_row : Type := LandingRow {
  l_raw : json;
  l_lastrefresh : option datetime
}.

(** The column types of the flat table. *)
Inductive sqltype : Type :=
| TSmallint | TDate | TText | TInt | TNumeric | TTimestamptz | TBigint.

(** A non-null column value: a text, a timestamp, or a value of one of
    the numeric and date types, identified by its canonical text. *)
Inductive sqlval : Type :=
| VText (s : string)
| VTimestamptz (t : datetime)
| VScalar (ty : sqltype) (canonical : string).

(** A row of the flat table: [lastrefresh], the 23 typed columns in the
    order of [flat_columns], and [raw]; stored under [hash]. *)
Record flat_row : Type := FlatRow {
  f_lastrefresh : option datetime;
  f_cols : list (option sqlval);
  f_raw : json
}.

(** The two tables, and the number of write transactions ([INSERT] or
    [TRUNCATE] under [ENGINE.begin()]) executed so far. *)
Record database : Type := Database {
  landing : gmap string landing_row;
  flat : gmap string flat_row;
  writes : nat
}.

Definition empty_db : database := Database ∅ ∅ 0.

(** The typed columns of [sync_flat_from_landing]: column, JSON key, cast. *)
Definition flat_columns : list (string * string * sqltype) :=
  [ ("disasternumber", "disasterNumber", TSmallint);
    ("declarationdate", "declarationDate", TDate);
    ("incidenttype", "incidentType", TText);
    ("pwnumber", "pwNumber", TInt);
    ("applicationtitle", "applicationTitle", TText);
    ("applicantid", "applicantId", TText);
    ("damagecategorycode", "damageCategoryCode", TText);
    ("damagecategorydesc", "damageCategoryDescrip", TText);
    ("projectstatus", "projectStatus", TText);
    ("projectprocessstep", "projectProcessStep", TText);
    ("projectsize", "projectSize", TText);
    ("county", "county", TText);
    ("countycode", "countyCode", TText);
    ("stateabbr", "stateAbbreviation", TText);
    ("statenumbercode", "stateNumberCode", TText);
    ("projectamount", "projectAmount", TNumeric);
    ("federalshare", "federalShareObligated", TNumeric);
    ("totalobligated", "totalObligated", TNumeric);
    ("lastobligation", "lastObligationDate", TTimestamptz);
    ("firstobligation", "firstObligationDate", TTimestamptz);
    ("mitigationamount", "mitigationAmount", TNumeric);
    ("gmprojectid", "gmProjectId", TBigint);
    ("gmapplicantid", "gmApplicantId", TBigint) ].

(** SQL's three-valued logic; [None] is [unknown]/[NULL]. *)
Definition sql_or (a b : option bool) : option bool :=
  match a, b with
  | Some true, _ | _, Some true => Some true
  | Some false, Some false => Some false
  | _, _ => None
  end.

Definition sql_and (a b : option bool) : option bool :=
  match a, b with
  | Some false, _ | _, Some false => Some false
  | Some true, Some true => Some true
  | _, _ => None
  end.

Definition sql_gt (a b : option datetime) : option bool :=
  match a, b with
  | Some x, Some y => Some (ts_ltb y x)
  | _, _ => None
  end.

(** A [WHERE] clause keeps a row only when it evaluates to [true]. *)
Definition sql_holds (c : option bool) : bool :=
  match c with Some true => true | _ => false end.

Definition COALESCE {A} (a b : option A) : option A :=
  match a with Some _ => a | None => b end.

Definition NULLIF (a : option string) (b : string) : option string :=
  match a with
  | Some s => if String.eqb s b then None else Some s
  | None => None
  end.

(** The payload entry [{"hash": h, "raw": json.dumps(obj), "lastrefresh": lr}]. *)
Record payload_item : Type := Payload {
  pl_hash : json;
  pl_raw : json;
  pl_lastrefresh : json
}.

(** [obj.get(k)], with Python's [None] read as [JNull]. *)
Definition py_get (fields : list (string * json)) (k : string) : json :=
  match dict_get fields k with Some v => v | None => JNull end.

(** The first loop of [upsert_landing]: records without a truthy [hash]
    are skipped; an element that is not a dict has no [get]. *)
Fixpoint build_payload (rows : list json) : result (list payload_item) :=
  match rows with
  | [] => Ok []
  | obj :: rest =>
      match obj with
      | JObj fields =>
          let h := py_get fields "hash" in
          if negb (truthy h) then build_payload rest
          else
            let lr := py_get fields "lastRefresh" in
            match build_payload rest with
            | Ok payload => Ok (Payload h obj lr :: payload)
            | Raise e => Raise e
            end
      | _ => Raise AttributeError
      end
  end.

Section Store.

(** The text stored in the [hash] column when the driver binds the
    Python value [h]; [None] when the statement fails. *)
Variable hash_text : json -> option string.
(** PostgreSQL's input conversion of [jsonb] on the text of
    [json.dumps(obj)]: [false] when the document is refused, as one with
    a NUL character in a string is. *)
Variable jsonb_accepts : json -> bool.
(** PostgreSQL's input conversion of [timestamptz]. *)
Variable timestamptz_in : string -> option datetime.
(** Input conversion of the other column types, to canonical text. *)
Variable scalar_in : sqltype -> string -> option string.
(** The text [->>] yields for a JSON value that is neither a string
    nor null. *)
Variable jsonb_text : json -> string.

(** [NULLIF(:lastrefresh,'')::timestamptz]; the outer [None] is a
    failed statement. *)
Definition bind_lastrefresh (lr : json) : option (option datetime) :=
  match lr with
  | JNull => Some None
  | JStr s =>
      match NULLIF (Some s) "" with
      | None => Some None
      | Some s' => option_map Some (timestamptz_in s')
      end
  | _ => None
  end.

(** One execution of the [INSERT ... ON CONFLICT (hash) DO UPDATE]
    statement of [upsert_landing]: the three values are converted
    ([:hash], [CAST(:raw AS JSONB)], [NULLIF(:lastrefresh,'')::timestamptz]),
    and the statement fails when one of the conversions does. *)
Definition upsert_stmt (L : gmap string landing_row) (it : payload_item)
  : option (gmap string landing_row) :=
  match hash_text (pl_hash it), jsonb_accepts (pl_raw it),
        bind_lastrefresh (pl_lastrefresh it) with
  | Some k, true, Some lr =>
      match L !! k with
      | None => Some (<[k := LandingRow (pl_raw it) lr]> L)
      | Some old =>
          Some (<[k := LandingRow (pl_raw it) (COALESCE lr (l_lastrefresh old))]> L)
      end
  | _, _, _ => None
  end.

(** [c.execute(sql, payload)]: the statement once per entry, in order. *)
Fixpoint execute_many (L : gmap string landing_row) (payload : list payload_item)
  : option (gmap string landing_row) :=
  match payload with
  | [] => Some L
  | it :: rest =>
      match upsert_stmt L it with
      | Some L1 => execute_many L1 rest
      | None => None
      end
  end.

(** [upsert_landing(rows)] on a sequence.  A failed statement rolls the
    transaction back and raises. *)
Definition upsert_landing (db : database) (rows : list json) : result Z * database :=
  match rows with
  | [] => (Ok 0, db)
  | _ =>
      match build_payload rows with
      | Raise e => (Raise e, db)
      | Ok [] => (Ok 0, db)
      | Ok payload =>
          match execute_many (landing db) payload with
          | Some L' =>
              (Ok (Z.of_nat (length payload)), Database L' (flat db) (S (writes db)))
          | None => (Raise DBError, Database (landing db) (flat db) (S (writes db)))
          end
      end
  end.

Definition landing_count (db : database) : Z := Z.of_nat (size (landing db)).

(** [SELECT MAX(lastrefresh)]: nulls are ignored. *)
Definition sql_max (a b : option datetime) : option datetime :=
  match a, b with
  | Some x, Some y => if ts_ltb x y then Some y else Some x
  | Some x, None => Some x
  | None, _ => b
  end.

Definition db_watermark (db : database) : option datetime :=
  map_fold (fun _ l acc => sql_max acc (l_lastrefresh l)) None (landing db).

(** [l.raw->>'key'] *)
Definition json_field_text (raw : json) (key : string) : option string :=
  match raw with
  | JObj fields =>
      match dict_get fields key with
      | None | Some JNull => None
      | Some (JStr s) => Some s
      | Some v => Some (jsonb_text v)
      end
  | _ => None
  end.

Definition sql_cast (ty : sqltype) (s : string) : option sqlval :=
  match ty with
  | TText => Some (VText s)
  | TTimestamptz => option_map VTimestamptz (timestamptz_in s)
  | _ => option_map (VScalar ty) (scalar_in ty s)
  end.

(** [NULLIF(l.raw->>'key','')::ty]; the outer [None] is a failed cast. *)
Definition project_col (raw : json) (key : string) (ty : sqltype)
  : option (option sqlval) :=
  match NULLIF (json_field_text raw key) "" with
  | None => Some None
  | Some s => option_map Some (sql_cast ty s)
  end.

(** The [SELECT] list of [sync_flat_from_landing] for one landing row. *)
Definition project_row (l : landing_row) : option flat_row :=
  match mapM (fun c => project_col (l_raw l) (snd (fst c)) (snd c)) flat_columns with
  | Some cols => Some (FlatRow (l_lastrefresh l) cols (l_raw l))
  | None => None
  end.

(** The [WHERE] clause over the [LEFT JOIN]: [f] is the flat row with
    the same hash, if there is one. *)
Definition where_clause (l : landing_row) (f : option flat_row) : option bool :=
  sql_or (Some (bool_decide (f = None :> option flat_row)))
         (sql_and (Some (bool_decide (is_Some (l_lastrefresh l))))
                  (sql_gt (l_lastrefresh l) (f ≫= f_lastrefresh))).

Definition selected (db : database) : gmap string landing_row :=
  filter (fun kl => sql_holds (where_clause (snd kl) (flat db !! fst kl)) = true)
         (landing db).

(** [sync_flat_from_landing()]: one statement; a failed cast aborts it. *)
Definition sync_flat_from_landing (db : database) : result Z * database :=
  let sel := selected db in
  if bool_decide (map_Forall (fun _ l => is_Some (project_row l)) sel) then
    (Ok (Z.of_nat (size sel)),
     Database (landing db) (omap project_row sel ∪ flat db) (S (writes db)))
  else
    (Raise DBError, Database (landing db) (flat db) (S (writes db))).

End Store.

(** ** Main ETL logic *)

Section Etl.

Variable server : nat -> attempt_outcome.
Variable jitter : nat -> Q.
Variable sleep_limit : Z.
Variable py_int : string -> option Z.
Variable hash_text : json -> option string.
Variable jsonb_accepts : json -> bool.
Variable timestamptz_in : string -> option datetime.
Variable scalar_in : sqltype -> string -> option string.
Variable jsonb_text : json -> string.
(** [BATCH_SIZE] and the lower-cased [LOAD_MODE] of the environment. *)
Variable BATCH_SIZE : Z.
Variable LOAD_MODE : string.

(** [truncate_if_replace()] *)
Definition truncate_if_replace (db : database) : database :=
  if negb (String.eqb LOAD_MODE "replace") then db
  else Database ∅ ∅ (S (writes db)).

(** The [while True] loop shared, text for text, by [full_dump] and
    [incremental_from]; [mk] builds the request of the page at [skip].
    The first component is [None] while the loop is still running when
    [fuel] iterations have been done. *)
Fixpoint page_loop (mk : Z -> params) (fuel : nat) (total skip : Z)
         (w : world) (db : database) : option (result Z) * world * database :=
  match fuel with
  | O => (None, w, db)
  | S fuel' =>
      match http_get server jitter sleep_limit py_int (mk skip) w with
      | (Raise e, w1) => (Some (Raise e), w1, db)
      | (Ok j, w1) =>
          match j with
          | JObj fields =>
              let rows :=
                match dict_get fields RECORDS_KEY with
                | Some v => v
                | None => JArr []
                end in
              if negb (truthy rows) then (Some (Ok total), w1, db)
              else
                match rows with
                | JArr l =>
                    match upsert_landing hash_text jsonb_accepts timestamptz_in db l with
                    | (Raise e, db1) => (Some (Raise e), w1, db1)
                    | (Ok n, db1) =>
                        let total' := total + n in
                        let skip' := skip + Z.of_nat (length l) in
                        if Z.of_nat (length l) <? Z.min BATCH_SIZE MAX_TOP
                        then (Some (Ok total'), w1, db1)
                        else page_loop mk fuel' total' skip' w1 db1
                    end
                | JStr _ | JObj _ => (Some (Raise AttributeError), w1, db)
                | _ => (Some (Raise TypeError), w1, db)
                end
          | _ => (Some (Raise AttributeError), w1, db)
          end
      end
  end.

Definition full_dump_params (skip : Z) : params :=
  Params skip (Z.min BATCH_SIZE MAX_TOP) None None.

Definition incremental_params (watermark_iso : string) (skip : Z) : params :=
  Params skip (Z.min BATCH_SIZE MAX_TOP) (Some "lastRefresh")
         (Some ("lastRefresh ge " +:+ watermark_iso)).

Definition full_dump (fuel : nat) (w : world) (db : database) :=
  page_loop full_dump_params fuel 0 0 w db.

Definition incremental_from (watermark_iso : string) (fuel : nat)
           (w : world) (db : database) :=
  page_loop (incremental_params watermark_iso) fuel 0 0 w db.

(** [run_cycle()], with [now] the reading of the clock. *)
Definition run_cycle (now : datetime) (fuel : nat) (w : world) (db : database)
  : option (result unit) * world * database :=
  let db0 := if String.eqb LOAD_MODE "replace" then truncate_if_replace db else db in
  let after_full :=
    if landing_count db0 =? 0 then full_dump fuel w db0
    else (Some (Ok 0), w, db0) in
  match after_full with
  | (None, w1, db1) => (None, w1, db1)
  | (Some (Raise e), w1, db1) => (Some (Raise e), w1, db1)
  | (Some (Ok _), w1, db1) =>
      let wm_q := run_cycle_watermark (db_watermark db1) now in
      match incremental_from wm_q fuel w1 db1 with
      | (None, w2, db2) => (None, w2, db2)
      | (Some (Raise e), w2, db2) => (Some (Raise e), w2, db2)
      | (Some (Ok _), w2, db2) =>
          match sync_flat_from_landing timestamptz_in scalar_in jsonb_text db2 with
          | (Raise e, db3) => (Some (Raise e), w2, db3)
          | (Ok _, db3) => (Some (Ok tt), w2, db3)
          end
      end
  end.

End Etl.

(** ** Scheduling *)

Section Scheduler.

Variable server : nat -> attempt_outcome.
Variable jitter : nat -> Q.
Variable sleep_limit : Z.
Variable py_int : string -> option Z.
Variable hash_text : json -> option string.
Variable jsonb_accepts : json -> bool.
Variable timestamptz_in : string -> option datetime.
Variable scalar_in : sqltype -> string -> option string.
Variable jsonb_text : json -> string.
Variable BATCH_SIZE : Z.
Variable LOAD_MODE : string.
(** [POLL_ONCE] and [POLL_INTERVAL] of the environment. *)
Variable POLL_ONCE : bool.
Variable POLL_INTERVAL : Z.
(** The reading of the clock in the n-th cycle. *)
Variable clock : nat -> datetime.

(** [main()]: [cycles] bounds the iterations of its [while True] loop and
    [n] numbers the cycle at hand.  An exception of [run_cycle] is caught
    and printed; [time.sleep(POLL_INTERVAL)] stands outside the [try], so
    an interval it refuses ends the process.  The first component is
    [None] while the process is still running. *)
Fixpoint main (cycles : nat) (n : nat) (fuel : nat) (w : world) (db : database)
  : option (result unit) * world * database :=
  match cycles with
  | O => (None, w, db)
  | S cycles' =>
      match run_cycle server jitter sleep_limit py_int hash_text jsonb_accepts timestamptz_in scalar_in
                      jsonb_text BATCH_SIZE LOAD_MODE (clock n) fuel w db with
      | (None, w1, db1) => (None, w1, db1)
      | (Some _, w1, db1) =>
          if POLL_ONCE then (Some (Ok tt), w1, db1)
          else
            match time_sleep sleep_limit POLL_INTERVAL w1 with
            | (Raise e, w2) => (Some (Raise e), w2, db1)
            | (Ok _, w2) => main cycles' (S n) fuel w2 db1
            end
      end
  end.

End Scheduler.

(** ** Concrete collaborators, for the examples *)

(** A server that answers 404 once and then an empty result page. *)
Definition server_404_then_ok (n : nat) : attempt_outcome :=
  match n with
  | O => Response 404 None (Some (JObj []))
  | _ => Response 200 None (Some (JObj [(RECORDS_KEY, JArr [])]))
  end.

(** A server that is always overloaded. *)
Definition server_503 (n : nat) : attempt_outcome := Response 503 None None.

Definition half_jitter (n : nat) : Q := 1 # 2.

(** A platform that takes sleeps of up to 9.2e9 seconds. *)
Definition sample_sleep_limit : Z := 9200000000.

(** [int] on the texts the examples use. *)
Definition sample_int (s : string) : option Z :=
  if String.eqb s "0" then Some 0
  else if String.eqb s "10" then Some 10
  else None.

(** A driver that stores a string hash as it is and rejects the rest. *)
Definition sample_hash_text (h : json) : option string :=
  match h with JStr s => Some s | _ => None end.

(** A database that refuses a document with a NUL character in one of
    its top-level strings. *)
Fixpoint has_nul (s : string) : bool :=
  match s with
  | EmptyString => false
  | String c t => Ascii.eqb c zero || has_nul t
  end.

Definition sample_jsonb_accepts (v : json) : bool :=
  match v with
  | JObj fields =>
      forallb (fun kv => match snd kv with
                         | JStr s => negb (has_nul s)
                         | _ => true
                         end) fields
  | _ => true
  end.

(** [timestamptz] input on the literals the examples use. *)
Definition sample_timestamptz_in (s : string) : option datetime :=
  if String.eqb s "2024-01-01T00:00:00Z" then Some (DateTime 2024 1 1 0 0 0 0 0)
  else if String.eqb s "2024-06-01T00:00:00Z" then Some (DateTime 2024 6 1 0 0 0 0 0)
  else if String.eqb s "2025-03-10T00:00:00.5Z" then Some (DateTime 2025 3 10 0 0 0 500000 0)
  else None.

Definition sample_scalar_in (ty : sqltype) (s : string) : option string := Some s.

Definition sample_jsonb_text (v : json) : string :=
  match v with
  | JBool true => "true"
  | JBool false => "false"
  | _ => "0"
  end.

(** ** Vocabulary of the properties *)

(** Outcomes the retry logic is meant for: a network failure, a rate
    limit (429, 503) or a server error (500 and above). *)
Definition transient (o : attempt_outcome) : bool :=
  match o with
  | NetworkError => true
  | Response status _ _ => (status =? 429) || (status =? 503) || (status >=? 500)
  end.

(** Outcomes that are errors but not transient: a client error status
    other than 429, or a body that does not decode.  The exception
    raised inside the [try] block is returned. *)
Definition non_retryable (o : attempt_outcome) : option exn :=
  match o with
  | NetworkError => None
  | Response status _ body =>
      if (status =? 429) || (status =? 503) || (status >=? 500) then None
      else if (400 <=? status) && (status <? 600) then Some (HTTPError status)
      else match body with
           | None => Some JSONDecodeError
           | Some _ => None
           end
  end.

(** A record without a usable [hash]: a dict whose [hash] is missing or
    falsy. *)
Definition lacks_hash (obj : json) : bool :=
  match obj with
  | JObj fields => negb (truthy (py_get fields "hash"))
  | _ => false
  end.

(** A record with a usable [hash]. *)
Definition has_hash (obj : json) : bool :=
  match obj with
  | JObj fields => truthy (py_get fields "hash")
  | _ => false
  end.

Section StoreVocabulary.

Variable hash_text : json -> option string.
Variable jsonb_accepts : json -> bool.
Variable timestamptz_in : string -> option datetime.

(** The landing table after [upsert_landing], as a function of the
    table before. *)
Definition merge_landing (L : gmap string landing_row) (rows : list json)
  : gmap string landing_row :=
  match build_payload rows with
  | Ok payload =>
      match execute_many hash_text jsonb_accepts timestamptz_in L payload with
      | Some L' => L'
      | None => L
      end
  | Raise _ => L
  end.

(** The document the last entry for key [k] carries, and the last
    non-null timestamp bound for [k], in one payload. *)
Fixpoint last_raw (payload : list payload_item) (k : string) : option json :=
  match payload with
  | [] => None
  | it :: rest =>
      match last_raw rest k with
      | Some raw => Some raw
      | None =>
          if decide (hash_text (pl_hash it) = Some k) then Some (pl_raw it) else None
      end
  end.

Fixpoint last_ts (payload : list payload_item) (k : string) : option datetime :=
  match payload with
  | [] => None
  | it :: rest =>
      COALESCE (last_ts rest k)
               (if decide (hash_text (pl_hash it) = Some k)
                then bind_lastrefresh timestamptz_in (pl_lastrefresh it) ≫= id
                else None)
  end.

End StoreVocabulary.

(** Every stored document carries a usable hash. *)
Definition landing_ok (L : gmap string landing_row) : Prop :=
  forall k r, L !! k = Some r -> has_hash (l_raw r) = true.

Definition flat_ok (F : gmap string flat_row) : Prop :=
  forall k f, F !! k = Some f -> has_hash (f_raw f) = true.

(** "Keep the newer non-null value", as the data model words the merge
    of [last_refresh]. *)
Definition keep_newer (incoming existing : option datetime) : option datetime :=
  match incoming, existing with
  | Some x, Some y => if ts_ltb x y then Some y else Some x
  | Some x, None => Some x
  | None, _ => existing
  end.

(** Merging the same batch [n] times in a row. *)
Fixpoint merge_times (hash_text : json -> option string) (jsonb_accepts : json -> bool)
         (timestamptz_in : string -> option datetime)
         (n : nat) (db : database) (rows : list json) : database :=
  match n with
  | O => db
  | S n' => merge_times hash_text jsonb_accepts timestamptz_in n'
              (upsert_landing hash_text jsonb_accepts timestamptz_in db rows).2 rows
  end.

(** The store operations a process can perform, and their effect. *)
Inductive db_op : Type :=
| OpMerge (rows : list json)
| OpProject
| OpTruncate.

Definition run_op (hash_text : json -> option string) (jsonb_accepts : json -> bool)
           (timestamptz_in : string -> option datetime)
           (scalar_in : sqltype -> string -> option string)
           (jsonb_text : json -> string)
           (db : database) (op : db_op) : database :=
  match op with
  | OpMerge rows => (upsert_landing hash_text jsonb_accepts timestamptz_in db rows).2
  | OpProject => (sync_flat_from_landing timestamptz_in scalar_in jsonb_text db).2
  | OpTruncate => truncate_if_replace "replace" db
  end.

Definition run_ops (hash_text : json -> option string) (jsonb_accepts : json -> bool)
           (timestamptz_in : string -> option datetime)
           (scalar_in : sqltype -> string -> option string)
           (jsonb_text : json -> string)
           (ops : list db_op) (db : database) : database :=
  fold_left (run_op hash_text jsonb_accepts timestamptz_in scalar_in jsonb_text) ops db.

(** A landing row newer than its flat row, with a null flat timestamp
    read as older than any value: the selection rule as the
    specification words it. *)
Definition spec_selected (l : landing_row) (f : option flat_row) : bool :=
  match f with
  | None => true
  | Some fr =>
      match l_lastrefresh l, f_lastrefresh fr with
      | Some a, Some b => ts_ltb b a
      | Some _, None => true
      | None, _ => false
      end
  end.

(** *** Vocabulary for timestamps *)

(** Lexicographic combination of two comparisons. *)
Definition lex (c k : comparison) : comparison :=
  match c with Eq => k | _ => c end.

(** The order of two datetimes field by field, down to the second. *)
Definition civil_compare (a b : datetime) : comparison :=
  lex (year a ?= year b) (lex (month a ?= month b) (lex (day a ?= day b)
  (lex (hour a ?= hour b) (lex (minute a ?= minute b) (second a ?= second b))))).

(** The part of [isoformat] up to the seconds. *)
Definition iso_seconds (d : datetime) : string :=
  pad 4 (year d) +:+ "-" +:+ pad 2 (month d) +:+ "-" +:+ pad 2 (day d) +:+ "T"
  +:+ pad 2 (hour d) +:+ ":" +:+ pad 2 (minute d) +:+ ":" +:+ pad 2 (second d).

(** No character of the string is a plus sign. *)
Fixpoint no_plus (s : string) : bool :=
  match s with
  | EmptyString => true
  | String c t => negb (Ascii.eqb c "+") && no_plus t
  end.

(** A stored maximum in UTC with no fraction of a second, and a clock
    that reads UTC. *)
Definition whole_second_utc (d : datetime) : bool :=
  valid_datetime d && (microsecond d =? 0) && (utcoffset d =? 0).

Definition utc_clock (now : datetime) : bool :=
  valid_datetime now && (utcoffset now =? 0).

(** A stored timestamp in UTC, with or without a fraction of a second. *)
Definition utc_timestamp (d : datetime) : bool :=
  valid_datetime d && (utcoffset d =? 0).

(** Sample records and stores. *)
Definition record_old : json :=
  JObj [("hash", JStr "h1"); ("lastRefresh", JStr "2024-01-01T00:00:00Z")].

Definition record_new : json :=
  JObj [("hash", JStr "h1"); ("lastRefresh", JStr "2024-06-01T00:00:00Z")].

Definition record_undated : json := JObj [("hash", JStr "h1")].

(** A record for [h1] whose county holds a NUL character. *)
Definition record_nul : json :=
  JObj [("hash", JStr "h1"); ("county", JStr (String zero EmptyString));
        ("lastRefresh", JStr "2024-01-01T00:00:00Z")].

Definition record_no_hash : json :=
  JObj [("lastRefresh", JStr "2024-06-01T00:00:00Z")].

Definition db_with_new : database :=
  Database {[ "h1" := LandingRow record_new (Some (DateTime 2024 6 1 0 0 0 0 0)) ]} ∅ 1.

(** A record merged and projected before it had a timestamp, then merged
    again with one. *)
Definition db_stale : database :=
  run_ops sample_hash_text sample_jsonb_accepts sample_timestamptz_in sample_scalar_in sample_jsonb_text
          [OpMerge [record_undated]; OpProject; OpMerge [record_new]] empty_db.

(** A record refreshed half a second after midnight on 2025-03-10, the
    store holding it, and a clock reading later that day. *)
Definition record_fraction : json :=
  JObj [("hash", JStr "h2"); ("lastRefresh", JStr "2025-03-10T00:00:00.5Z")].

Definition db_fraction : database :=
  run_ops sample_hash_text sample_jsonb_accepts sample_timestamptz_in sample_scalar_in sample_jsonb_text
          [OpMerge [record_fraction]] empty_db.

Definition noon_2025_03_10 : datetime := DateTime 2025 3 10 12 30 0 0 0.

(** A store whose newest row is from 2024-06-01. *)
Definition db_2024 : database :=
  run_ops sample_hash_text sample_jsonb_accepts sample_timestamptz_in sample_scalar_in sample_jsonb_text
          [OpMerge [record_old; JObj [("hash", JStr "h3");
                                      ("lastRefresh", JStr "2024-06-01T00:00:00Z")]]]
          empty_db.

(** *** Vocabulary for the fetch and the stores *)

(** The number of records of a batch that carry a usable hash. *)
Fixpoint merged_count (rows : list json) : Z :=
  match rows with
  | [] => 0
  | obj :: rest => (if has_hash obj then 1 else 0) + merged_count rest
  end.

(** The key a record is stored under, if it has a usable hash and the
    driver can bind it. *)
Definition record_key (hash_text : json -> option string) (obj : json) : option string :=
  match obj with
  | JObj fields =>
      if truthy (py_get fields "hash") then hash_text (py_get fields "hash") else None
  | _ => None
  end.

(** A result set served in pages: the records before page [i], and the
    records with a hash among them. *)
Fixpoint page_offset (page : nat -> list json) (i : nat) : Z :=
  match i with
  | O => 0
  | S i' => page_offset page i' + Z.of_nat (length (page i'))
  end.

Fixpoint merged_before (page : nat -> list json) (i : nat) : Z :=
  match i with
  | O => 0
  | S i' => merged_before page i' + merged_count (page i')
  end.

(** The server answers call [c] with a success status and the given page
    under the records key. *)
Definition serves (server : nat -> attempt_outcome) (c : nat) (rows : list json) : Prop :=
  exists status hdr fields,
    server c = Response status hdr (Some (JObj fields)) /\
    status < 400 /\
    dict_get fields RECORDS_KEY = Some (JArr rows).

(** A batch the database accepts: every element is a dict and every
    bound hash, document and timestamp converts. *)
Definition mergeable (hash_text : json -> option string) (jsonb_accepts : json -> bool)
           (timestamptz_in : string -> option datetime) (rows : list json) : Prop :=
  exists payload,
    build_payload rows = Ok payload /\
    is_Some (execute_many hash_text jsonb_accepts timestamptz_in ∅ payload).

(** Every flat row has a landing row. *)
Definition flat_in_landing (db : database) : Prop :=
  forall k, is_Some (flat db !! k) -> is_Some (landing db !! k).

(** Rows are kept from [db] to [db']: no landing or flat row disappears,
    and a known landing timestamp stays known. *)
Definition landing_kept (L L' : gmap string landing_row) : Prop :=
  forall k r, L !! k = Some r ->
    exists r', L' !! k = Some r' /\
               (is_Some (l_lastrefresh r) -> is_Some (l_lastrefresh r')).

(** A flat row stays, with a timestamp that is not earlier. *)
Definition flat_kept (F F' : gmap string flat_row) : Prop :=
  forall k f, F !! k = Some f ->
    exists f', F' !! k = Some f' /\
               (forall b, f_lastrefresh f = Some b ->
                  exists a, f_lastrefresh f' = Some a /\ instant_us b <= instant_us a).

(** A server paging through three short batches, for the examples. *)
Definition sample_pages (i : nat) : list json :=
  match i with
  | O => [record_old; record_no_hash]
  | 1%nat => [record_fraction; record_undated]
  | _ => [record_new]
  end.

Definition server_pages (n : nat) : attempt_outcome :=
  Response 200 None (Some (JObj [(RECORDS_KEY, JArr (sample_pages n))])).

(** A server answering 500 to everything. *)
Definition server_500 (n : nat) : attempt_outcome := Response 500 None None.

(** *** Vocabulary for the further properties *)

(** A sleep that is capped, or that is a positive hint of the server. *)
Definition bounded_sleep (d : Q) : Prop :=
  (d <= 60)%Q \/ exists n, 0 < n /\ d = inject_Z n.

(** A server that cannot be reached. *)
Definition server_down (n : nat) : attempt_outcome := NetworkError.

(** The sleeps of a run of attempts that all back off without a hint,
    the first one drawing jitter number [d]. *)
Fixpoint backoff_sleeps (jitter : nat -> Q) (attempts : list Z) (d : nat) : list Q :=
  match attempts with
  | [] => []
  | a :: rest => Qmin 60 (inject_Z (2 ^ a) + jitter d) :: backoff_sleeps jitter rest (S d)
  end.

(** A typed field that is missing, null or the empty string. *)
Definition blank_field (fields : list (string * json)) (key : string) : bool :=
  match dict_get fields key with
  | None | Some JNull => true
  | Some (JStr s) => String.eqb s ""
  | Some _ => false
  end.

(** The landing table after merging the first [n] pages in order. *)
Fixpoint merge_pages (hash_text : json -> option string) (jsonb_accepts : json -> bool)
         (timestamptz_in : string -> option datetime)
         (page : nat -> list json) (n : nat) (L : gmap string landing_row)
  : gmap string landing_row :=
  match n with
  | O => L
  | S n' => merge_landing hash_text jsonb_accepts timestamptz_in
              (merge_pages hash_text jsonb_accepts timestamptz_in page n' L) (page n')
  end.

(** The three properties every reachable pair of stores has. *)
Definition consistent (db : database) : Prop :=
  landing_ok (landing db) /\ flat_ok (flat db) /\ flat_in_landing db.

(** Nothing is lost from [db] to [db']. *)
Definition rows_kept (db db' : database) : Prop :=
  landing_kept (landing db) (landing db') /\ flat_kept (flat db) (flat db').

(** A clock stopped at noon on 2025-03-10. *)
Definition sample_clock (n : nat) : datetime := noon_2025_03_10.

(** * Properties *)

(** ** Backoff policy *)

Section BackoffFacts.

Variable jitter : nat -> Q.
Variable sleep_limit : Z.

Lemma sleep_backoff_delay (attempt : Z) (hint : option Z) (w : world) :
  hint = None \/ hint = Some 0 ->
  _sleep_backoff jitter sleep_limit attempt hint w =
  match backoff_delay attempt hint (jitter (w_draws w)) with
  | Ok d => (Ok tt, do_sleep d (do_draw w))
  | Raise e => (Raise e, do_draw w)
  end.
Proof.
  intros [-> | ->]; cbn; unfold exponential_backoff;
    destruct (FLOAT_MAX_EXP <=? attempt); reflexivity.
Qed.

Lemma time_sleep_frame (secs : Z) (w : world) :
  w_calls (snd (time_sleep sleep_limit secs w)) = w_calls w /\
  w_sent (snd (time_sleep sleep_limit secs w)) = w_sent w /\
  w_draws (snd (time_sleep sleep_limit secs w)) = w_draws w.
Proof.
  unfold time_sleep.
  destruct (secs <? 0); [repeat split|].
  destruct (Z.max 60 sleep_limit <? secs); repeat split.
Qed.

Lemma sleep_backoff_frame (attempt : Z) (hint : option Z) (w : world) :
  w_calls (snd (_sleep_backoff jitter sleep_limit attempt hint w)) = w_calls w /\
  w_sent (snd (_sleep_backoff jitter sleep_limit attempt hint w)) = w_sent w.
Proof.
  assert (He : w_calls (snd (exponential_backoff jitter attempt w)) = w_calls w /\
               w_sent (snd (exponential_backoff jitter attempt w)) = w_sent w).
  { unfold exponential_backoff. destruct (FLOAT_MAX_EXP <=? attempt); split; reflexivity. }
  unfold _sleep_backoff.
  destruct hint as [h|]; [|exact He].
  destruct (h =? 0); [exact He|].
  pose proof (time_sleep_frame h w) as (Hc & Hs & _). by split.
Qed.

Lemma sleep_backoff_no_hint (attempt : Z) (w : world) :
  attempt < FLOAT_MAX_EXP ->
  _sleep_backoff jitter sleep_limit attempt None w =
  (Ok tt, do_sleep (Qmin 60 (inject_Z (2 ^ attempt) + jitter (w_draws w))) (do_draw w)).
Proof.
  intros Ha. cbn. unfold exponential_backoff.
  destruct (Z.leb_spec FLOAT_MAX_EXP attempt); [lia|reflexivity].
Qed.

Lemma sleep_backoff_overflow (attempt : Z) (w : world) :
  FLOAT_MAX_EXP <= attempt ->
  _sleep_backoff jitter sleep_limit attempt None w = (Raise OverflowError, do_draw w).
Proof.
  intros Ha. cbn. unfold exponential_backoff.
  destruct (Z.leb_spec FLOAT_MAX_EXP attempt); [reflexivity|lia].
Qed.

End BackoffFacts.

Lemma small_attempt_uncapped (attempt : Z) (j : Q) :
  0 < attempt <= 5 -> (0 <= j)%Q -> (j < 1)%Q ->
  (Qmin 60 (inject_Z (2 ^ attempt) + j) == spec_delay attempt j)%Q.
Proof.
  intros Ha Hj0 Hj1. unfold spec_delay.
  assert (Hcases : attempt = 1 \/ attempt = 2 \/ attempt = 3 \/ attempt = 4 \/ attempt = 5)
    by lia.
  destruct Hcases as [-> | [-> | [-> | [-> | ->]]]];
    cbn [Z.pow Z.pow_pos Pos.iter Z.mul Pos.mul];
    (rewrite Q.min_r by (unfold Qle, Qlt in *; cbn in *; lia));
    (rewrite (Q.min_r 60) by (unfold Qle; cbn; lia)); reflexivity.
Qed.

(** C7, as stated, fails: at attempt 6 with jitter 1/2 the program sleeps
    exactly 60 seconds, while capping the exponential term before adding
    the jitter would give 60.5 seconds. *)
Lemma backoff_cap_before_jitter_fails :
  exists d, backoff_delay 6 None (1 # 2) = Ok d /\
            (d == 60)%Q /\ ~ (d == spec_delay 6 (1 # 2))%Q.
Proof.
  exists (Qmin 60 (inject_Z (2 ^ 6) + (1 # 2))).
  split; [reflexivity|].
  split; [reflexivity|].
  intros H. vm_compute in H. discriminate H.
Qed.

(** C7, amended: for a positive attempt count, [_sleep_backoff] sleeps a
    positive server hint verbatim, provided [time.sleep] takes a sleep of
    that length (otherwise it raises and nothing is slept); with no hint,
    or a hint of zero, and an attempt count below 1024 it sleeps
    [min(60, 2^attempt + j)], the cap of 60 seconds being applied after
    the jitter [j] is added, and from attempt 1024 on the sum overflows
    and it raises without sleeping.  For the attempts 1 to 5 that
    [http_get] makes and a jitter in [0, 1) the cap is not reached and
    the delay equals [min(60, 2^attempt) + j]. *)
Theorem backoff_delay_cap_after_jitter
        (jitter : nat -> Q) (sleep_limit : Z) (attempt : Z) (hint : option Z) (w : world) :
  0 < attempt ->
  (forall h, hint = Some h -> 0 < h ->
     _sleep_backoff jitter sleep_limit attempt hint w =
       if Z.max 60 sleep_limit <? h then (Raise OverflowError, w)
       else (Ok tt, do_sleep (inject_Z h) w)) /\
  (hint = None \/ hint = Some 0 ->
   let j := jitter (w_draws w) in
   _sleep_backoff jitter sleep_limit attempt hint w =
     (if FLOAT_MAX_EXP <=? attempt then (Raise OverflowError, do_draw w)
      else (Ok tt, do_sleep (Qmin 60 (inject_Z (2 ^ attempt) + j)) (do_draw w))) /\
   (attempt <= 5 -> (0 <= j)%Q -> (j < 1)%Q ->
    (Qmin 60 (inject_Z (2 ^ attempt) + j) == spec_delay attempt j)%Q)).
Proof.
  intros Ha. split.
  - intros h -> Hh. unfold _sleep_backoff, time_sleep.
    destruct (Z.eqb_spec h 0); [lia|].
    destruct (Z.ltb_spec h 0); [lia|reflexivity].
  - intros Hh j. split.
    + destruct Hh as [-> | ->]; reflexivity.
    + intros Hle Hj0 Hj1. apply small_attempt_uncapped; [lia|assumption|assumption].
Qed.

Lemma backoff_delay_cap_after_jitter_witness :
  _sleep_backoff half_jitter sample_sleep_limit 3 (Some 10) world0
    = (Ok tt, do_sleep (inject_Z 10) world0) /\
  _sleep_backoff half_jitter sample_sleep_limit 3 None world0 =
    (Ok tt, do_sleep (Qmin 60 (inject_Z (2 ^ 3) + (1 # 2))) (do_draw world0)) /\
  (Qmin 60 (inject_Z (2 ^ 3) + (1 # 2)) == spec_delay 3 (1 # 2))%Q.
Proof.
  pose proof (backoff_delay_cap_after_jitter half_jitter sample_sleep_limit 3 (Some 10) world0
                ltac:(lia)) as [H1 _].
  pose proof (backoff_delay_cap_after_jitter half_jitter sample_sleep_limit 3 None world0
                ltac:(lia)) as [_ H2].
  specialize (H1 10 eq_refl ltac:(lia)).
  destruct (H2 (or_introl eq_refl)) as [H3 H4].
  split; [exact H1|]. split; [exact H3|].
  apply H4; [lia | unfold Qle; cbn; lia | unfold Qlt; cbn; lia].
Defined.

(** ** Page requests: retries *)

Section HttpFacts.

Variable server : nat -> attempt_outcome.
Variable jitter : nat -> Q.
Variable sleep_limit : Z.
Variable py_int : string -> option Z.

Abbreviation try_block_ := (try_block server jitter sleep_limit py_int).
Abbreviation http_get_loop_ := (http_get_loop server jitter sleep_limit py_int).
Abbreviation http_get_ := (http_get server jitter sleep_limit py_int).

Lemma try_block_frame (p : params) (attempt : Z) (w : world) :
  w_calls (snd (try_block_ p attempt w)) = S (w_calls w) /\
  w_sent (snd (try_block_ p attempt w)) = w_sent w ++ [p].
Proof.
  unfold try_block.
  destruct (server (w_calls w)) as [|status hdr body]; [split; reflexivity|].
  destruct ((status =? 429) || (status =? 503)).
  - destruct (retry_after_header py_int hdr) as [ra|]; [|split; reflexivity].
    pose proof (sleep_backoff_frame jitter sleep_limit attempt (Some ra) (do_send p w))
      as [Hc Hs].
    destruct (_sleep_backoff jitter sleep_limit attempt (Some ra) (do_send p w)) as [[u|e] w2];
      cbn in *; rewrite Hc, Hs; split; reflexivity.
  - destruct (status >=? 500).
    + pose proof (sleep_backoff_frame jitter sleep_limit attempt None (do_send p w))
        as [Hc Hs].
      destruct (_sleep_backoff jitter sleep_limit attempt None (do_send p w)) as [[u|e] w2];
        cbn in *; rewrite Hc, Hs; split; reflexivity.
    + destruct ((400 <=? status) && (status <? 600)); [split; reflexivity|].
      destruct body; split; reflexivity.
Qed.

Lemma try_block_transient (p : params) (attempt : Z) (w : world) :
  transient (server (w_calls w)) = true ->
  forall j, fst (try_block_ p attempt w) <> TReturn j.
Proof.
  intros Ht j. unfold try_block.
  destruct (server (w_calls w)) as [|status hdr body]; [discriminate|].
  cbn in Ht.
  destruct ((status =? 429) || (status =? 503)).
  - destruct (retry_after_header py_int hdr) as [ra|]; [|discriminate].
    destruct (_sleep_backoff jitter sleep_limit attempt (Some ra) (do_send p w)) as [[u|e] w2];
      discriminate.
  - cbn in Ht. rewrite Ht.
    destruct (_sleep_backoff jitter sleep_limit attempt None (do_send p w)) as [[u|e] w2];
      discriminate.
Qed.

Lemma try_block_non_retryable (p : params) (attempt : Z) (w : world) (e : exn) :
  non_retryable (server (w_calls w)) = Some e ->
  try_block_ p attempt w = (TExcept e, do_send p w).
Proof.
  unfold non_retryable, try_block.
  destruct (server (w_calls w)) as [|status hdr body]; [discriminate|].
  destruct ((status =? 429) || (status =? 503)); [discriminate|].
  cbn. destruct (status >=? 500); [discriminate|].
  destruct ((400 <=? status) && (status <? 600)); [congruence|].
  destruct body; congruence.
Qed.

(** The requests one [http_get_] sends are copies of its argument. *)
Lemma http_get_loop_sent (p : params) (attempts : list Z) (w : world) :
  exists k, w_sent (snd (http_get_loop_ p attempts w)) = w_sent w ++ replicate k p.
Proof.
  revert w. induction attempts as [|a rest IH]; intros w.
  - exists 0%nat. cbn. by rewrite app_nil_r.
  - cbn [http_get_loop].
    pose proof (try_block_frame p a w) as [_ Hs].
    destruct (try_block_ p a w) as [[j| |e] w1]; cbn in Hs.
    + exists 1%nat. cbn. exact Hs.
    + destruct (IH w1) as [k Hk]. exists (S k).
      rewrite Hk, Hs. by rewrite <- app_assoc.
    + destruct (a =? MAX_RETRIES).
      * exists 1%nat. cbn. exact Hs.
      * pose proof (sleep_backoff_frame jitter sleep_limit a None w1) as [_ Hs2].
        destruct (_sleep_backoff jitter sleep_limit a None w1) as [[u|e'] w2]; cbn in Hs2.
        -- destruct (IH w2) as [k Hk].
           exists (S k). rewrite Hk, Hs2, Hs. cbn. by rewrite <- app_assoc.
        -- exists 1%nat. cbn. rewrite Hs2. exact Hs.
Qed.

(** When every remaining attempt meets a transient failure, the loop of
    [http_get_] either raises or falls off its end and yields [None]. *)
Lemma http_get_loop_all_transient (p : params) (attempts : list Z) (w : world) :
  (forall i, (i < length attempts)%nat -> transient (server (w_calls w + i)%nat) = true) ->
  forall j, fst (http_get_loop_ p attempts w) = Ok j -> j = JNull.
Proof.
  revert w. induction attempts as [|a rest IH]; intros w Hall j.
  - cbn. congruence.
  - cbn [http_get_loop].
    assert (Ht : transient (server (w_calls w)) = true).
    { specialize (Hall 0%nat). rewrite Nat.add_0_r in Hall. apply Hall. cbn. lia. }
    pose proof (try_block_transient p a w Ht) as Hnr.
    pose proof (try_block_frame p a w) as [Hc _].
    assert (Hrest : forall w1, w_calls w1 = S (w_calls w) ->
              forall i, (i < length rest)%nat ->
                        transient (server (w_calls w1 + i)%nat) = true).
    { intros w1 Hw1 i Hi. rewrite Hw1.
      replace (S (w_calls w) + i)%nat with (w_calls w + S i)%nat by lia.
      apply Hall. cbn. lia. }
    destruct (try_block_ p a w) as [[j'| |e] w1]; cbn in Hc.
    + exfalso. exact (Hnr j' eq_refl).
    + apply IH. apply Hrest. exact Hc.
    + destruct (a =? MAX_RETRIES); [cbn; congruence|].
      pose proof (sleep_backoff_frame jitter sleep_limit a None w1) as [Hc2 _].
      destruct (_sleep_backoff jitter sleep_limit a None w1) as [[u|e'] w2]; cbn in Hc2.
      * apply IH. apply Hrest. congruence.
      * cbn. congruence.
Qed.

End HttpFacts.

(** C3, as stated, fails: a 404 on the first attempt does not surface.
    [http_get] sleeps 2.5 seconds, sends the same request again and
    returns the second response. *)
Lemma client_error_is_retried :
  non_retryable (server_404_then_ok 0) = Some (HTTPError 404) /\
  http_get server_404_then_ok half_jitter sample_sleep_limit sample_int (Params 0 1000 None None) world0 =
    (Ok (JObj [(RECORDS_KEY, JArr [])]),
     World 2 1 [5 # 2] [Params 0 1000 None None; Params 0 1000 None None]).
Proof. split; reflexivity. Qed.

(** C3, amended: [http_get] handles a non-retryable error (a client error
    status other than 429, or a malformed body) like any other exception.
    On an attempt before the fifth it invokes the backoff policy, sleeping
    [min(60, 2^attempt + jitter)], and goes on to the next attempt with
    the same request; only on the fifth attempt does the error surface,
    and then without backoff.  (The loop is characterised for every
    attempt number: from 1024 on, far beyond the five of [http_get], the
    backoff itself overflows and its exception surfaces.) *)
Theorem non_retryable_error_backs_off_and_retries
        (server : nat -> attempt_outcome) (jitter : nat -> Q) (sleep_limit : Z)
        (py_int : string -> option Z)
        (p : params) (attempt : Z) (rest : list Z) (w : world) (e : exn) :
  non_retryable (server (w_calls w)) = Some e ->
  http_get_loop server jitter sleep_limit py_int p (attempt :: rest) w =
  if attempt =? MAX_RETRIES then (Raise e, do_send p w)
  else if FLOAT_MAX_EXP <=? attempt then (Raise OverflowError, do_draw (do_send p w))
  else http_get_loop server jitter sleep_limit py_int p rest
         (do_sleep (Qmin 60 (inject_Z (2 ^ attempt) + jitter (w_draws w)))
                   (do_draw (do_send p w))).
Proof.
  intros Hnr. cbn [http_get_loop].
  rewrite (try_block_non_retryable server jitter sleep_limit py_int p attempt w e Hnr).
  destruct (attempt =? MAX_RETRIES); [reflexivity|].
  cbn [_sleep_backoff]. unfold exponential_backoff.
  destruct (FLOAT_MAX_EXP <=? attempt); reflexivity.
Qed.

Lemma non_retryable_error_backs_off_and_retries_witness :
  http_get_loop server_404_then_ok half_jitter sample_sleep_limit sample_int
                (Params 0 1000 None None) [1; 2; 3; 4; 5] world0 =
  http_get_loop server_404_then_ok half_jitter sample_sleep_limit sample_int
                (Params 0 1000 None None) [2; 3; 4; 5]
                (do_sleep (Qmin 60 (inject_Z (2 ^ 1) + (1 # 2)))
                          (do_draw (do_send (Params 0 1000 None None) world0))).
Proof.
  exact (non_retryable_error_backs_off_and_retries
           server_404_then_ok half_jitter sample_sleep_limit sample_int
           (Params 0 1000 None None) 1 [2; 3; 4; 5] world0 (HTTPError 404) eq_refl).
Defined.

(** ** The paged fetch *)

Section FetchFacts.

Variable server : nat -> attempt_outcome.
Variable jitter : nat -> Q.
Variable sleep_limit : Z.
Variable py_int : string -> option Z.
Variable hash_text : json -> option string.
Variable jsonb_accepts : json -> bool.
Variable timestamptz_in : string -> option datetime.
Variable BATCH_SIZE : Z.

Abbreviation page_loop_ :=
  (page_loop server jitter sleep_limit py_int hash_text jsonb_accepts timestamptz_in BATCH_SIZE).

(** Every request a fetch adds to the log was built by [mk]. *)
Lemma page_loop_sent (P : params -> Prop) (mk : Z -> params) :
  (forall skip, P (mk skip)) ->
  forall fuel total skip w db,
  exists reqs, w_sent (page_loop_ mk fuel total skip w db).1.2 = w_sent w ++ reqs /\
               Forall P reqs.
Proof.
  intros Hmk. induction fuel as [|fuel IH]; intros total skip w db.
  - exists []. cbn. by rewrite app_nil_r.
  - cbn [page_loop].
    destruct (http_get_loop_sent server jitter sleep_limit py_int (mk skip) attempt_range w)
      as [k Hk].
    fold (http_get server jitter sleep_limit py_int (mk skip) w) in Hk.
    assert (Hhere : exists reqs, w_sent (http_get server jitter sleep_limit py_int (mk skip) w).2
                                 = w_sent w ++ reqs /\ Forall P reqs).
    { exists (replicate k (mk skip)). split; [exact Hk|].
      apply Forall_replicate. apply Hmk. }
    clear Hk.
    destruct (http_get server jitter sleep_limit py_int (mk skip) w) as [[j|e] w1];
      cbn [snd] in Hhere; [|exact Hhere].
    destruct j as [| | | | |fields]; try exact Hhere.
    destruct (negb (truthy _)); [exact Hhere|].
    destruct (match dict_get fields RECORDS_KEY with Some v => v | None => JArr [] end)
      as [| | | |l|]; try exact Hhere.
    destruct (upsert_landing hash_text jsonb_accepts timestamptz_in db l) as [[n|e] db1];
      [|exact Hhere].
    destruct (Z.of_nat (length l) <? Z.min BATCH_SIZE MAX_TOP); [exact Hhere|].
    destruct Hhere as (reqs1 & Hr1 & HP1).
    destruct (IH (total + n) (skip + Z.of_nat (length l)) w1 db1) as (reqs2 & Hr2 & HP2).
    exists (reqs1 ++ reqs2). split.
    + rewrite Hr2, Hr1. by rewrite <- app_assoc.
    + by apply Forall_app.
Qed.

(** The loop stops with an exception when the page request at hand runs
    out of attempts. *)
Lemma page_loop_exhausted (mk : Z -> params) (fuel : nat) (total skip : Z)
      (w : world) (db : database) :
  (forall i, (i < 5)%nat -> transient (server (w_calls w + i)%nat) = true) ->
  exists e w', page_loop_ mk (S fuel) total skip w db = (Some (Raise e), w', db).
Proof.
  intros Hall. cbn [page_loop].
  pose proof (http_get_loop_all_transient server jitter sleep_limit py_int
                (mk skip) attempt_range w Hall) as Hnull.
  fold (http_get server jitter sleep_limit py_int (mk skip) w) in Hnull.
  destruct (http_get server jitter sleep_limit py_int (mk skip) w) as [[j|e] w1].
  - rewrite (Hnull j eq_refl). by exists AttributeError, w1.
  - by exists e, w1.
Qed.

End FetchFacts.

(** C5: when all five attempts of a page request meet a transient
    failure (a network exception, a 429 or 503, or a status of 500 or
    more), the fetch ends with an exception, never with a count.  This
    holds for [full_dump], for [incremental_from] and for the request of
    any later page ([page_loop] from any [total] and [skip]); the store is
    left as it was.  When the fifth failure is a status code, [http_get]
    itself returns [None] and the exception is the [AttributeError] of
    [j.get] in the caller. *)
Theorem retry_budget_exhaustion_is_fatal
        (server : nat -> attempt_outcome) (jitter : nat -> Q) (sleep_limit : Z)
        (py_int : string -> option Z) (hash_text : json -> option string) (jsonb_accepts : json -> bool)
        (timestamptz_in : string -> option datetime) (BATCH_SIZE : Z)
        (watermark_iso : string) (fuel : nat) (w : world) (db : database) :
  (forall i, (i < 5)%nat -> transient (server (w_calls w + i)%nat) = true) ->
  (exists e w', full_dump server jitter sleep_limit py_int hash_text jsonb_accepts timestamptz_in BATCH_SIZE
                          (S fuel) w db = (Some (Raise e), w', db)) /\
  (exists e w', incremental_from server jitter sleep_limit py_int hash_text jsonb_accepts timestamptz_in BATCH_SIZE
                                 watermark_iso (S fuel) w db = (Some (Raise e), w', db)) /\
  (forall mk total skip,
      exists e w', page_loop server jitter sleep_limit py_int hash_text jsonb_accepts timestamptz_in BATCH_SIZE
                             mk (S fuel) total skip w db = (Some (Raise e), w', db)).
Proof.
  intros Hall. repeat split; intros; apply page_loop_exhausted; exact Hall.
Qed.

Lemma retry_budget_exhaustion_is_fatal_witness :
  exists e w', full_dump server_503 half_jitter sample_sleep_limit sample_int sample_hash_text sample_jsonb_accepts
                         sample_timestamptz_in 5000 1 world0 empty_db
               = (Some (Raise e), w', empty_db).
Proof.
  refine (proj1 (retry_budget_exhaustion_is_fatal
                   server_503 half_jitter sample_sleep_limit sample_int sample_hash_text sample_jsonb_accepts
                   sample_timestamptz_in 5000 "" 0 world0 empty_db _)).
  intros i Hi. reflexivity.
Defined.

(** C9: every request that [full_dump] and [incremental_from] send has
    [$top = min(BATCH_SIZE, 1000)], which is at most 1000, whatever the
    configured batch size, the server's answers and the number of pages. *)
Theorem page_requests_top_is_clamped
        (server : nat -> attempt_outcome) (jitter : nat -> Q) (sleep_limit : Z)
        (py_int : string -> option Z) (hash_text : json -> option string) (jsonb_accepts : json -> bool)
        (timestamptz_in : string -> option datetime) (BATCH_SIZE : Z)
        (watermark_iso : string) (fuel : nat) (w : world) (db : database) :
  (exists reqs,
      w_sent (full_dump server jitter sleep_limit py_int hash_text jsonb_accepts timestamptz_in BATCH_SIZE
                        fuel w db).1.2 = w_sent w ++ reqs /\
      Forall (fun p => p_top p = Z.min BATCH_SIZE 1000 /\ p_top p <= 1000) reqs) /\
  (exists reqs,
      w_sent (incremental_from server jitter sleep_limit py_int hash_text jsonb_accepts timestamptz_in BATCH_SIZE
                               watermark_iso fuel w db).1.2 = w_sent w ++ reqs /\
      Forall (fun p => p_top p = Z.min BATCH_SIZE 1000 /\ p_top p <= 1000) reqs).
Proof.
  split; apply page_loop_sent; intros skip; cbn; unfold MAX_TOP; lia.
Qed.

(** ** The landing merger *)

Section MergeFacts.

Variable hash_text : json -> option string.
Variable jsonb_accepts : json -> bool.
Variable timestamptz_in : string -> option datetime.

Abbreviation upsert_stmt_ := (upsert_stmt hash_text jsonb_accepts timestamptz_in).
Abbreviation execute_many_ := (execute_many hash_text jsonb_accepts timestamptz_in).
Abbreviation upsert_landing_ := (upsert_landing hash_text jsonb_accepts timestamptz_in).
Abbreviation merge_landing_ := (merge_landing hash_text jsonb_accepts timestamptz_in).
Abbreviation last_raw_ := (last_raw hash_text).
Abbreviation last_ts_ := (last_ts hash_text timestamptz_in).

(** Insert and update are one assignment: the new timestamp is the
    incoming one unless it is null. *)
Lemma upsert_stmt_spec (L L' : gmap string landing_row) (it : payload_item) :
  upsert_stmt_ L it = Some L' ->
  exists k lr,
    hash_text (pl_hash it) = Some k /\
    bind_lastrefresh timestamptz_in (pl_lastrefresh it) = Some lr /\
    L' = <[k := LandingRow (pl_raw it) (COALESCE lr (L !! k ≫= l_lastrefresh))]> L.
Proof.
  unfold upsert_stmt. intros H.
  destruct (hash_text (pl_hash it)) as [k|]; [|discriminate].
  destruct (jsonb_accepts (pl_raw it)); [|discriminate].
  destruct (bind_lastrefresh timestamptz_in (pl_lastrefresh it)) as [lr|]; [|discriminate].
  exists k, lr. split; [reflexivity|]. split; [reflexivity|].
  destruct (L !! k) as [old|]; cbn in *; [congruence|].
  destruct lr; cbn; congruence.
Qed.

(** A statement that succeeds stored a document the database accepts. *)
Lemma upsert_stmt_accepts (L L' : gmap string landing_row) (it : payload_item) :
  upsert_stmt_ L it = Some L' -> jsonb_accepts (pl_raw it) = true.
Proof.
  unfold upsert_stmt. intros H.
  destruct (hash_text (pl_hash it)) as [k|]; [|discriminate].
  by destruct (jsonb_accepts (pl_raw it)).
Qed.

Lemma upsert_stmt_total (L M : gmap string landing_row) (it : payload_item) :
  is_Some (upsert_stmt_ L it) -> is_Some (upsert_stmt_ M it).
Proof.
  unfold upsert_stmt.
  destruct (hash_text (pl_hash it)); [|by intros [? ?]].
  destruct (jsonb_accepts (pl_raw it)); [|by intros [? ?]].
  destruct (bind_lastrefresh timestamptz_in (pl_lastrefresh it)); [|by intros [? ?]].
  intros _. destruct (M !! s); eauto.
Qed.

Lemma execute_many_total (payload : list payload_item) :
  forall L M, is_Some (execute_many_ L payload) -> is_Some (execute_many_ M payload).
Proof.
  induction payload as [|it rest IH]; intros L M; cbn; [eauto|].
  intros H.
  destruct (upsert_stmt_ L it) as [L1|] eqn:E1; [|by destruct H].
  destruct (upsert_stmt_total L M it) as [M1 E2]; [by rewrite E1|].
  rewrite E2. by apply (IH L1).
Qed.

Lemma last_raw_None_ts (payload : list payload_item) (k : string) :
  last_raw_ payload k = None -> last_ts_ payload k = None.
Proof.
  induction payload as [|it rest IH]; cbn; [done|].
  destruct (last_raw_ rest k); [done|].
  case_decide; [done|]. intros _. by rewrite IH.
Qed.

(** The effect of a whole payload on one key. *)
Lemma execute_many_lookup (payload : list payload_item) :
  forall (L L' : gmap string landing_row) (k : string),
  execute_many_ L payload = Some L' ->
  L' !! k =
  match last_raw_ payload k with
  | None => L !! k
  | Some raw =>
      Some (LandingRow raw (COALESCE (last_ts_ payload k) (L !! k ≫= l_lastrefresh)))
  end.
Proof.
  induction payload as [|it rest IH]; intros L L' k H; cbn in H.
  - by simplify_eq.
  - destruct (upsert_stmt_ L it) as [L1|] eqn:E; [|discriminate].
    apply upsert_stmt_spec in E as (k0 & lr & Hk & Hlr & ->).
    rewrite (IH _ _ k H). cbn [last_raw last_ts].
    rewrite Hk, Hlr.
    destruct (last_raw_ rest k) as [raw|] eqn:R.
    + f_equal. f_equal. case_decide as Hd.
      * simplify_eq. rewrite lookup_insert_eq. cbn.
        destruct (last_ts_ rest k), lr; reflexivity.
      * rewrite lookup_insert_ne by congruence.
        destruct (last_ts_ rest k); reflexivity.
    + rewrite (last_raw_None_ts rest k R). case_decide as Hd.
      * simplify_eq. rewrite lookup_insert_eq. cbn. by destruct lr.
      * by rewrite lookup_insert_ne by congruence.
Qed.

Lemma execute_many_idempotent (payload : list payload_item)
      (L L' : gmap string landing_row) :
  execute_many_ L payload = Some L' -> execute_many_ L' payload = Some L'.
Proof.
  intros H.
  destruct (execute_many_total payload L L') as [L'' H']; [by rewrite H|].
  rewrite H'. f_equal. apply map_eq. intros k.
  rewrite (execute_many_lookup payload L' L'' k H').
  rewrite (execute_many_lookup payload L L' k H).
  destruct (last_raw_ payload k); [|reflexivity].
  cbn. by destruct (last_ts_ payload k).
Qed.

Lemma merge_landing_idempotent (L : gmap string landing_row) (rows : list json) :
  merge_landing_ (merge_landing_ L rows) rows = merge_landing_ L rows.
Proof.
  unfold merge_landing.
  destruct (build_payload rows) as [payload|e]; [|reflexivity].
  destruct (execute_many_ L payload) as [L'|] eqn:E.
  - by rewrite (execute_many_idempotent payload L L' E).
  - by rewrite E.
Qed.

Lemma upsert_landing_landing (db : database) (rows : list json) :
  landing (upsert_landing_ db rows).2 = merge_landing_ (landing db) rows.
Proof.
  unfold upsert_landing, merge_landing.
  destruct rows as [|obj rest]; [reflexivity|].
  destruct (build_payload (obj :: rest)) as [[|it payload]|e]; [reflexivity| |reflexivity].
  by destruct (execute_many_ (landing db) (it :: payload)).
Qed.

Lemma merge_times_landing (n : nat) (db : database) (rows : list json) :
  landing (merge_times hash_text jsonb_accepts timestamptz_in (S n) db rows)
  = merge_landing_ (landing db) rows.
Proof.
  revert db. induction n as [|n IH]; intros db.
  - cbn. apply upsert_landing_landing.
  - change (merge_times hash_text jsonb_accepts timestamptz_in (S (S n)) db rows)
      with (merge_times hash_text jsonb_accepts timestamptz_in (S n) (upsert_landing_ db rows).2 rows).
    rewrite IH, upsert_landing_landing. apply merge_landing_idempotent.
Qed.

Lemma build_payload_lacking (rows : list json) :
  Forall (fun obj => lacks_hash obj = true) rows -> build_payload rows = Ok [].
Proof.
  induction 1 as [|obj rest Hobj _ IH]; [reflexivity|].
  cbn. destruct obj; try discriminate. cbn in Hobj. by rewrite Hobj.
Qed.

Lemma build_payload_has_hash (rows : list json) :
  forall payload, build_payload rows = Ok payload ->
  Forall (fun it => has_hash (pl_raw it) = true) payload.
Proof.
  induction rows as [|obj rest IH]; intros payload H; cbn in H.
  - by simplify_eq.
  - destruct obj as [| | | | |fields]; try discriminate.
    destruct (truthy (py_get fields "hash")) eqn:Hh; cbn in H; [|by apply IH].
    destruct (build_payload rest) as [pl|]; [|discriminate].
    simplify_eq. constructor; [exact Hh|by apply IH].
Qed.

Lemma execute_many_ok (payload : list payload_item) :
  Forall (fun it => has_hash (pl_raw it) = true) payload ->
  forall L L', landing_ok L -> execute_many_ L payload = Some L' -> landing_ok L'.
Proof.
  induction 1 as [|it rest Hit _ IH]; intros L L' HL H; cbn in H.
  - by simplify_eq.
  - destruct (upsert_stmt_ L it) as [L1|] eqn:E; [|discriminate].
    apply (IH L1 L'); [|exact H].
    apply upsert_stmt_spec in E as (k0 & lr & _ & _ & ->).
    intros k r. destruct (decide (k0 = k)) as [->|Hne].
    + rewrite lookup_insert_eq. intros; by simplify_eq.
    + rewrite lookup_insert_ne by done. apply HL.
Qed.

Lemma merge_landing_ok (L : gmap string landing_row) (rows : list json) :
  landing_ok L -> landing_ok (merge_landing_ L rows).
Proof.
  intros HL. unfold merge_landing.
  destruct (build_payload rows) as [payload|e] eqn:B; [|exact HL].
  destruct (execute_many_ L payload) as [L'|] eqn:E; [|exact HL].
  exact (execute_many_ok payload (build_payload_has_hash rows payload B) L L' HL E).
Qed.

Lemma upsert_landing_flat (db : database) (rows : list json) :
  flat (upsert_landing_ db rows).2 = flat db.
Proof.
  unfold upsert_landing.
  destruct rows as [|obj rest]; [reflexivity|].
  destruct (build_payload (obj :: rest)) as [[|it payload]|e]; [reflexivity| |reflexivity].
  by destruct (execute_many_ (landing db) (it :: payload)).
Qed.

(** A merge that returns a count ran every statement of its payload. *)
Lemma upsert_landing_Ok (db db' : database) (rows : list json) (n : Z) :
  upsert_landing_ db rows = (Ok n, db') ->
  exists payload,
    build_payload rows = Ok payload /\
    execute_many_ (landing db) payload = Some (landing db').
Proof.
  unfold upsert_landing.
  destruct rows as [|obj rest]; [intros H; simplify_eq; by exists []|].
  destruct (build_payload (obj :: rest)) as [[|it payload]|e]; [| |discriminate].
  - intros H. simplify_eq. by exists [].
  - destruct (execute_many_ (landing db) (it :: payload)) as [L'|] eqn:E; [|discriminate].
    intros H. simplify_eq. by exists (it :: payload).
Qed.

(** A merge that raises leaves both tables as they were. *)
Lemma upsert_landing_Raise (db db' : database) (rows : list json) (e : exn) :
  upsert_landing_ db rows = (Raise e, db') ->
  landing db' = landing db /\ flat db' = flat db.
Proof.
  unfold upsert_landing.
  destruct rows as [|obj rest]; [discriminate|].
  destruct (build_payload (obj :: rest)) as [[|it payload]|e0];
    [discriminate| |by intros H; simplify_eq].
  destruct (execute_many_ (landing db) (it :: payload)); [discriminate|].
  intros H. by simplify_eq.
Qed.

Lemma build_payload_app (a b : list json) :
  forall p, build_payload (a ++ b) = Ok p ->
  exists pa pb, build_payload a = Ok pa /\ build_payload b = Ok pb /\ p = pa ++ pb.
Proof.
  induction a as [|obj a IH]; intros p H; cbn in H.
  - by exists [], p.
  - destruct obj as [| | | | |fields]; try discriminate. cbn [build_payload].
    destruct (negb (truthy (py_get fields "hash"))); [by apply IH|].
    destruct (build_payload (a ++ b)) as [p0|]; [|discriminate]. simplify_eq.
    destruct (IH p0 eq_refl) as (pa & pb & -> & Hb & ->).
    eexists _, pb. split; [reflexivity|]. by split.
Qed.

Lemma execute_many_app (a b : list payload_item) :
  forall L L', execute_many_ L (a ++ b) = Some L' ->
  exists L1, execute_many_ L a = Some L1 /\ execute_many_ L1 b = Some L'.
Proof.
  induction a as [|it a IH]; intros L L' H; cbn in H.
  - by exists L.
  - cbn [execute_many].
    destruct (upsert_stmt_ L it) as [L0|]; [|discriminate]. by apply IH.
Qed.

(** Statements for other hashes leave the row of [k] alone. *)
Lemma execute_many_other_keys (payload : list payload_item) (k : string) :
  Forall (fun it => hash_text (pl_hash it) <> Some k) payload ->
  forall L L', execute_many_ L payload = Some L' -> L' !! k = L !! k.
Proof.
  induction 1 as [|it rest Hit _ IH]; intros L L' H; cbn in H.
  - by simplify_eq.
  - destruct (upsert_stmt_ L it) as [L1|] eqn:E; [|discriminate].
    rewrite (IH L1 L' H).
    apply upsert_stmt_spec in E as (k0 & lr & Hk0 & _ & ->).
    apply lookup_insert_ne. congruence.
Qed.

Lemma build_payload_other_keys (rows : list json) (k : string) :
  (forall obj, obj ∈ rows -> record_key hash_text obj <> Some k) ->
  forall p, build_payload rows = Ok p ->
  Forall (fun it => hash_text (pl_hash it) <> Some k) p.
Proof.
  induction rows as [|obj rest IH]; intros Hall p H; cbn in H.
  - simplify_eq. constructor.
  - assert (Hrest : forall o, o ∈ rest -> record_key hash_text o <> Some k)
      by (intros o Ho; apply Hall; by right).
    destruct obj as [| | | | |fields]; try discriminate.
    destruct (truthy (py_get fields "hash")) eqn:Hh; cbn in H; [|by apply IH].
    destruct (build_payload rest) as [p0|]; [|discriminate]. simplify_eq.
    constructor; [|by apply IH].
    cbn. specialize (Hall (JObj fields) ltac:(by left)). cbn in Hall.
    by rewrite Hh in Hall.
Qed.

End MergeFacts.

(** A document the database refuses: [record_nul] carries the hash of a
    stored row, an older timestamp and a NUL character.  The statement
    fails, the merge raises and the stored row stays. *)
Lemma refused_document_rolls_back :
  upsert_landing sample_hash_text sample_jsonb_accepts sample_timestamptz_in
                 db_with_new [record_nul]
  = (Raise DBError, Database (landing db_with_new) (flat db_with_new) 2).
Proof. vm_compute. reflexivity. Qed.

(** C4, as stated, fails: the stored timestamp of [h1] is 2024-06-01, the
    incoming one is 2024-01-01, and after the merge the stored timestamp
    is the older, incoming one, where keeping the newer value would leave
    2024-06-01. *)
Lemma older_incoming_timestamp_replaces_stored :
  l_lastrefresh <$> landing db_with_new !! "h1"
    = Some (Some (DateTime 2024 6 1 0 0 0 0 0)) /\
  l_lastrefresh <$>
    landing (upsert_landing sample_hash_text sample_jsonb_accepts sample_timestamptz_in
                            db_with_new [record_old]).2 !! "h1"
    = Some (Some (DateTime 2024 1 1 0 0 0 0 0)) /\
  keep_newer (Some (DateTime 2024 1 1 0 0 0 0 0)) (Some (DateTime 2024 6 1 0 0 0 0 0))
    = Some (DateTime 2024 6 1 0 0 0 0 0).
Proof. repeat split; vm_compute; reflexivity. Qed.

(** C4, amended: when the Landing Merger upserts a record whose hash is
    already in the landing store and the merge succeeds, the stored
    [last_refresh] afterwards is the incoming value when that is non-null,
    whether it is older or newer than the stored one, and the existing
    stored value when the incoming one is null.  The record stands
    anywhere in its batch, as the last one with its hash; the existing
    row is the one stored when its statement runs, after the records
    before it.  A merge that raises, as it does when the database
    refuses a hash, a document or a timestamp, leaves the landing table
    as it was. *)
Theorem upsert_existing_takes_incoming_timestamp
        (hash_text : json -> option string) (jsonb_accepts : json -> bool)
        (timestamptz_in : string -> option datetime)
        (db : database) (pre post : list json) (fields : list (string * json))
        (k : string) (lr : option datetime) (old : landing_row) :
  record_key hash_text (JObj fields) = Some k ->
  (forall obj, obj ∈ post -> record_key hash_text obj <> Some k) ->
  bind_lastrefresh timestamptz_in (py_get fields "lastRefresh") = Some lr ->
  merge_landing hash_text jsonb_accepts timestamptz_in (landing db) pre !! k = Some old ->
  (forall n db',
     upsert_landing hash_text jsonb_accepts timestamptz_in db (pre ++ JObj fields :: post)
       = (Ok n, db') ->
     landing db' !! k
     = Some (LandingRow (JObj fields)
                        (match lr with
                         | Some t => Some t
                         | None => l_lastrefresh old
                         end))) /\
  (forall e db',
     upsert_landing hash_text jsonb_accepts timestamptz_in db (pre ++ JObj fields :: post)
       = (Raise e, db') ->
     landing db' = landing db).
Proof.
  intros Hkey Hpost Hlr Hold. split.
  - intros n db' H.
    assert (Hh : truthy (py_get fields "hash") = true /\
                 hash_text (py_get fields "hash") = Some k).
    { cbn in Hkey. by destruct (truthy (py_get fields "hash")). }
    destruct Hh as [Hh Hk].
    apply upsert_landing_Ok in H as (payload & B & E).
    apply build_payload_app in B as (pa & pb & Ba & Bb & ->).
    cbn in Bb. rewrite Hh in Bb. cbn in Bb.
    destruct (build_payload post) as [ppost|] eqn:Bp; [|discriminate].
    simplify_eq.
    apply execute_many_app in E as (L1 & Ea & Eb).
    unfold merge_landing in Hold. rewrite Ba, Ea in Hold.
    cbn in Eb.
    destruct (upsert_stmt hash_text jsonb_accepts timestamptz_in L1 _) as [L2|] eqn:Es;
      [|discriminate].
    rewrite (execute_many_other_keys hash_text jsonb_accepts timestamptz_in ppost k
               (build_payload_other_keys hash_text post k Hpost ppost Bp) L2 _ Eb).
    apply upsert_stmt_spec in Es as (k0 & lr0 & Hk0 & Hlr0 & ->).
    cbn in Hk0, Hlr0. simplify_eq.
    rewrite lookup_insert_eq, Hold. by destruct lr.
  - intros e db' H.
    by apply upsert_landing_Raise in H as [H _].
Qed.

Lemma upsert_existing_takes_incoming_timestamp_witness :
  landing (upsert_landing sample_hash_text sample_jsonb_accepts sample_timestamptz_in
             db_with_new [record_fraction; record_old; record_no_hash]).2 !! "h1"
  = Some (LandingRow record_old (Some (DateTime 2024 1 1 0 0 0 0 0))).
Proof.
  refine (proj1 (upsert_existing_takes_incoming_timestamp
                   sample_hash_text sample_jsonb_accepts sample_timestamptz_in db_with_new
                   [record_fraction] [record_no_hash]
                   [("hash", JStr "h1"); ("lastRefresh", JStr "2024-01-01T00:00:00Z")]
                   "h1" (Some (DateTime 2024 1 1 0 0 0 0 0))
                   (LandingRow record_new (Some (DateTime 2024 6 1 0 0 0 0 0)))
                   eq_refl _ eq_refl _)
                2 _ _).
  - intros obj Hobj. apply list_elem_of_singleton in Hobj. subst obj. discriminate.
  - vm_compute. reflexivity.
  - vm_compute. reflexivity.
Defined.

(** C6: the Landing Merger is idempotent.  For every batch and every
    store, merging the batch [n] times in a row, [n] at least 1, leaves
    the landing table as merging it once does. *)
Theorem landing_merge_idempotent
        (hash_text : json -> option string) (jsonb_accepts : json -> bool)
        (timestamptz_in : string -> option datetime)
        (n : nat) (db : database) (rows : list json) :
  (1 <= n)%nat ->
  landing (merge_times hash_text jsonb_accepts timestamptz_in n db rows)
  = landing (merge_times hash_text jsonb_accepts timestamptz_in 1 db rows).
Proof.
  intros Hn. destruct n as [|n]; [lia|].
  by rewrite !merge_times_landing.
Qed.

Lemma landing_merge_idempotent_witness :
  landing (merge_times sample_hash_text sample_jsonb_accepts sample_timestamptz_in 3 db_with_new
                       [record_old; record_no_hash; record_undated])
  = landing (merge_times sample_hash_text sample_jsonb_accepts sample_timestamptz_in 1 db_with_new
                         [record_old; record_no_hash; record_undated]).
Proof.
  apply (landing_merge_idempotent sample_hash_text sample_jsonb_accepts sample_timestamptz_in 3
           db_with_new [record_old; record_no_hash; record_undated]).
  lia.
Defined.

(** C10: called with an empty sequence, or with a sequence in which every
    record lacks a [hash], [upsert_landing] returns 0 and leaves the
    database as it was: the tables are unchanged and no write transaction
    is run. *)
Theorem merge_without_hashes_writes_nothing
        (hash_text : json -> option string) (jsonb_accepts : json -> bool)
        (timestamptz_in : string -> option datetime)
        (db : database) (rows : list json) :
  rows = [] \/ Forall (fun obj => lacks_hash obj = true) rows ->
  upsert_landing hash_text jsonb_accepts timestamptz_in db rows = (Ok 0, db).
Proof.
  intros [-> | Hall]; [reflexivity|].
  unfold upsert_landing. destruct rows as [|obj rest]; [reflexivity|].
  by rewrite (build_payload_lacking _ Hall).
Qed.

Lemma merge_without_hashes_writes_nothing_witness :
  upsert_landing sample_hash_text sample_jsonb_accepts sample_timestamptz_in db_with_new
                 [record_no_hash; JObj [("hash", JStr "")]]
  = (Ok 0, db_with_new).
Proof.
  apply (merge_without_hashes_writes_nothing sample_hash_text sample_jsonb_accepts sample_timestamptz_in
           db_with_new [record_no_hash; JObj [("hash", JStr "")]]).
  right. repeat constructor.
Defined.

(** ** The flat projector *)

Lemma where_clause_holds (l : landing_row) (f : option flat_row) :
  sql_holds (where_clause l f) = true <->
  f = None \/
  exists fr a b, f = Some fr /\ l_lastrefresh l = Some a /\
                 f_lastrefresh fr = Some b /\ instant_us b < instant_us a.
Proof.
  unfold where_clause. split.
  - destruct f as [fr|]; [|by left]. intros H. right.
    rewrite bool_decide_eq_false_2 in H by done. cbn in H.
    destruct (l_lastrefresh l) as [a|] eqn:Ha.
    + destruct (f_lastrefresh fr) as [b|] eqn:Hb.
      * rewrite bool_decide_eq_true_2 in H by eauto. cbn in H.
        unfold ts_ltb in H. destruct (Z.ltb_spec (instant_us b) (instant_us a)).
        -- exists fr, a, b. done.
        -- discriminate.
      * rewrite bool_decide_eq_true_2 in H by eauto. discriminate.
    + rewrite bool_decide_eq_false_2 in H by (by intros [? ?]). discriminate.
  - intros [-> | (fr & a & b & -> & Ha & Hb & Hlt)].
    + by rewrite bool_decide_eq_true_2.
    + rewrite bool_decide_eq_false_2 by done. cbn. rewrite Ha, Hb.
      rewrite bool_decide_eq_true_2 by eauto. cbn. unfold ts_ltb.
      by destruct (Z.ltb_spec (instant_us b) (instant_us a)); [|lia].
Qed.

Lemma selected_lookup (db : database) (k : string) (l : landing_row) :
  selected db !! k = Some l <->
  landing db !! k = Some l /\ sql_holds (where_clause l (flat db !! k)) = true.
Proof. unfold selected. by rewrite map_lookup_filter_Some. Qed.

Section ProjectorFacts.

Variable timestamptz_in : string -> option datetime.
Variable scalar_in : sqltype -> string -> option string.
Variable jsonb_text : json -> string.

Abbreviation project_row_ := (project_row timestamptz_in scalar_in jsonb_text).
Abbreviation sync_ := (sync_flat_from_landing timestamptz_in scalar_in jsonb_text).

Lemma project_row_fields (l : landing_row) (f : flat_row) :
  project_row_ l = Some f ->
  f_raw f = l_raw l /\ f_lastrefresh f = l_lastrefresh l.
Proof.
  unfold project_row. destruct (mapM _ flat_columns); [|discriminate].
  intros H. by simplify_eq.
Qed.

(** What one projector run does to each hash. *)
Lemma sync_flat_lookup (db db' : database) (n : Z) (k : string) :
  sync_ db = (Ok n, db') ->
  landing db' = landing db /\
  flat db' !! k = match selected db !! k with
                  | Some l => project_row_ l
                  | None => flat db !! k
                  end.
Proof.
  unfold sync_flat_from_landing. case_bool_decide as Hall; [|discriminate].
  intros H. simplify_eq. cbn. split; [reflexivity|].
  rewrite lookup_union, lookup_omap.
  destruct (selected db !! k) as [l|] eqn:Hsel; cbn.
  - destruct (Hall k l Hsel) as [f Hf]. rewrite Hf.
    by destruct (flat db !! k).
  - by destruct (flat db !! k).
Qed.

Lemma sync_flat_landing (db : database) :
  landing (sync_ db).2 = landing db.
Proof. unfold sync_flat_from_landing. by case_bool_decide. Qed.

Lemma sync_flat_ok (db : database) :
  landing_ok (landing db) -> flat_ok (flat db) -> flat_ok (flat (sync_ db).2).
Proof.
  intros HL HF. unfold sync_flat_from_landing.
  case_bool_decide as Hall; [|exact HF]. cbn.
  intros k f. rewrite lookup_union_Some_raw, lookup_omap.
  intros [Hsel | [_ Hf]]; [|by apply (HF k)].
  destruct (selected db !! k) as [l|] eqn:Hl; [|discriminate]. cbn in Hsel.
  apply project_row_fields in Hsel as [-> _].
  apply selected_lookup in Hl as [Hl _]. by apply (HL k).
Qed.

End ProjectorFacts.

(** C1, as stated, fails: in [db_stale] the landing row of [h1] has the
    timestamp 2024-06-01 and its flat row has a null timestamp, so the
    rule with "null is older than any value" selects it; the program's
    [WHERE] clause does not, and a projector run changes nothing. *)
Lemma null_flat_timestamp_row_not_selected :
  l_lastrefresh <$> landing db_stale !! "h1" = Some (Some (DateTime 2024 6 1 0 0 0 0 0)) /\
  f_lastrefresh <$> flat db_stale !! "h1" = Some None /\
  (exists l, landing db_stale !! "h1" = Some l /\
             spec_selected l (flat db_stale !! "h1") = true) /\
  selected db_stale !! "h1" = None /\
  (sync_flat_from_landing sample_timestamptz_in sample_scalar_in sample_jsonb_text
                          db_stale).1 = Ok 0 /\
  flat (sync_flat_from_landing sample_timestamptz_in sample_scalar_in sample_jsonb_text
                               db_stale).2 !! "h1" = flat db_stale !! "h1".
Proof.
  split; [vm_compute; reflexivity|].
  split; [vm_compute; reflexivity|].
  split; [eexists; split; vm_compute; reflexivity|].
  repeat split; vm_compute; reflexivity.
Qed.

(** C1, amended: the Flat Projector selects exactly the landing rows that
    are absent from flat, or whose [last_refresh] and the flat row's
    [last_refresh] are both non-null with the landing one strictly
    greater.  A landing row whose flat counterpart has a null
    [last_refresh] is not selected.  A run that succeeds re-projects the
    selected rows and leaves every other flat row as it was. *)
Theorem flat_projector_selection
        (timestamptz_in : string -> option datetime)
        (scalar_in : sqltype -> string -> option string)
        (jsonb_text : json -> string)
        (db : database) (k : string) :
  (forall l,
      selected db !! k = Some l <->
      landing db !! k = Some l /\
      (flat db !! k = None \/
       exists fr a b, flat db !! k = Some fr /\ l_lastrefresh l = Some a /\
                      f_lastrefresh fr = Some b /\ instant_us b < instant_us a)) /\
  (forall fr, flat db !! k = Some fr -> f_lastrefresh fr = None ->
              selected db !! k = None) /\
  (forall n db',
      sync_flat_from_landing timestamptz_in scalar_in jsonb_text db = (Ok n, db') ->
      flat db' !! k = match selected db !! k with
                      | Some l => project_row timestamptz_in scalar_in jsonb_text l
                      | None => flat db !! k
                      end).
Proof.
  split; [|split].
  - intros l. rewrite selected_lookup, where_clause_holds. reflexivity.
  - intros fr Hfr Hnull.
    destruct (selected db !! k) as [l|] eqn:Hsel; [|reflexivity].
    apply selected_lookup in Hsel as [_ Hw].
    apply where_clause_holds in Hw as [Hw | (fr' & a & b & Hf & _ & Hb & _)];
      congruence.
  - intros n db' H.
    by destruct (sync_flat_lookup timestamptz_in scalar_in jsonb_text db db' n k H).
Qed.

Lemma flat_projector_selection_witness :
  selected db_stale !! "h1" = None /\
  flat (Database (landing db_stale) (flat db_stale) 4) !! "h1" = flat db_stale !! "h1".
Proof.
  pose proof (flat_projector_selection sample_timestamptz_in sample_scalar_in
                sample_jsonb_text db_stale "h1") as (_ & Hnull & Hrun).
  split.
  - apply (Hnull (FlatRow None (replicate 23 None) record_undated));
      vm_compute; reflexivity.
  - rewrite (Hrun 0 (Database (landing db_stale) (flat db_stale) 4)).
    + vm_compute. reflexivity.
    + vm_compute. reflexivity.
Defined.

(** ** Hash gating *)

Section GatingFacts.

Variable hash_text : json -> option string.
Variable jsonb_accepts : json -> bool.
Variable timestamptz_in : string -> option datetime.
Variable scalar_in : sqltype -> string -> option string.
Variable jsonb_text : json -> string.

Abbreviation run_op_ := (run_op hash_text jsonb_accepts timestamptz_in scalar_in jsonb_text).
Abbreviation run_ops_ := (run_ops hash_text jsonb_accepts timestamptz_in scalar_in jsonb_text).

Lemma run_op_ok (db : database) (op : db_op) :
  landing_ok (landing db) /\ flat_ok (flat db) ->
  landing_ok (landing (run_op_ db op)) /\ flat_ok (flat (run_op_ db op)).
Proof.
  intros [HL HF]. destruct op as [rows| |]; cbn [run_op].
  - rewrite upsert_landing_landing, upsert_landing_flat.
    split; [by apply merge_landing_ok|exact HF].
  - rewrite sync_flat_landing. split; [exact HL|by apply sync_flat_ok].
  - cbn. split; intros k r; by rewrite lookup_empty.
Qed.

Lemma run_ops_ok (ops : list db_op) (db : database) :
  landing_ok (landing db) /\ flat_ok (flat db) ->
  landing_ok (landing (run_ops_ ops db)) /\ flat_ok (flat (run_ops_ ops db)).
Proof.
  revert db. induction ops as [|op ops IH]; intros db Hdb; [exact Hdb|].
  cbn. apply IH. by apply run_op_ok.
Qed.

End GatingFacts.

Lemma lacks_hash_not_has_hash (obj : json) :
  lacks_hash obj = true -> has_hash obj = false.
Proof.
  destruct obj; cbn; try done. by intros ->%negb_true_iff.
Qed.

(** C8: a record lacking a [hash] is left out of the payload of every
    batch it is in, and after any sequence of merges, projector runs and
    resets from the empty stores it is the document of no landing row and
    of no flat row. *)
Theorem hashless_record_never_stored
        (hash_text : json -> option string) (jsonb_accepts : json -> bool)
        (timestamptz_in : string -> option datetime)
        (scalar_in : sqltype -> string -> option string)
        (jsonb_text : json -> string)
        (obj : json) :
  lacks_hash obj = true ->
  (forall rows payload,
      build_payload rows = Ok payload ->
      forall it, it ∈ payload -> pl_raw it <> obj) /\
  (forall ops,
      let db := run_ops hash_text jsonb_accepts timestamptz_in scalar_in jsonb_text ops empty_db in
      (forall k r, landing db !! k = Some r -> l_raw r <> obj) /\
      (forall k f, flat db !! k = Some f -> f_raw f <> obj)).
Proof.
  intros Hobj. apply lacks_hash_not_has_hash in Hobj. split.
  - intros rows payload Hb it Hit.
    pose proof (build_payload_has_hash rows payload Hb) as Hall.
    rewrite Forall_forall in Hall. specialize (Hall it Hit). congruence.
  - intros ops db.
    destruct (run_ops_ok hash_text jsonb_accepts timestamptz_in scalar_in jsonb_text ops empty_db)
      as [HL HF].
    { split; intros k r; cbn; by rewrite lookup_empty. }
    split.
    + intros k r Hr Heq. specialize (HL k r Hr). congruence.
    + intros k f Hf Heq. specialize (HF k f Hf). congruence.
Qed.

Lemma hashless_record_never_stored_witness :
  lacks_hash record_no_hash = true /\
  l_raw <$> landing (run_ops sample_hash_text sample_jsonb_accepts sample_timestamptz_in sample_scalar_in
                             sample_jsonb_text
                             [OpMerge [record_no_hash; record_old]; OpProject] empty_db)
            !! "h1"
  <> Some record_no_hash.
Proof.
  split; [reflexivity|].
  pose proof (hashless_record_never_stored sample_hash_text sample_jsonb_accepts sample_timestamptz_in
                sample_scalar_in sample_jsonb_text record_no_hash eq_refl) as [_ H].
  destruct (H [OpMerge [record_no_hash; record_old]; OpProject]) as [HL _].
  intros Heq.
  destruct (landing _ !! "h1") as [r|] eqn:E; [|discriminate Heq].
  apply (HL "h1" r E). by injection Heq.
Defined.

(** ** The watermark resolver *)

Lemma str_app_cons c s t : String c s +:+ t = String c (s +:+ t).
Proof. reflexivity. Qed.

Lemma str_app_assoc s t u : (s +:+ t) +:+ u = s +:+ t +:+ u.
Proof. induction s as [|c s IH]; [reflexivity|]. rewrite !str_app_cons. by rewrite IH. Qed.

Lemma str_length_app s t : String.length (s +:+ t) = (String.length s + String.length t)%nat.
Proof. induction s as [|c s IH]; [reflexivity|]. rewrite str_app_cons. cbn. by rewrite IH. Qed.

Lemma ascii_compare_refl c : Ascii.compare c c = Eq.
Proof. unfold Ascii.compare. apply N.compare_refl. Qed.

Lemma str_compare_refl s : String.compare s s = Eq.
Proof. induction s as [|c s IH]; [reflexivity|]. cbn. by rewrite ascii_compare_refl. Qed.

Lemma str_compare_app p1 : forall p2 s1 s2,
  String.length p1 = String.length p2 ->
  String.compare (p1 +:+ s1) (p2 +:+ s2) = lex (String.compare p1 p2) (String.compare s1 s2).
Proof.
  induction p1 as [|c p1 IH]; intros [|c2 p2] s1 s2 Hlen; try discriminate.
  - reflexivity.
  - rewrite !str_app_cons. cbn. destruct (Ascii.compare c c2); try reflexivity.
    apply IH. cbn in Hlen. lia.
Qed.

Lemma str_compare_same_prefix p s1 s2 :
  String.compare (p +:+ s1) (p +:+ s2) = String.compare s1 s2.
Proof. rewrite str_compare_app by reflexivity. by rewrite str_compare_refl. Qed.

Lemma digit_cases (a : Z) : 0 <= a < 10 ->
  a = 0 \/ a = 1 \/ a = 2 \/ a = 3 \/ a = 4 \/ a = 5 \/ a = 6 \/ a = 7 \/ a = 8 \/ a = 9.
Proof. lia. Qed.

Lemma compare_digit a b : 0 <= a < 10 -> 0 <= b < 10 ->
  Ascii.compare (digit_char a) (digit_char b) = (a ?= b).
Proof.
  intros Ha Hb.
  destruct (digit_cases a Ha) as [->|[->|[->|[->|[->|[->|[->|[->|[->| ->]]]]]]]]];
  destruct (digit_cases b Hb) as [->|[->|[->|[->|[->|[->|[->|[->|[->| ->]]]]]]]]];
  reflexivity.
Qed.

Lemma digit_no_plus a : 0 <= a < 10 -> Ascii.eqb (digit_char a) "+" = false.
Proof.
  intros Ha.
  destruct (digit_cases a Ha) as [->|[->|[->|[->|[->|[->|[->|[->|[->| ->]]]]]]]]];
  reflexivity.
Qed.

Lemma pad_length w : forall n, String.length (pad w n) = w.
Proof.
  induction w as [|w IH]; intros n; [reflexivity|].
  cbn [pad]. rewrite str_length_app, IH. cbn. lia.
Qed.

Lemma compare_div10 a b :
  (a ?= b) = lex (a / 10 ?= b / 10) (a mod 10 ?= b mod 10).
Proof.
  pose proof (Z.div_mod a 10 ltac:(lia)). pose proof (Z.div_mod b 10 ltac:(lia)).
  pose proof (Z.mod_pos_bound a 10 ltac:(lia)). pose proof (Z.mod_pos_bound b 10 ltac:(lia)).
  destruct (Z.compare_spec (a / 10) (b / 10)); cbn.
  - destruct (Z.compare_spec (a mod 10) (b mod 10)).
    + apply Z.compare_eq_iff. lia.
    + apply Z.compare_lt_iff. lia.
    + apply Z.compare_gt_iff. lia.
  - apply Z.compare_lt_iff. lia.
  - apply Z.compare_gt_iff. lia.
Qed.

Lemma compare_pad w : forall a b,
  0 <= a < 10 ^ Z.of_nat w -> 0 <= b < 10 ^ Z.of_nat w ->
  String.compare (pad w a) (pad w b) = (a ?= b).
Proof.
  induction w as [|w IH]; intros a b Ha Hb.
  - cbn in *. symmetry. apply Z.compare_eq_iff. lia.
  - cbn [pad]. rewrite str_compare_app by (by rewrite !pad_length).
    rewrite Nat2Z.inj_succ, Z.pow_succ_r in Ha, Hb by lia.
    rewrite IH by (split; [apply Z.div_pos; lia | apply Z.div_lt_upper_bound; lia]).
    rewrite (compare_div10 a b). f_equal.
    cbn. rewrite compare_digit by (apply Z.mod_pos_bound; lia).
    by destruct (a mod 10 ?= b mod 10).
Qed.

Lemma no_plus_app s t : no_plus (s +:+ t) = no_plus s && no_plus t.
Proof.
  induction s as [|c s IH]; [reflexivity|].
  rewrite str_app_cons. cbn. rewrite IH. by rewrite andb_assoc.
Qed.

Lemma no_plus_pad w : forall n, no_plus (pad w n) = true.
Proof.
  induction w as [|w IH]; intros n; [reflexivity|].
  cbn [pad]. rewrite no_plus_app, IH. cbn.
  rewrite digit_no_plus by (apply Z.mod_pos_bound; lia). reflexivity.
Qed.

Lemma no_plus_iso_seconds d : no_plus (iso_seconds d) = true.
Proof.
  unfold iso_seconds. rewrite !no_plus_app, !no_plus_pad. reflexivity.
Qed.

Lemma replace_utc_suffix s :
  no_plus s = true -> str_replace (s +:+ "+00:00") "+00:00" "Z" = s +:+ "Z".
Proof.
  unfold str_replace. induction s as [|c s IH]; intros Hs; [reflexivity|].
  cbn in Hs. apply andb_true_iff in Hs as [Hc Hs].
  rewrite !str_app_cons. cbn [replace_from].
  cbn [String.prefix]. destruct (ascii_dec "+" c) as [<-|_]; [discriminate|].
  by rewrite IH.
Qed.

Lemma isoformat_utc d :
  microsecond d = 0 -> utcoffset d = 0 -> isoformat d = iso_seconds d +:+ "+00:00".
Proof.
  intros Hus Hoff. unfold isoformat, iso_seconds. rewrite Hus, Hoff.
  rewrite !str_app_assoc. reflexivity.
Qed.

Lemma iso_quoted_utc d :
  microsecond d = 0 -> utcoffset d = 0 ->
  iso_quoted d = "'" +:+ iso_seconds d +:+ "Z'".
Proof.
  intros Hus Hoff. unfold iso_quoted.
  rewrite (isoformat_utc d Hus Hoff), replace_utc_suffix by apply no_plus_iso_seconds.
  by rewrite str_app_assoc.
Qed.

Ltac unpack_valid H :=
  unfold valid_datetime in H;
  repeat (apply andb_true_iff in H; let H' := fresh H in destruct H as [H H']);
  repeat match goal with
         | X : (_ <=? _) = true |- _ => apply Z.leb_le in X
         | X : (_ <? _) = true |- _ => apply Z.ltb_lt in X
         end.

Lemma compare_iso_seconds a b :
  valid_datetime a = true -> valid_datetime b = true ->
  String.compare (iso_seconds a +:+ "Z'") (iso_seconds b +:+ "Z'") = civil_compare a b.
Proof.
  intros Ha Hb. unpack_valid Ha. unpack_valid Hb.
  assert (Hda : day a <= 31) by (unfold days_in_month in *; repeat case_match; lia).
  assert (Hdb : day b <= 31) by (unfold days_in_month in *; repeat case_match; lia).
  unfold iso_seconds, civil_compare. rewrite !str_app_assoc.
  repeat (rewrite str_compare_app by (by rewrite !pad_length);
          rewrite compare_pad by (cbn; lia);
          f_equal;
          try rewrite (str_compare_same_prefix "-");
          try rewrite (str_compare_same_prefix ":");
          try rewrite (str_compare_same_prefix "T")).
  cbn. by destruct (second a ?= second b).
Qed.

Ltac eval_month_index :=
  repeat match goal with
         | |- context [Z.to_nat ?e] =>
             let v := eval vm_compute in (Z.to_nat e) in change (Z.to_nat e) with v
         | H : context [Z.to_nat ?e] |- _ =>
             let v := eval vm_compute in (Z.to_nat e) in change (Z.to_nat e) with v in H
         end.

Lemma month_cases (m : Z) : 1 <= m <= 12 ->
  m = 1 \/ m = 2 \/ m = 3 \/ m = 4 \/ m = 5 \/ m = 6 \/
  m = 7 \/ m = 8 \/ m = 9 \/ m = 10 \/ m = 11 \/ m = 12.
Proof. lia. Qed.

Lemma days_before_year_succ y :
  days_before_year (y + 1) = days_before_year y + 365 + (if is_leap y then 1 else 0).
Proof.
  unfold days_before_year, is_leap.
  replace (y + 1 - 1) with y by lia.
  destruct (Z.eqb_spec (y mod 4) 0); destruct (Z.eqb_spec (y mod 100) 0);
    destruct (Z.eqb_spec (y mod 400) 0); cbn;
    Z.div_mod_to_equations; lia.
Qed.

Lemma days_before_year_mono y1 y2 :
  y1 <= y2 -> days_before_year y1 <= days_before_year y2.
Proof.
  intros H. unfold days_before_year.
  pose proof (Z.div_le_mono (y1 - 1) (y2 - 1) 4 ltac:(lia) ltac:(lia)).
  pose proof (Z.div_le_mono (y1 - 1) (y2 - 1) 400 ltac:(lia) ltac:(lia)).
  pose proof (Z.mul_div_le (y2 - 1) 100 ltac:(lia)).
  pose proof (Z.mul_succ_div_gt (y1 - 1) 100 ltac:(lia)).
  lia.
Qed.

Lemma day_of_year_bound y m d :
  1 <= m <= 12 -> 1 <= d <= days_in_month y m ->
  1 <= days_before_month y m + d <= 365 + (if is_leap y then 1 else 0).
Proof.
  intros Hm Hd. unfold days_before_month, days_in_month in *.
  destruct (month_cases m Hm) as [->|[->|[->|[->|[->|[->|[->|[->|[->|[->|[->| ->]]]]]]]]]]];
    destruct (is_leap y); eval_month_index; cbn in *; lia.
Qed.

Lemma days_before_month_next y m1 m2 d :
  1 <= m1 -> m1 < m2 -> m2 <= 12 -> d <= days_in_month y m1 ->
  days_before_month y m1 + d <= days_before_month y m2.
Proof.
  intros H1 H12 H2 Hd. unfold days_before_month, days_in_month in *.
  destruct (month_cases m1 ltac:(lia)) as [->|[->|[->|[->|[->|[->|[->|[->|[->|[->|[->| ->]]]]]]]]]]];
  destruct (month_cases m2 ltac:(lia)) as [->|[->|[->|[->|[->|[->|[->|[->|[->|[->|[->| ->]]]]]]]]]]];
    try lia; destruct (is_leap y); eval_month_index; cbn in *; lia.
Qed.

Lemma ordinal_lt y1 m1 d1 y2 m2 d2 :
  1 <= m1 <= 12 -> 1 <= d1 <= days_in_month y1 m1 ->
  1 <= m2 <= 12 -> 1 <= d2 <= days_in_month y2 m2 ->
  lex (y1 ?= y2) (lex (m1 ?= m2) (d1 ?= d2)) = Lt ->
  ordinal y1 m1 d1 < ordinal y2 m2 d2.
Proof.
  intros Hm1 Hd1 Hm2 Hd2 Hlex. unfold ordinal.
  destruct (Z.compare_spec y1 y2) as [->|Hy|Hy]; cbn [lex] in Hlex; [| |discriminate].
  - destruct (Z.compare_spec m1 m2) as [->|Hm|Hm]; cbn [lex] in Hlex; [| |discriminate].
    + pose proof (proj1 (Z.compare_lt_iff d1 d2) Hlex). lia.
    + pose proof (days_before_month_next y2 m1 m2 d1 ltac:(lia) Hm ltac:(lia) ltac:(lia)).
      lia.
  - pose proof (day_of_year_bound y1 m1 d1 Hm1 Hd1).
    pose proof (day_of_year_bound y2 m2 d2 Hm2 Hd2).
    pose proof (days_before_year_succ y1).
    pose proof (days_before_year_mono (y1 + 1) y2 ltac:(lia)).
    lia.
Qed.

Lemma lex_Eq c k : lex c k = Eq -> c = Eq /\ k = Eq.
Proof. destruct c; cbn; intros; by try discriminate. Qed.

Lemma civil_compare_Lt a b :
  valid_datetime a = true -> valid_datetime b = true ->
  utcoffset a = utcoffset b -> microsecond a = microsecond b ->
  civil_compare a b = Lt -> instant_us a < instant_us b.
Proof.
  intros Ha Hb Hoff Hus Hc. unpack_valid Ha. unpack_valid Hb.
  unfold civil_compare in Hc. unfold instant_us. rewrite Hoff, Hus.
  destruct (lex (year a ?= year b) (lex (month a ?= month b) (day a ?= day b))) eqn:Hdate.
  - apply lex_Eq in Hdate as [Hy Hdate]. apply lex_Eq in Hdate as [Hm Hd].
    apply Z.compare_eq_iff in Hy, Hm, Hd. rewrite Hy, Hm, Hd in *.
    rewrite !Z.compare_refl in Hc. cbn [lex] in Hc.
    destruct (Z.compare_spec (hour a) (hour b)) as [Hh|Hh|Hh]; cbn [lex] in Hc; [| |discriminate].
    + rewrite Hh.
      destruct (Z.compare_spec (minute a) (minute b)) as [Hmi|Hmi|Hmi]; cbn [lex] in Hc;
        [| |discriminate].
      * pose proof (proj1 (Z.compare_lt_iff _ _) Hc). lia.
      * lia.
    + lia.
  - pose proof (ordinal_lt (year a) (month a) (day a) (year b) (month b) (day b)
                  ltac:(lia) ltac:(lia) ltac:(lia) ltac:(lia) Hdate).
    lia.
  - exfalso. revert Hc Hdate.
    destruct (year a ?= year b); cbn; try discriminate.
    destruct (month a ?= month b); cbn; try discriminate.
    destruct (day a ?= day b); cbn; discriminate.
Qed.

Lemma lex_antisym c1 c2 k1 k2 :
  c2 = CompOpp c1 -> k2 = CompOpp k1 -> lex c2 k2 = CompOpp (lex c1 k1).
Proof. intros -> ->. by destruct c1. Qed.

Lemma civil_compare_antisym a b : civil_compare b a = CompOpp (civil_compare a b).
Proof.
  unfold civil_compare.
  repeat (apply lex_antisym; [apply Z.compare_antisym|]).
  apply Z.compare_antisym.
Qed.

Lemma today_midnight_valid (now : datetime) :
  valid_datetime now = true -> valid_datetime (today_midnight now) = true.
Proof.
  intros H. unpack_valid H. unfold valid_datetime, today_midnight.
  cbn [year month day hour minute second microsecond utcoffset].
  rewrite !andb_true_iff, !Z.leb_le, !Z.ltb_lt. lia.
Qed.

Lemma compare_iso_quoted (a b : datetime) :
  whole_second_utc a = true -> whole_second_utc b = true ->
  String.compare (iso_quoted a) (iso_quoted b) = civil_compare a b.
Proof.
  unfold whole_second_utc. intros Ha Hb.
  apply andb_true_iff in Ha as [Ha Hoa]. apply andb_true_iff in Ha as [Ha Hua].
  apply andb_true_iff in Hb as [Hb Hob]. apply andb_true_iff in Hb as [Hb Hub].
  apply Z.eqb_eq in Hoa, Hua, Hob, Hub.
  rewrite !iso_quoted_utc by assumption.
  rewrite str_compare_same_prefix. by apply compare_iso_seconds.
Qed.

(** For a whole-second UTC maximum the string comparison of [run_cycle]
    picks the later instant. *)
Lemma watermark_whole_second (d now : datetime) :
  whole_second_utc d = true -> utc_clock now = true ->
  run_cycle_watermark (Some d) now = spec_watermark (Some d) now.
Proof.
  intros Hd Hnow.
  assert (Ht : whole_second_utc (today_midnight now) = true).
  { unfold utc_clock in Hnow. apply andb_true_iff in Hnow as [Hv Ho].
    unfold whole_second_utc. rewrite (today_midnight_valid now Hv). cbn. exact Ho. }
  pose proof (compare_iso_quoted d (today_midnight now) Hd Ht) as Hcmp.
  unfold run_cycle_watermark, spec_watermark, today_midnight_iso_quoted, py_max,
    String.ltb, ts_ltb.
  unfold whole_second_utc in Hd, Ht.
  apply andb_true_iff in Hd as [Hd Hod]. apply andb_true_iff in Hd as [Hd Hud].
  apply andb_true_iff in Ht as [Ht Hot]. apply andb_true_iff in Ht as [Ht Hut].
  apply Z.eqb_eq in Hod, Hud, Hot, Hut.
  destruct (civil_compare d (today_midnight now)) eqn:Hc; rewrite Hcmp.
  - apply String.compare_eq_iff in Hcmp. rewrite <- Hcmp.
    by destruct (instant_us (today_midnight now) <? instant_us d).
  - pose proof (civil_compare_Lt d (today_midnight now) Hd Ht
                  ltac:(congruence) ltac:(congruence) Hc).
    by destruct (Z.ltb_spec (instant_us (today_midnight now)) (instant_us d)); [lia|].
  - assert (Hc' : civil_compare (today_midnight now) d = Lt)
      by (by rewrite civil_compare_antisym, Hc).
    pose proof (civil_compare_Lt (today_midnight now) d Ht Hd
                  ltac:(congruence) ltac:(congruence) Hc').
    by destruct (Z.ltb_spec (instant_us (today_midnight now)) (instant_us d)); [|lia].
Qed.

Lemma civil_compare_Eq (a b : datetime) :
  civil_compare a b = Eq ->
  year a = year b /\ month a = month b /\ day a = day b /\
  hour a = hour b /\ minute a = minute b /\ second a = second b.
Proof.
  unfold civil_compare. intros H.
  repeat (apply lex_Eq in H as [?%Z.compare_eq_iff H]).
  apply Z.compare_eq_iff in H. done.
Qed.

Lemma iso_seconds_length (d : datetime) : String.length (iso_seconds d) = 19%nat.
Proof. unfold iso_seconds. rewrite !str_length_app, !pad_length. reflexivity. Qed.

Lemma civil_compare_Lt_fraction a b :
  valid_datetime a = true -> valid_datetime b = true ->
  utcoffset a = utcoffset b ->
  civil_compare a b = Lt -> instant_us a < instant_us b.
Proof.
  intros Ha Hb Hoff Hc.
  set (a0 := DateTime (year a) (month a) (day a) (hour a) (minute a) (second a) 0
                      (utcoffset a)).
  set (b0 := DateTime (year b) (month b) (day b) (hour b) (minute b) (second b) 0
                      (utcoffset b)).
  assert (Hzero : forall x, valid_datetime x = true ->
            valid_datetime (DateTime (year x) (month x) (day x) (hour x) (minute x)
                                     (second x) 0 (utcoffset x)) = true).
  { intros x Hx. unpack_valid Hx. unfold valid_datetime.
    cbn [year month day hour minute second microsecond utcoffset].
    rewrite !andb_true_iff, !Z.leb_le, !Z.ltb_lt. lia. }
  pose proof (civil_compare_Lt a0 b0 (Hzero a Ha) (Hzero b Hb) Hoff eq_refl Hc) as Hlt.
  unpack_valid Ha. unpack_valid Hb.
  unfold instant_us in *. cbn in Hlt. lia.
Qed.

Lemma iso_quoted_utc_fraction d :
  microsecond d <> 0 -> utcoffset d = 0 ->
  iso_quoted d = "'" +:+ iso_seconds d +:+ "." +:+ pad 6 (microsecond d) +:+ "Z'".
Proof.
  intros Hus Hoff. unfold iso_quoted.
  assert (Hiso : isoformat d
                 = (iso_seconds d +:+ "." +:+ pad 6 (microsecond d)) +:+ "+00:00").
  { unfold isoformat, iso_seconds. rewrite Hoff, (proj2 (Z.eqb_neq _ _) Hus).
    rewrite !str_app_assoc. reflexivity. }
  rewrite Hiso, replace_utc_suffix.
  - by rewrite !str_app_assoc.
  - rewrite !no_plus_app, no_plus_iso_seconds, no_plus_pad. reflexivity.
Qed.

Lemma lex_Eq_r c : lex c Eq = c.
Proof. by destruct c. Qed.

(** A timestamp with a fraction against one without: the strings are
    ordered as the two are down to the second, and the one with the
    fraction comes first when they agree so far, the full stop sorting
    before the letter Z. *)
Lemma compare_iso_quoted_fraction (a b : datetime) :
  utc_timestamp a = true -> microsecond a <> 0 -> whole_second_utc b = true ->
  String.compare (iso_quoted a) (iso_quoted b) = lex (civil_compare a b) Lt.
Proof.
  unfold utc_timestamp, whole_second_utc. intros Ha Hua Hb.
  apply andb_true_iff in Ha as [Ha Hoa].
  apply andb_true_iff in Hb as [Hb Hob]. apply andb_true_iff in Hb as [Hb Hub].
  apply Z.eqb_eq in Hoa, Hob, Hub.
  rewrite (iso_quoted_utc_fraction a Hua Hoa), (iso_quoted_utc b Hub Hob).
  rewrite str_compare_same_prefix.
  rewrite str_compare_app by (by rewrite !iso_seconds_length).
  pose proof (compare_iso_seconds a b Ha Hb) as Hsec.
  rewrite str_compare_app, str_compare_refl, lex_Eq_r in Hsec
    by (by rewrite !iso_seconds_length).
  rewrite Hsec. reflexivity.
Qed.

(** The decision of [run_cycle] on a stored maximum in UTC: the string
    comparison picks the later instant, except for a maximum in the first
    second of the current day with a fraction of a second, which is later
    than midnight and sorts before it. *)
Lemma watermark_utc (d now : datetime) :
  utc_timestamp d = true -> utc_clock now = true ->
  (run_cycle_watermark (Some d) now = spec_watermark (Some d) now <->
   ~ (civil_compare d (today_midnight now) = Eq /\ microsecond d <> 0)).
Proof.
  intros Hd Hnow.
  destruct (Z.eq_dec (microsecond d) 0) as [Hus|Hus].
  { split; [intros _ [_ H]; contradiction|]. intros _.
    apply watermark_whole_second; [|exact Hnow].
    unfold utc_timestamp in Hd. apply andb_true_iff in Hd as [Hv Ho].
    unfold whole_second_utc. rewrite Hv, Ho, (proj2 (Z.eqb_eq _ _) Hus). reflexivity. }
  assert (Ht : whole_second_utc (today_midnight now) = true).
  { unfold utc_clock in Hnow. apply andb_true_iff in Hnow as [Hv Ho].
    unfold whole_second_utc. rewrite (today_midnight_valid now Hv). cbn. exact Ho. }
  pose proof (compare_iso_quoted_fraction d (today_midnight now) Hd Hus Ht) as Hcmp.
  unfold run_cycle_watermark, spec_watermark, today_midnight_iso_quoted, py_max,
    String.ltb, ts_ltb.
  unfold utc_timestamp in Hd. unfold whole_second_utc in Ht.
  apply andb_true_iff in Hd as [Hd Hod].
  apply andb_true_iff in Ht as [Ht Hot]. apply andb_true_iff in Ht as [Ht Hut].
  apply Z.eqb_eq in Hod, Hot, Hut.
  rewrite Hcmp.
  destruct (civil_compare d (today_midnight now)) eqn:Hc; cbn [lex].
  - split; [intros Heq|intros H; exfalso; by apply H].
    exfalso.
    apply civil_compare_Eq in Hc as (Hy & Hm & Hdy & Hh & Hmi & Hs).
    assert (Hlt : instant_us (today_midnight now) < instant_us d).
    { unpack_valid Hd. unfold instant_us. rewrite Hy, Hm, Hdy, Hh, Hmi, Hs, Hod, Hot, Hut.
      lia. }
    destruct (Z.ltb_spec (instant_us (today_midnight now)) (instant_us d)); [|lia].
    assert (Hne : String.compare (iso_quoted d) (iso_quoted (today_midnight now)) = Eq)
      by (rewrite <- Heq; apply str_compare_refl).
    rewrite Hcmp in Hne. discriminate.
  - split; [intros _ [H _]; discriminate|]. intros _.
    pose proof (civil_compare_Lt_fraction d (today_midnight now) Hd Ht
                  ltac:(congruence) Hc).
    by destruct (Z.ltb_spec (instant_us (today_midnight now)) (instant_us d)); [lia|].
  - split; [intros _ [H _]; discriminate|]. intros _.
    assert (Hc' : civil_compare (today_midnight now) d = Lt)
      by (by rewrite civil_compare_antisym, Hc).
    pose proof (civil_compare_Lt_fraction (today_midnight now) d Ht Hd
                  ltac:(congruence) Hc').
    by destruct (Z.ltb_spec (instant_us (today_midnight now)) (instant_us d)); [|lia].
Qed.

(** C2: [run_cycle] does not do what the claim, its own docstring
    ("incremental from max(DB watermark, today@00:00Z)") and its comment
    ("string comparison works since both quoted ISO (same length)") say.
    The stored maximum is 2025-03-10 00:00:00.5 UTC and the clock reads
    12:30 the same day.  The two quoted strings do not have the same
    length, the later instant is the stored maximum, and the program
    returns the start of the day. *)
Lemma watermark_uses_string_order :
  db_watermark db_fraction = Some (DateTime 2025 3 10 0 0 0 500000 0) /\
  ts_ltb (today_midnight noon_2025_03_10) (DateTime 2025 3 10 0 0 0 500000 0) = true /\
  String.length (iso_quoted (DateTime 2025 3 10 0 0 0 500000 0)) = 29%nat /\
  String.length (today_midnight_iso_quoted noon_2025_03_10) = 22%nat /\
  spec_watermark (db_watermark db_fraction) noon_2025_03_10
    = "'2025-03-10T00:00:00.500000Z'" /\
  run_cycle_watermark (db_watermark db_fraction) noon_2025_03_10
    = "'2025-03-10T00:00:00Z'".
Proof. repeat split; vm_compute; reflexivity. Qed.

(** Where the comparison of the strings is right.  With no stored
    maximum the watermark is the start of the day.  For a stored maximum
    in UTC the program returns the later of the two instants in every
    case but one: a maximum in the first second of the current day with
    a fraction of a second. *)
Lemma watermark_resolution (db : database) (now : datetime) :
  (db_watermark db = None ->
   run_cycle_watermark (db_watermark db) now = today_midnight_iso_quoted now) /\
  (forall d, db_watermark db = Some d ->
     utc_timestamp d = true -> utc_clock now = true ->
     run_cycle_watermark (db_watermark db) now
       = py_max (iso_quoted d) (today_midnight_iso_quoted now) /\
     (run_cycle_watermark (db_watermark db) now
        = spec_watermark (db_watermark db) now <->
      ~ (civil_compare d (today_midnight now) = Eq /\ microsecond d <> 0))).
Proof.
  split.
  - intros ->. reflexivity.
  - intros d -> Hd Hnow. split; [reflexivity|].
    by apply watermark_utc.
Qed.

(** * Further properties *)

(** ** More on page requests *)


Section HttpLog.

Variable server : nat -> attempt_outcome.
Variable jitter : nat -> Q.
Variable sleep_limit : Z.
Variable py_int : string -> option Z.

(** How one [try] block can end, with what it did to the world. *)
Lemma try_block_cases (p : params) (attempt : Z) (w : world) :
  (exists j status hdr,
      server (w_calls w) = Response status hdr (Some j) /\ status < 400 /\
      try_block server jitter sleep_limit py_int p attempt w = (TReturn j, do_send p w)) \/
  (exists e w1,
      try_block server jitter sleep_limit py_int p attempt w = (TExcept e, w1) /\
      w_slept w1 = w_slept w /\
      w_calls w1 = S (w_calls w) /\ w_sent w1 = w_sent w ++ [p]) \/
  (exists d w2,
      try_block server jitter sleep_limit py_int p attempt w = (TContinue, w2) /\
      bounded_sleep d /\ w_slept w2 = w_slept w ++ [d] /\
      w_calls w2 = S (w_calls w) /\ w_sent w2 = w_sent w ++ [p]).
Proof.
  unfold try_block.
  destruct (server (w_calls w)) as [|status hdr body];
    [right; left; eexists _, _; split; [reflexivity|done]|].
  assert (Hexp : forall hint, hint = None \/ hint = Some 0 ->
            (exists e w1,
              (let (r, w2) := _sleep_backoff jitter sleep_limit attempt hint (do_send p w) in
               match r with Ok _ => (TContinue, w2) | Raise e => (TExcept e, w2) end)
              = (TExcept e, w1) /\
              w_slept w1 = w_slept w /\
              w_calls w1 = S (w_calls w) /\ w_sent w1 = w_sent w ++ [p]) \/
            (exists d w2,
              (let (r, w2) := _sleep_backoff jitter sleep_limit attempt hint (do_send p w) in
               match r with Ok _ => (TContinue, w2) | Raise e => (TExcept e, w2) end)
              = (TContinue, w2) /\
              bounded_sleep d /\ w_slept w2 = w_slept w ++ [d] /\
              w_calls w2 = S (w_calls w) /\ w_sent w2 = w_sent w ++ [p])).
  { intros hint Hh.
    assert (Heq : _sleep_backoff jitter sleep_limit attempt hint (do_send p w)
                  = exponential_backoff jitter attempt (do_send p w))
      by (destruct Hh as [-> | ->]; reflexivity).
    rewrite Heq. unfold exponential_backoff.
    destruct (FLOAT_MAX_EXP <=? attempt).
    - left. eexists _, _. split; [reflexivity|]. cbn. done.
    - right. eexists _, _. split; [reflexivity|].
      split; [left; apply Q.le_min_l|]. cbn. done. }
  destruct ((status =? 429) || (status =? 503)) eqn:Hrl.
  - destruct (retry_after_header py_int hdr) as [ra|];
      [|right; left; eexists _, _; split; [reflexivity|done]].
    destruct (Z.eqb_spec ra 0) as [->|Hne]; [right; apply Hexp; by right|].
    unfold _sleep_backoff, time_sleep. rewrite (proj2 (Z.eqb_neq ra 0) Hne).
    destruct (Z.ltb_spec ra 0); [right; left; eexists _, _; split; [reflexivity|done]|].
    destruct (Z.max 60 sleep_limit <? ra);
      [right; left; eexists _, _; split; [reflexivity|done]|].
    right; right. eexists _, _. split; [reflexivity|].
    split; [right; exists ra; split; [lia|reflexivity]|]. cbn. done.
  - destruct (Z.geb_spec status 500); [right; apply Hexp; by left|].
    destruct ((400 <=? status) && (status <? 600)) eqn:Hce;
      [right; left; eexists _, _; split; [reflexivity|done]|].
    destruct body as [j|]; [|right; left; eexists _, _; split; [reflexivity|done]].
    left. exists j, status, hdr. split; [done|]. split; [|done].
    apply andb_false_iff in Hce as [Hce|Hce]; [apply Z.leb_gt in Hce|apply Z.ltb_ge in Hce]; lia.
Qed.

(** The log of one [http_get]: the calls made, the requests sent and the
    sleeps, for any list of attempt numbers. *)
Lemma http_get_loop_log (p : params) (attempts : list Z) (w : world) :
  exists (k : nat) (sl : list Q),
    (k <= length attempts)%nat /\ (attempts <> [] -> 1 <= k)%nat /\
    w_calls (http_get_loop server jitter sleep_limit py_int p attempts w).2 = (w_calls w + k)%nat /\
    w_sent (http_get_loop server jitter sleep_limit py_int p attempts w).2 = w_sent w ++ replicate k p /\
    w_slept (http_get_loop server jitter sleep_limit py_int p attempts w).2 = w_slept w ++ sl /\
    (length sl <= k)%nat /\ Forall bounded_sleep sl.
Proof.
  revert w. induction attempts as [|a rest IH]; intros w.
  - exists 0%nat, []. cbn. rewrite !app_nil_r. repeat split; try done; try lia.
  - cbn [http_get_loop].
    destruct (try_block_cases p a w)
      as [(j & st & hdr & _ & _ & ->)
         | [(e & w1 & -> & Hsl1 & Hc1 & Hs1) | (d & w2 & -> & Hd & Hsl & Hc & Hs)]].
    + exists 1%nat, []. cbn. rewrite !app_nil_r. repeat split; try done; try lia.
    + destruct (a =? MAX_RETRIES).
      * exists 1%nat, []. cbn [snd]. rewrite Hsl1, Hc1, Hs1. cbn. rewrite !app_nil_r.
        repeat split; try done; try lia.
      * destruct (Z.leb_spec FLOAT_MAX_EXP a) as [Hov|Hlt].
        -- rewrite sleep_backoff_overflow by exact Hov.
           exists 1%nat, []. cbn [snd]. cbn [do_draw w_calls w_sent w_slept].
           rewrite Hsl1, Hc1, Hs1. cbn. rewrite !app_nil_r.
           repeat split; try done; try lia.
        -- rewrite sleep_backoff_no_hint by exact Hlt.
           destruct (IH (do_sleep (Qmin 60 (inject_Z (2 ^ a) + jitter (w_draws w1)))
                                  (do_draw w1)))
             as (k & sl & Hk & _ & Hcalls & Hsent & Hslept & Hlen & Hall).
           exists (S k), (Qmin 60 (inject_Z (2 ^ a) + jitter (w_draws w1)) :: sl).
           rewrite Hcalls, Hsent, Hslept. cbn. rewrite Hsl1, Hc1, Hs1.
           rewrite <- !app_assoc. cbn.
           repeat split; try done; try lia.
           constructor; [left; apply Q.le_min_l|exact Hall].
    + destruct (IH w2) as (k & sl & Hk & _ & Hcalls & Hsent & Hslept & Hlen & Hall).
      exists (S k), (d :: sl).
      rewrite Hcalls, Hsent, Hslept, Hc, Hs, Hsl. cbn. rewrite <- !app_assoc. cbn.
      repeat split; try done; try lia. by constructor.
Qed.

(** An exception leaves [http_get] only from the attempt numbered
    [MAX_RETRIES], as long as the attempt numbers stay below the
    exponent at which the backoff overflows. *)
Lemma http_get_loop_raise (p : params) (attempts : list Z) :
  Forall (fun a => a < FLOAT_MAX_EXP) attempts ->
  forall (w w' : world) (e : exn),
  http_get_loop server jitter sleep_limit py_int p attempts w = (Raise e, w') ->
  exists pre post, attempts = pre ++ MAX_RETRIES :: post /\
                   w_calls w' = (w_calls w + S (length pre))%nat.
Proof.
  induction attempts as [|a rest IH]; intros Hsmall w w' e H; cbn [http_get_loop] in H.
  - discriminate.
  - apply Forall_cons in Hsmall as [Ha Hsmall].
    destruct (try_block_cases p a w)
      as [(j & st & hdr & _ & _ & Ht)
         | [(e0 & w1 & Ht & _ & Hc1 & _) | (d & w2 & Ht & _ & _ & Hc & _)]];
      rewrite Ht in H.
    + discriminate.
    + destruct (Z.eqb_spec a MAX_RETRIES) as [->|Hne].
      * exists [], rest. simplify_eq. cbn. split; [done|lia].
      * rewrite sleep_backoff_no_hint in H by exact Ha.
        apply (IH Hsmall) in H as (pre & post & -> & Hcalls).
        exists (a :: pre), post. split; [done|]. rewrite Hcalls. cbn. lia.
    + apply (IH Hsmall) in H as (pre & post & -> & Hcalls).
      exists (a :: pre), post. split; [done|]. rewrite Hcalls, Hc. cbn. lia.
Qed.

(** What [http_get] returns is [None] after all attempts, or the body of
    a response with a success status. *)
Lemma http_get_loop_return (p : params) (attempts : list Z) :
  forall (w w' : world) (j : json),
  http_get_loop server jitter sleep_limit py_int p attempts w = (Ok j, w') ->
  (j = JNull /\ w_calls w' = (w_calls w + length attempts)%nat) \/
  (exists (i : nat) status hdr,
      (i < length attempts)%nat /\
      server (w_calls w + i)%nat = Response status hdr (Some j) /\ status < 400 /\
      w_calls w' = (w_calls w + S i)%nat).
Proof.
  induction attempts as [|a rest IH]; intros w w' j H; cbn [http_get_loop] in H.
  - simplify_eq. left. split; [done|]. cbn. lia.
  - assert (Hshift : forall w1, w_calls w1 = S (w_calls w) ->
      (j = JNull /\ w_calls w' = (w_calls w1 + length rest)%nat) \/
      (exists (i : nat) status hdr,
         (i < length rest)%nat /\
         server (w_calls w1 + i)%nat = Response status hdr (Some j) /\ status < 400 /\
         w_calls w' = (w_calls w1 + S i)%nat) ->
      (j = JNull /\ w_calls w' = (w_calls w + length (a :: rest))%nat) \/
      (exists (i : nat) status hdr,
         (i < length (a :: rest))%nat /\
         server (w_calls w + i)%nat = Response status hdr (Some j) /\ status < 400 /\
         w_calls w' = (w_calls w + S i)%nat)).
    { intros w1 Hw1 [[-> Hc] | (i & st & hdr & Hi & Hsrv & Hst & Hc)].
      - left. split; [done|]. rewrite Hc, Hw1. cbn. lia.
      - right. exists (S i), st, hdr. rewrite Hw1 in Hsrv, Hc.
        replace (w_calls w + S i)%nat with (S (w_calls w) + i)%nat by lia.
        split; [cbn; lia|]. split; [done|]. split; [done|]. rewrite Hc. lia. }
    destruct (try_block_cases p a w)
      as [(j0 & st & hdr & Hsrv & Hst & Ht)
         | [(e0 & w1 & Ht & _ & Hc1 & _) | (d & w2 & Ht & _ & _ & Hc & _)]];
      rewrite Ht in H.
    + simplify_eq. right. exists 0%nat, st, hdr. rewrite Nat.add_0_r.
      split; [cbn; lia|]. split; [done|]. split; [done|]. cbn. lia.
    + destruct (a =? MAX_RETRIES); [discriminate|].
      destruct (Z.leb_spec FLOAT_MAX_EXP a) as [Hov|Hlt].
      * rewrite sleep_backoff_overflow in H by exact Hov. discriminate.
      * rewrite sleep_backoff_no_hint in H by exact Hlt.
        apply IH in H. eapply Hshift; [|exact H]. cbn. exact Hc1.
    + apply IH in H. eapply Hshift; [|exact H]. exact Hc.
Qed.

Lemma attempt_range_small : Forall (fun a => a < FLOAT_MAX_EXP) attempt_range.
Proof. unfold attempt_range, FLOAT_MAX_EXP. repeat constructor. Qed.

End HttpLog.


(** X1: Whatever the server answers, one [http_get] sends between one and
    five copies of its request and nothing else, sleeps at most once per
    request sent, and every sleep is at most 60 seconds or is a positive
    [Retry-After] hint of the server. *)
Theorem http_get_request_and_sleep_budget
        (server : nat -> attempt_outcome) (jitter : nat -> Q) (sleep_limit : Z)
        (py_int : string -> option Z) (p : params) (w : world) :
  exists (k : nat) (sl : list Q),
    (1 <= k <= 5)%nat /\
    w_calls (http_get server jitter sleep_limit py_int p w).2 = (w_calls w + k)%nat /\
    w_sent (http_get server jitter sleep_limit py_int p w).2 = w_sent w ++ replicate k p /\
    w_slept (http_get server jitter sleep_limit py_int p w).2 = w_slept w ++ sl /\
    (length sl <= k)%nat /\
    Forall bounded_sleep sl.
Proof.
  destruct (http_get_loop_log server jitter sleep_limit py_int p attempt_range w)
    as (k & sl & Hk & H1 & Hcalls & Hsent & Hslept & Hlen & Hall).
  exists k, sl. unfold http_get. cbn in Hk.
  repeat split; try done. apply H1. discriminate.
Qed.

(** X2: When [http_get] raises, it has sent its request exactly five
    times: no exception leaves it before the last attempt. *)
Theorem http_get_raises_only_after_five_calls
        (server : nat -> attempt_outcome) (jitter : nat -> Q) (sleep_limit : Z)
        (py_int : string -> option Z) (p : params) (w w' : world) (e : exn) :
  http_get server jitter sleep_limit py_int p w = (Raise e, w') ->
  w_calls w' = (w_calls w + 5)%nat /\ w_sent w' = w_sent w ++ replicate 5 p.
Proof.
  intros H.
  pose proof (http_get_loop_raise server jitter sleep_limit py_int p attempt_range
                attempt_range_small w w' e H)
    as (pre & post & Hsplit & Hcalls).
  assert (Hpre : length pre = 4%nat).
  { unfold attempt_range, MAX_RETRIES in Hsplit.
    destruct pre as [|a1 [|a2 [|a3 [|a4 [|a5 pre]]]]]; cbn in Hsplit;
      simplify_eq; try done.
    destruct pre; discriminate. }
  rewrite Hpre in Hcalls. split; [exact Hcalls|].
  destruct (http_get_loop_sent server jitter sleep_limit py_int p attempt_range w) as [k Hk].
  destruct (http_get_loop_log server jitter sleep_limit py_int p attempt_range w)
    as (k' & sl & _ & _ & Hc' & Hs' & _).
  unfold http_get in H. rewrite H in Hc', Hs'. cbn in Hc', Hs'.
  assert (k' = 5%nat) as -> by lia. exact Hs'.
Qed.

Lemma http_get_raises_only_after_five_calls_witness :
  w_calls (http_get server_down half_jitter sample_sleep_limit sample_int (Params 0 1000 None None) world0).2
  = 5%nat.
Proof.
  pose proof (http_get_raises_only_after_five_calls
                server_down half_jitter sample_sleep_limit sample_int (Params 0 1000 None None) world0
                (http_get server_down half_jitter sample_sleep_limit sample_int
                          (Params 0 1000 None None) world0).2
                ConnectionError eq_refl) as [H _].
  exact H.
Defined.

(** X3: What [http_get] returns is either [None], after five requests, or
    the decoded body of a response whose status is below 400, received on
    the last request it sent; the body of an error response is never
    returned. *)
Theorem http_get_returns_a_success_body
        (server : nat -> attempt_outcome) (jitter : nat -> Q) (sleep_limit : Z)
        (py_int : string -> option Z) (p : params) (w w' : world) (j : json) :
  http_get server jitter sleep_limit py_int p w = (Ok j, w') ->
  (j = JNull /\ w_calls w' = (w_calls w + 5)%nat) \/
  (exists (i : nat) status hdr,
      (i < 5)%nat /\
      server (w_calls w + i)%nat = Response status hdr (Some j) /\ status < 400 /\
      w_calls w' = (w_calls w + S i)%nat).
Proof.
  intros H. exact (http_get_loop_return server jitter sleep_limit py_int p attempt_range w w' j H).
Qed.

Lemma http_get_returns_a_success_body_witness :
  (JObj [(RECORDS_KEY, JArr [])] = JNull /\ 2%nat = 5%nat) \/
  (exists (i : nat) status hdr,
      (i < 5)%nat /\
      server_404_then_ok (0 + i)%nat
        = Response status hdr (Some (JObj [(RECORDS_KEY, JArr [])])) /\
      status < 400 /\ 2%nat = (0 + S i)%nat).
Proof.
  exact (http_get_returns_a_success_body
           server_404_then_ok half_jitter sample_sleep_limit sample_int (Params 0 1000 None None) world0
           (World 2 1 [5 # 2] [Params 0 1000 None None; Params 0 1000 None None])
           (JObj [(RECORDS_KEY, JArr [])]) eq_refl).
Defined.


Section ServerErrors.

Variable server : nat -> attempt_outcome.
Variable jitter : nat -> Q.
Variable sleep_limit : Z.
Variable py_int : string -> option Z.

Lemma try_block_server_error (p : params) (attempt : Z) (w : world) :
  attempt < FLOAT_MAX_EXP ->
  (exists status hdr body,
      server (w_calls w) = Response status hdr body /\ 500 <= status /\ status <> 503) ->
  try_block server jitter sleep_limit py_int p attempt w =
  (TContinue, do_sleep (Qmin 60 (inject_Z (2 ^ attempt) + jitter (w_draws w)))
                       (do_draw (do_send p w))).
Proof.
  intros Ha (st & hdr & body & Hsrv & Hst & Hne). unfold try_block. rewrite Hsrv.
  destruct (Z.eqb_spec st 429); [lia|]. destruct (Z.eqb_spec st 503); [lia|].
  cbn [orb]. destruct (Z.geb_spec st 500); [|lia].
  by rewrite sleep_backoff_no_hint.
Qed.

Lemma http_get_loop_server_errors (p : params) (attempts : list Z) :
  Forall (fun a => a < FLOAT_MAX_EXP) attempts ->
  forall w : world,
  (forall i, (i < length attempts)%nat ->
     exists status hdr body,
       server (w_calls w + i)%nat = Response status hdr body /\
       500 <= status /\ status <> 503) ->
  (http_get_loop server jitter sleep_limit py_int p attempts w).1 = Ok JNull /\
  w_calls (http_get_loop server jitter sleep_limit py_int p attempts w).2
    = (w_calls w + length attempts)%nat /\
  w_slept (http_get_loop server jitter sleep_limit py_int p attempts w).2
    = w_slept w ++ backoff_sleeps jitter attempts (w_draws w).
Proof.
  induction attempts as [|a rest IH]; intros Hsmall w Hall.
  - cbn. rewrite app_nil_r. split; [done|]. split; [lia|done].
  - apply Forall_cons in Hsmall as [Ha Hsmall]. cbn [http_get_loop].
    rewrite try_block_server_error
      by (try exact Ha; rewrite <- (Nat.add_0_r (w_calls w)); apply Hall; cbn; lia).
    destruct (IH Hsmall (do_sleep (Qmin 60 (inject_Z (2 ^ a) + jitter (w_draws w)))
                           (do_draw (do_send p w)))) as (Hr & Hc & Hs).
    { intros i Hi. cbn [w_calls do_sleep do_draw do_send].
      replace (S (w_calls w) + i)%nat with (w_calls w + S i)%nat by lia.
      apply Hall. cbn. lia. }
    split; [exact Hr|]. split.
    + rewrite Hc. cbn. lia.
    + rewrite Hs. cbn [w_slept w_draws do_sleep do_draw do_send backoff_sleeps].
      by rewrite <- app_assoc.
Qed.

End ServerErrors.

(** X4: When the server answers all five attempts with a status of 500
    or more other than 503, [http_get] raises nothing: it sleeps
    [min(60, 2^attempt + jitter)] after each attempt, the fifth included,
    and returns [None]. *)
Theorem http_get_returns_none_after_five_server_errors
        (server : nat -> attempt_outcome) (jitter : nat -> Q) (sleep_limit : Z)
        (py_int : string -> option Z) (p : params) (w : world) :
  (forall i, (i < 5)%nat ->
     exists status hdr body,
       server (w_calls w + i)%nat = Response status hdr body /\
       500 <= status /\ status <> 503) ->
  (http_get server jitter sleep_limit py_int p w).1 = Ok JNull /\
  w_calls (http_get server jitter sleep_limit py_int p w).2 = (w_calls w + 5)%nat /\
  w_slept (http_get server jitter sleep_limit py_int p w).2
  = w_slept w ++
      [Qmin 60 (2 + jitter (w_draws w));
       Qmin 60 (4 + jitter (S (w_draws w)));
       Qmin 60 (8 + jitter (S (S (w_draws w))));
       Qmin 60 (16 + jitter (S (S (S (w_draws w)))));
       Qmin 60 (32 + jitter (S (S (S (S (w_draws w))))))].
Proof.
  intros Hall.
  exact (http_get_loop_server_errors server jitter sleep_limit py_int p attempt_range
           attempt_range_small w Hall).
Qed.

Lemma http_get_returns_none_after_five_server_errors_witness :
  (http_get server_500 half_jitter sample_sleep_limit sample_int (Params 0 1000 None None) world0).1
  = Ok JNull.
Proof.
  refine (proj1 (http_get_returns_none_after_five_server_errors
                   server_500 half_jitter sample_sleep_limit sample_int (Params 0 1000 None None) world0 _)).
  intros i Hi. exists 500, None, None. repeat split; [lia|discriminate].
Defined.

(** X5: Without a server hint the backoff delay never exceeds 60 seconds,
    and over the attempts 1 to 5 with a jitter in [0, 1) it is strictly
    increasing, whatever the jitters drawn. *)
Theorem backoff_is_bounded_and_increasing :
  (forall attempt j d, backoff_delay attempt None j = Ok d -> (d <= 60)%Q) /\
  (forall a b j1 j2 d1 d2,
      1 <= a -> a < b -> b <= 5 ->
      (0 <= j1)%Q -> (j1 < 1)%Q -> (0 <= j2)%Q -> (j2 < 1)%Q ->
      backoff_delay a None j1 = Ok d1 -> backoff_delay b None j2 = Ok d2 ->
      (d1 < d2)%Q).
Proof.
  split.
  - intros attempt j d H. cbn in H.
    destruct (FLOAT_MAX_EXP <=? attempt); simplify_eq. apply Q.le_min_l.
  - intros a b j1 j2 d1 d2 Ha Hab Hb Hj1 Hj1' Hj2 Hj2' H1 H2.
    cbn in H1, H2.
    destruct (Z.leb_spec FLOAT_MAX_EXP a); [unfold FLOAT_MAX_EXP in *; lia|].
    destruct (Z.leb_spec FLOAT_MAX_EXP b); [unfold FLOAT_MAX_EXP in *; lia|].
    simplify_eq.
    rewrite (small_attempt_uncapped a j1) by (auto; lia).
    rewrite (small_attempt_uncapped b j2) by (auto; lia).
    unfold spec_delay.
    assert (Hpa : (inject_Z (2 ^ a) <= 32)%Q).
    { change 32%Q with (inject_Z (2 ^ 5)). rewrite <- Zle_Qle.
      apply Z.pow_le_mono_r; lia. }
    assert (Hpb : (inject_Z (2 ^ b) <= 32)%Q).
    { change 32%Q with (inject_Z (2 ^ 5)). rewrite <- Zle_Qle.
      apply Z.pow_le_mono_r; lia. }
    assert (Hstep : (inject_Z (2 ^ a) + 1 <= inject_Z (2 ^ b))%Q).
    { change 1%Q with (inject_Z 1). rewrite <- inject_Z_plus, <- Zle_Qle.
      assert (2 ^ a < 2 ^ b) by (apply Z.pow_lt_mono_r; lia). lia. }
    rewrite !Q.min_r by lra. lra.
Qed.

Lemma backoff_is_bounded_and_increasing_witness :
  (Qmin 60 (inject_Z (2 ^ 1) + (1 # 2)) < Qmin 60 (inject_Z (2 ^ 2) + 0%Q))%Q.
Proof.
  apply (proj2 backoff_is_bounded_and_increasing 1 2 (1 # 2) 0%Q); try lia;
    try reflexivity; try (unfold Qle, Qlt; cbn; lia).
Defined.

(** ** More on the landing merger *)

Lemma merged_count_bounds (rows : list json) :
  0 <= merged_count rows <= Z.of_nat (length rows).
Proof.
  induction rows as [|obj rest IH]; cbn [merged_count length]; [lia|].
  destruct (has_hash obj); lia.
Qed.

Lemma build_payload_length (rows : list json) :
  forall payload, build_payload rows = Ok payload ->
  Z.of_nat (length payload) = merged_count rows.
Proof.
  induction rows as [|obj rest IH]; intros payload H; cbn in H.
  - by simplify_eq.
  - destruct obj as [| | | | |fields]; try discriminate.
    cbn [merged_count has_hash].
    destruct (truthy (py_get fields "hash")); cbn in H.
    + destruct (build_payload rest) as [pl|]; [|discriminate].
      simplify_eq. rewrite <- (IH pl eq_refl). cbn [length]. lia.
    + rewrite (IH payload H). lia.
Qed.

(** The payload holds exactly the records of the batch with a usable
    hash. *)
Lemma build_payload_elem (rows : list json) :
  forall payload, build_payload rows = Ok payload ->
  forall it, it ∈ payload <->
    exists fields, JObj fields ∈ rows /\ truthy (py_get fields "hash") = true /\
                   it = Payload (py_get fields "hash") (JObj fields)
                                (py_get fields "lastRefresh").
Proof.
  induction rows as [|obj rest IH]; intros payload H it; cbn in H.
  - simplify_eq. split; [by intros ?%elem_of_nil|].
    by intros (? & ?%elem_of_nil & _).
  - destruct obj as [| | | | |fields]; try discriminate.
    destruct (truthy (py_get fields "hash")) eqn:Hh; cbn in H.
    + destruct (build_payload rest) as [pl|]; [|discriminate].
      simplify_eq. rewrite elem_of_cons, (IH pl eq_refl it). split.
      * intros [-> | (f & Hf & Ht & ->)].
        -- exists fields. split; [by left|done].
        -- exists f. split; [by right|done].
      * intros (f & Hf & Ht & ->). apply elem_of_cons in Hf as [Heq | Hf].
        -- left. by simplify_eq.
        -- right. by exists f.
    + rewrite (IH payload H it). split.
      * intros (f & Hf & Ht & ->). exists f. split; [by right|done].
      * intros (f & Hf & Ht & ->). apply elem_of_cons in Hf as [Heq | Hf].
        -- simplify_eq. congruence.
        -- by exists f.
Qed.

Section MergeMore.

Variable hash_text : json -> option string.
Variable jsonb_accepts : json -> bool.
Variable timestamptz_in : string -> option datetime.

Lemma last_raw_None (payload : list payload_item) (k : string) :
  last_raw hash_text payload k = None <->
  forall it, it ∈ payload -> hash_text (pl_hash it) <> Some k.
Proof.
  induction payload as [|it rest IH]; cbn [last_raw].
  - split; [by intros _ ? ?%elem_of_nil|done].
  - destruct (last_raw hash_text rest k) as [raw|] eqn:R.
    + split; [discriminate|]. intros Hall. exfalso.
      assert (Hrest : forall it0, it0 ∈ rest -> hash_text (pl_hash it0) <> Some k)
        by (intros; apply Hall; by right).
      apply IH in Hrest. discriminate.
    + case_decide as Hd.
      * split; [discriminate|]. intros Hall. exfalso. by apply (Hall it); [left|].
      * split; [|done]. intros _ it0 [->|Hin]%elem_of_cons; [done|].
        by apply (proj1 IH eq_refl).
Qed.

Lemma last_raw_Some (payload : list payload_item) (k : string) (raw : json) :
  last_raw hash_text payload k = Some raw ->
  exists it, it ∈ payload /\ hash_text (pl_hash it) = Some k /\ pl_raw it = raw.
Proof.
  induction payload as [|it rest IH]; cbn [last_raw]; [discriminate|].
  destruct (last_raw hash_text rest k) as [raw'|].
  - intros H. simplify_eq. destruct (IH eq_refl) as (it0 & Hin & Hk & Hr).
    exists it0. split; [by right|done].
  - case_decide as Hd; [|discriminate]. intros H. simplify_eq.
    exists it. split; [by left|done].
Qed.

Lemma record_key_payload (fields : list (string * json)) :
  truthy (py_get fields "hash") = true ->
  record_key hash_text (JObj fields) = hash_text (py_get fields "hash").
Proof. intros H. cbn. by rewrite H. Qed.

(** What a merge does to the landing table, whatever its outcome. *)
Lemma merge_landing_kept (L : gmap string landing_row) (rows : list json) :
  landing_kept L (merge_landing hash_text jsonb_accepts timestamptz_in L rows).
Proof.
  assert (Hrefl : landing_kept L L) by (intros k r Hr; eauto).
  unfold merge_landing.
  destruct (build_payload rows) as [payload|e]; [|exact Hrefl].
  destruct (execute_many hash_text jsonb_accepts timestamptz_in L payload) as [L'|] eqn:E;
    [|exact Hrefl].
  intros k r Hr.
  rewrite (execute_many_lookup hash_text jsonb_accepts timestamptz_in payload L L' k E), Hr.
  destruct (last_raw hash_text payload k) as [raw|]; [|eauto].
  eexists. split; [reflexivity|]. cbn. intros [t Ht]. rewrite Ht.
  by destruct (last_ts hash_text timestamptz_in payload k).
Qed.

Lemma upsert_landing_kept (db : database) (rows : list json) :
  landing_kept (landing db)
               (landing (upsert_landing hash_text jsonb_accepts timestamptz_in db rows).2).
Proof. rewrite upsert_landing_landing. apply merge_landing_kept. Qed.

End MergeMore.

(** X6: When [upsert_landing] returns a count, the count is the number of
    records of the batch that carry a usable hash; it lies between 0 and
    the length of the batch. *)
Theorem upsert_landing_counts_hashed_records
        (hash_text : json -> option string) (jsonb_accepts : json -> bool)
        (timestamptz_in : string -> option datetime)
        (db db' : database) (rows : list json) (n : Z) :
  upsert_landing hash_text jsonb_accepts timestamptz_in db rows = (Ok n, db') ->
  n = merged_count rows /\ 0 <= n <= Z.of_nat (length rows).
Proof.
  intros H. assert (Hn : n = merged_count rows).
  { unfold upsert_landing in H. destruct rows as [|obj rest]; [by simplify_eq|].
    destruct (build_payload (obj :: rest)) as [[|it payload]|e] eqn:B;
      [| |discriminate].
    - simplify_eq. by rewrite <- (build_payload_length _ _ B).
    - destruct (execute_many hash_text jsonb_accepts timestamptz_in (landing db) (it :: payload));
        [|discriminate].
      simplify_eq. by rewrite <- (build_payload_length _ _ B). }
  split; [exact Hn|]. rewrite Hn. apply merged_count_bounds.
Qed.

Lemma upsert_landing_counts_hashed_records_witness :
  1 = merged_count [record_old; record_no_hash] /\ 0 <= 1 <= Z.of_nat 2.
Proof.
  apply (upsert_landing_counts_hashed_records
           sample_hash_text sample_jsonb_accepts sample_timestamptz_in db_with_new
           (upsert_landing sample_hash_text sample_jsonb_accepts sample_timestamptz_in db_with_new
                           [record_old; record_no_hash]).2
           [record_old; record_no_hash] 1).
  vm_compute. reflexivity.
Defined.

(** X7: [upsert_landing] leaves alone every landing row whose hash is
    not the hash of a record of the batch, and never changes the flat
    table. *)
Theorem upsert_landing_touches_only_batch_keys
        (hash_text : json -> option string) (jsonb_accepts : json -> bool)
        (timestamptz_in : string -> option datetime)
        (db : database) (rows : list json) (k : string) :
  (forall obj, obj ∈ rows -> record_key hash_text obj <> Some k) ->
  landing (upsert_landing hash_text jsonb_accepts timestamptz_in db rows).2 !! k = landing db !! k /\
  flat (upsert_landing hash_text jsonb_accepts timestamptz_in db rows).2 = flat db.
Proof.
  intros Hk. split; [|apply upsert_landing_flat].
  rewrite upsert_landing_landing. unfold merge_landing.
  destruct (build_payload rows) as [payload|e] eqn:B; [|reflexivity].
  destruct (execute_many hash_text jsonb_accepts timestamptz_in (landing db) payload) as [L'|] eqn:E;
    [|reflexivity].
  rewrite (execute_many_lookup hash_text jsonb_accepts timestamptz_in payload _ L' k E).
  assert (Hnone : last_raw hash_text payload k = None).
  { apply last_raw_None. intros it Hit.
    apply (build_payload_elem rows payload B) in Hit as (fields & Hin & Ht & ->).
    cbn. rewrite <- (record_key_payload hash_text fields Ht). by apply Hk. }
  by rewrite Hnone.
Qed.

Lemma upsert_landing_touches_only_batch_keys_witness :
  landing (upsert_landing sample_hash_text sample_jsonb_accepts sample_timestamptz_in db_with_new
                          [record_fraction]).2 !! "h1"
  = landing db_with_new !! "h1".
Proof.
  refine (proj1 (upsert_landing_touches_only_batch_keys
                   sample_hash_text sample_jsonb_accepts sample_timestamptz_in db_with_new
                   [record_fraction] "h1" _)).
  intros obj Hobj. apply list_elem_of_singleton in Hobj as ->. vm_compute. discriminate.
Defined.

(** X8: After a merge that succeeds, every record of the batch with a
    usable hash has a landing row under its hash, and the document of that
    row is a record of the batch with that hash. *)
Theorem upsert_landing_stores_batch_records
        (hash_text : json -> option string) (jsonb_accepts : json -> bool)
        (timestamptz_in : string -> option datetime)
        (db db' : database) (rows : list json) (n : Z) (obj : json) (k : string) :
  upsert_landing hash_text jsonb_accepts timestamptz_in db rows = (Ok n, db') ->
  obj ∈ rows -> record_key hash_text obj = Some k ->
  exists r, landing db' !! k = Some r /\
            l_raw r ∈ rows /\ record_key hash_text (l_raw r) = Some k.
Proof.
  intros H Hobj Hkey.
  assert (HL : landing db' = merge_landing hash_text jsonb_accepts timestamptz_in (landing db) rows).
  { rewrite <- upsert_landing_landing. by rewrite H. }
  assert (Hok : exists payload L',
             build_payload rows = Ok payload /\
             execute_many hash_text jsonb_accepts timestamptz_in (landing db) payload = Some L' /\
             landing db' = L').
  { unfold upsert_landing in H. destruct rows as [|o rest]; [by apply elem_of_nil in Hobj|].
    unfold merge_landing in HL.
    destruct (build_payload (o :: rest)) as [payload|e] eqn:B.
    - destruct (execute_many hash_text jsonb_accepts timestamptz_in (landing db) payload) as [L'|] eqn:E.
      + by exists payload, L'.
      + destruct payload; discriminate.
    - discriminate. }
  destruct Hok as (payload & L' & B & E & ->).
  rewrite (execute_many_lookup hash_text jsonb_accepts timestamptz_in payload _ L' k E).
  destruct obj as [| | | | |fields]; try discriminate.
  cbn in Hkey. destruct (truthy (py_get fields "hash")) eqn:Ht; [|discriminate].
  destruct (last_raw hash_text payload k) as [raw|] eqn:R.
  - eexists. split; [reflexivity|]. cbn.
    apply last_raw_Some in R as (it & Hit & Hk & <-).
    apply (build_payload_elem rows payload B) in Hit as (f & Hin & Hf & ->).
    cbn in *. split; [exact Hin|]. by rewrite Hf.
  - exfalso. apply (proj1 (last_raw_None hash_text payload k) R
                      (Payload (py_get fields "hash") (JObj fields)
                               (py_get fields "lastRefresh"))).
    + apply (build_payload_elem rows payload B). by exists fields.
    + exact Hkey.
Qed.

Lemma upsert_landing_stores_batch_records_witness :
  exists r,
    landing (upsert_landing sample_hash_text sample_jsonb_accepts sample_timestamptz_in db_with_new
                            [record_old; record_fraction]).2 !! "h2" = Some r /\
    l_raw r ∈ [record_old; record_fraction] /\
    record_key sample_hash_text (l_raw r) = Some "h2".
Proof.
  apply (upsert_landing_stores_batch_records
           sample_hash_text sample_jsonb_accepts sample_timestamptz_in db_with_new
           (upsert_landing sample_hash_text sample_jsonb_accepts sample_timestamptz_in db_with_new
                           [record_old; record_fraction]).2
           [record_old; record_fraction] 2 record_fraction "h2").
  - vm_compute. reflexivity.
  - right. left.
  - reflexivity.
Defined.

(** X9: Whatever its outcome, [upsert_landing] deletes no landing row and
    never turns a known [lastrefresh] into a null one. *)
Theorem upsert_landing_keeps_rows_and_timestamps
        (hash_text : json -> option string) (jsonb_accepts : json -> bool)
        (timestamptz_in : string -> option datetime)
        (db : database) (rows : list json) :
  landing_kept (landing db)
               (landing (upsert_landing hash_text jsonb_accepts timestamptz_in db rows).2).
Proof. apply upsert_landing_kept. Qed.

(** ** More on the flat projector *)


Lemma where_clause_same_timestamp (l : landing_row) (f : flat_row) :
  f_lastrefresh f = l_lastrefresh l -> sql_holds (where_clause l (Some f)) = false.
Proof.
  intros Heq. destruct (sql_holds (where_clause l (Some f))) eqn:H; [|reflexivity].
  apply where_clause_holds in H as [H | (fr & a & b & Hf & Ha & Hb & Hlt)]; [discriminate|].
  simplify_eq. rewrite Heq, Ha in Hb. simplify_eq. lia.
Qed.

Section ProjectorMore.

Variable timestamptz_in : string -> option datetime.
Variable scalar_in : sqltype -> string -> option string.
Variable jsonb_text : json -> string.

Lemma selected_after_sync (db db' : database) (n : Z) :
  sync_flat_from_landing timestamptz_in scalar_in jsonb_text db = (Ok n, db') ->
  selected db' = ∅.
Proof.
  intros H. apply map_empty. intros k.
  destruct (selected db' !! k) as [l|] eqn:Hsel; [|reflexivity]. exfalso.
  apply selected_lookup in Hsel as [Hl Hw].
  destruct (sync_flat_lookup timestamptz_in scalar_in jsonb_text db db' n k H)
    as [HL HF].
  rewrite HL in Hl. rewrite HF in Hw.
  destruct (selected db !! k) as [l0|] eqn:Hsel0.
  - pose proof (proj1 (selected_lookup db k l0) Hsel0) as [Hl0 _].
    assert (l0 = l) as -> by congruence.
    destruct (project_row timestamptz_in scalar_in jsonb_text l) as [f|] eqn:Hp.
    + apply project_row_fields in Hp as [_ Hlr].
      by rewrite (where_clause_same_timestamp l f Hlr) in Hw.
    + unfold sync_flat_from_landing in H. case_bool_decide as Hall; [|discriminate].
      destruct (Hall k l Hsel0) as [f Hf]. congruence.
  - assert (Hsel1 : selected db !! k = Some l) by (by apply selected_lookup).
    congruence.
Qed.

Lemma sync_flat_kept (db : database) :
  flat_kept (flat db)
            (flat (sync_flat_from_landing timestamptz_in scalar_in jsonb_text db).2).
Proof.
  assert (Hrefl : flat_kept (flat db) (flat db)).
  { intros k f Hf. exists f. split; [done|]. intros b Hb. exists b. split; [done|lia]. }
  destruct (sync_flat_from_landing timestamptz_in scalar_in jsonb_text db)
    as [[n|e] db'] eqn:H.
  - intros k f Hf.
    destruct (sync_flat_lookup timestamptz_in scalar_in jsonb_text db db' n k H)
      as [_ HF]. cbn. rewrite HF.
    destruct (selected db !! k) as [l|] eqn:Hsel; [|by apply Hrefl].
    apply selected_lookup in Hsel as Hsel'. destruct Hsel' as [Hl Hw].
    apply where_clause_holds in Hw as [Hw | (fr & a & b & Hfr & Ha & Hb & Hlt)];
      [congruence|].
    assert (fr = f) as -> by congruence.
    unfold sync_flat_from_landing in H. case_bool_decide as Hall; [|discriminate].
    destruct (Hall k l Hsel) as [f' Hf']. rewrite Hf'.
    exists f'. split; [done|]. intros b0 Hb0.
    apply project_row_fields in Hf' as [_ Hlr].
    exists a. split; [congruence|]. assert (b0 = b) as -> by congruence. lia.
  - unfold sync_flat_from_landing in H. case_bool_decide; simplify_eq. cbn. exact Hrefl.
Qed.

Lemma sync_flat_in_landing (db : database) :
  flat_in_landing db ->
  flat_in_landing (sync_flat_from_landing timestamptz_in scalar_in jsonb_text db).2.
Proof.
  intros Hinv k. rewrite sync_flat_landing.
  unfold sync_flat_from_landing. case_bool_decide as Hall; cbn; [|apply Hinv].
  rewrite lookup_union, lookup_omap. intros [f Hf].
  destruct (selected db !! k) as [l|] eqn:Hsel.
  - apply selected_lookup in Hsel as [Hl _]. eauto.
  - cbn in Hf. apply Hinv. rewrite (left_id_L None _) in Hf. eauto.
Qed.

Lemma project_col_blank (fields : list (string * json)) (key : string) (ty : sqltype) :
  blank_field fields key = true ->
  project_col timestamptz_in scalar_in jsonb_text (JObj fields) key ty = Some None.
Proof.
  unfold blank_field, project_col, json_field_text.
  destruct (dict_get fields key) as [[| | |s| |]|]; try done.
  intros Hs. cbn. by rewrite Hs.
Qed.

Lemma mapM_all_none {A} (f : A -> option (option sqlval)) (l : list A) :
  (forall x, x ∈ l -> f x = Some None) -> mapM f l = Some (replicate (length l) None).
Proof.
  induction l as [|x l IH]; intros H; [reflexivity|].
  cbn. rewrite (H x) by (by left). cbn. rewrite IH by (intros; apply H; by right).
  reflexivity.
Qed.

End ProjectorMore.

(** X10: After a projector run that succeeds, a second run right away
    selects no row: it reports 0 rows and leaves both tables as they are. *)
Theorem projector_second_run_changes_nothing
        (timestamptz_in : string -> option datetime)
        (scalar_in : sqltype -> string -> option string)
        (jsonb_text : json -> string)
        (db db' : database) (n : Z) :
  sync_flat_from_landing timestamptz_in scalar_in jsonb_text db = (Ok n, db') ->
  sync_flat_from_landing timestamptz_in scalar_in jsonb_text db'
  = (Ok 0, Database (landing db') (flat db') (S (writes db'))).
Proof.
  intros H. unfold sync_flat_from_landing.
  rewrite (selected_after_sync timestamptz_in scalar_in jsonb_text db db' n H).
  rewrite bool_decide_eq_true_2 by apply map_Forall_empty.
  rewrite omap_empty, (left_id_L ∅ (∪)), map_size_empty. reflexivity.
Qed.

Lemma projector_second_run_changes_nothing_witness :
  (sync_flat_from_landing sample_timestamptz_in sample_scalar_in sample_jsonb_text
     (sync_flat_from_landing sample_timestamptz_in sample_scalar_in sample_jsonb_text
                             db_2024).2).1
  = Ok 0.
Proof.
  rewrite (projector_second_run_changes_nothing
             sample_timestamptz_in sample_scalar_in sample_jsonb_text db_2024
             (sync_flat_from_landing sample_timestamptz_in sample_scalar_in
                                     sample_jsonb_text db_2024).2 2).
  - reflexivity.
  - vm_compute. reflexivity.
Defined.

(** X11: Whatever its outcome, [sync_flat_from_landing] deletes no flat
    row, never moves a flat row's non-null [lastrefresh] back to an
    earlier instant, and does not change the landing table. *)
Theorem projector_keeps_rows_and_never_rewinds
        (timestamptz_in : string -> option datetime)
        (scalar_in : sqltype -> string -> option string)
        (jsonb_text : json -> string) (db : database) :
  flat_kept (flat db)
            (flat (sync_flat_from_landing timestamptz_in scalar_in jsonb_text db).2) /\
  landing (sync_flat_from_landing timestamptz_in scalar_in jsonb_text db).2 = landing db.
Proof. split; [apply sync_flat_kept|apply sync_flat_landing]. Qed.

(** X12: When every flat row has a landing row, a projector run that
    succeeds leaves the two tables with the same hashes. *)
Theorem projector_completes_flat
        (timestamptz_in : string -> option datetime)
        (scalar_in : sqltype -> string -> option string)
        (jsonb_text : json -> string)
        (db db' : database) (n : Z) :
  sync_flat_from_landing timestamptz_in scalar_in jsonb_text db = (Ok n, db') ->
  flat_in_landing db ->
  forall k, is_Some (flat db' !! k) <-> is_Some (landing db' !! k).
Proof.
  intros H Hinv k. split.
  - pose proof (sync_flat_in_landing timestamptz_in scalar_in jsonb_text db Hinv k) as Hk.
    rewrite H in Hk. exact Hk.
  - destruct (sync_flat_lookup timestamptz_in scalar_in jsonb_text db db' n k H)
      as [HL HF]. rewrite HL, HF. intros [l Hl].
    destruct (selected db !! k) as [l0|] eqn:Hsel.
    + unfold sync_flat_from_landing in H. case_bool_decide as Hall; [|discriminate].
      exact (Hall k l0 Hsel).
    + destruct (flat db !! k) as [f|] eqn:Hf; [eauto|]. exfalso.
      assert (selected db !! k = Some l); [|congruence].
      apply selected_lookup. split; [done|]. apply where_clause_holds. by left.
Qed.

Lemma projector_completes_flat_witness :
  is_Some (flat (sync_flat_from_landing sample_timestamptz_in sample_scalar_in
                                        sample_jsonb_text db_2024).2 !! "h3") <->
  is_Some (landing (sync_flat_from_landing sample_timestamptz_in sample_scalar_in
                                           sample_jsonb_text db_2024).2 !! "h3").
Proof.
  apply (projector_completes_flat
           sample_timestamptz_in sample_scalar_in sample_jsonb_text db_2024
           (sync_flat_from_landing sample_timestamptz_in sample_scalar_in
                                   sample_jsonb_text db_2024).2 2).
  - vm_compute. reflexivity.
  - intros k [f Hf]. vm_compute in Hf. discriminate.
Defined.

(** X13: A landing document in which every typed field is missing, null or
    the empty string always projects, whatever the casts do: the flat row
    has 23 null columns, the landing timestamp and the document itself. *)
Theorem blank_fields_project_to_null
        (timestamptz_in : string -> option datetime)
        (scalar_in : sqltype -> string -> option string)
        (jsonb_text : json -> string)
        (fields : list (string * json)) (lr : option datetime) :
  (forall c, c ∈ flat_columns -> blank_field fields (snd (fst c)) = true) ->
  project_row timestamptz_in scalar_in jsonb_text (LandingRow (JObj fields) lr)
  = Some (FlatRow lr (replicate 23 None) (JObj fields)).
Proof.
  intros Hblank. unfold project_row. cbn [l_raw l_lastrefresh].
  rewrite (mapM_all_none _ flat_columns).
  - reflexivity.
  - intros c Hc. apply project_col_blank. by apply Hblank.
Qed.

Lemma blank_fields_project_to_null_witness :
  project_row sample_timestamptz_in sample_scalar_in sample_jsonb_text
              (LandingRow (JObj [("hash", JStr "h1"); ("county", JStr "")]) None)
  = Some (FlatRow None (replicate 23 None)
                  (JObj [("hash", JStr "h1"); ("county", JStr "")])).
Proof.
  apply (blank_fields_project_to_null
           sample_timestamptz_in sample_scalar_in sample_jsonb_text
           [("hash", JStr "h1"); ("county", JStr "")] None).
  intros c Hc. unfold flat_columns in Hc.
  repeat (apply elem_of_cons in Hc as [-> | Hc]; [reflexivity|]).
  by apply elem_of_nil in Hc.
Defined.

(** ** Consistency of the two stores *)

Section ConsistencyFacts.

Variable hash_text : json -> option string.
Variable jsonb_accepts : json -> bool.
Variable timestamptz_in : string -> option datetime.
Variable scalar_in : sqltype -> string -> option string.
Variable jsonb_text : json -> string.

Lemma upsert_landing_in_landing (db : database) (rows : list json) :
  flat_in_landing db ->
  flat_in_landing (upsert_landing hash_text jsonb_accepts timestamptz_in db rows).2.
Proof.
  intros Hinv k. rewrite upsert_landing_flat. intros Hf.
  destruct (Hinv k Hf) as [r Hr].
  destruct (upsert_landing_kept hash_text jsonb_accepts timestamptz_in db rows k r Hr)
    as (r' & Hr' & _).
  eauto.
Qed.

Lemma run_op_in_landing (db : database) (op : db_op) :
  flat_in_landing db ->
  flat_in_landing (run_op hash_text jsonb_accepts timestamptz_in scalar_in jsonb_text db op).
Proof.
  intros Hinv. destruct op as [rows| |]; cbn [run_op].
  - by apply upsert_landing_in_landing.
  - by apply sync_flat_in_landing.
  - intros k. cbn. rewrite lookup_empty. by intros [? ?].
Qed.

Lemma run_ops_in_landing (ops : list db_op) (db : database) :
  flat_in_landing db ->
  flat_in_landing (run_ops hash_text jsonb_accepts timestamptz_in scalar_in jsonb_text ops db).
Proof.
  revert db. induction ops as [|op ops IH]; intros db Hinv; [exact Hinv|].
  cbn. apply IH. by apply run_op_in_landing.
Qed.

End ConsistencyFacts.

Lemma empty_db_in_landing : flat_in_landing empty_db.
Proof. intros k. cbn. rewrite lookup_empty. by intros [? ?]. Qed.

(** X15: After any sequence of merges, projector runs and resets from the
    empty stores, every flat row has a landing row with the same hash. *)
Theorem flat_rows_have_landing_rows
        (hash_text : json -> option string) (jsonb_accepts : json -> bool)
        (timestamptz_in : string -> option datetime)
        (scalar_in : sqltype -> string -> option string)
        (jsonb_text : json -> string) (ops : list db_op) (k : string) :
  is_Some (flat (run_ops hash_text jsonb_accepts timestamptz_in scalar_in jsonb_text ops empty_db) !! k) ->
  is_Some (landing (run_ops hash_text jsonb_accepts timestamptz_in scalar_in jsonb_text ops empty_db) !! k).
Proof. apply run_ops_in_landing, empty_db_in_landing. Qed.

Lemma flat_rows_have_landing_rows_witness :
  is_Some (landing (run_ops sample_hash_text sample_jsonb_accepts sample_timestamptz_in sample_scalar_in
                            sample_jsonb_text [OpMerge [record_old]; OpProject] empty_db)
             !! "h1").
Proof.
  apply (flat_rows_have_landing_rows sample_hash_text sample_jsonb_accepts sample_timestamptz_in
           sample_scalar_in sample_jsonb_text [OpMerge [record_old]; OpProject] "h1").
  eexists. vm_compute. reflexivity.
Defined.

(** ** More on the watermark *)

Lemma sql_max_None (a b : option datetime) :
  sql_max a b = None <-> a = None /\ b = None.
Proof.
  destruct a as [x|], b as [y|]; cbn; try destruct (ts_ltb x y);
    (split; [discriminate || (by intros _)|by intros [? ?]]).
Qed.

Lemma sql_max_Some (a b : option datetime) (d : datetime) :
  sql_max a b = Some d ->
  (a = Some d \/ b = Some d) /\
  (forall t, a = Some t \/ b = Some t -> instant_us t <= instant_us d).
Proof.
  destruct a as [x|], b as [y|]; cbn; unfold ts_ltb.
  - destruct (Z.ltb_spec (instant_us x) (instant_us y)); intros; simplify_eq;
      (split; [auto|]); intros t [?|?]; simplify_eq; lia.
  - intros; simplify_eq. split; [auto|]. intros t [?|?]; simplify_eq; lia.
  - intros; simplify_eq. split; [auto|]. intros t [?|?]; simplify_eq; lia.
  - discriminate.
Qed.

(** X16: [db_watermark] is null exactly when every landing row has a null
    [lastrefresh]; otherwise it is the [lastrefresh] of some landing row
    and no landing row has a later one. *)
Theorem db_watermark_is_the_latest_timestamp (db : database) :
  (db_watermark db = None <->
   forall k r, landing db !! k = Some r -> l_lastrefresh r = None) /\
  (forall d, db_watermark db = Some d ->
     (exists k r, landing db !! k = Some r /\ l_lastrefresh r = Some d) /\
     (forall k r t, landing db !! k = Some r -> l_lastrefresh r = Some t ->
                    instant_us t <= instant_us d)).
Proof.
  unfold db_watermark.
  apply (map_fold_weak_ind
           (fun acc (m : gmap string landing_row) =>
              (acc = None <-> forall k r, m !! k = Some r -> l_lastrefresh r = None) /\
              (forall d, acc = Some d ->
                 (exists k r, m !! k = Some r /\ l_lastrefresh r = Some d) /\
                 (forall k r t, m !! k = Some r -> l_lastrefresh r = Some t ->
                                instant_us t <= instant_us d)))).
  - split; [split; [by intros _ k r ?%lookup_empty_Some|done]|discriminate].
  - intros i x m acc Hi [Hnone Hsome]. split.
    + rewrite sql_max_None, Hnone. split.
      * intros [Hm Hx] k r. destruct (decide (i = k)) as [->|Hne].
        -- rewrite lookup_insert_eq. by intros; simplify_eq.
        -- rewrite lookup_insert_ne by done. apply Hm.
      * intros H. split.
        -- intros k r Hr. apply (H k). rewrite lookup_insert_ne; [done|].
           intros ->. congruence.
        -- apply (H i). apply lookup_insert_eq.
    + intros d Hd. apply sql_max_Some in Hd as [Hor Hmax]. split.
      * destruct Hor as [Hacc | Hx].
        -- destruct (Hsome d Hacc) as [(k & r & Hr & Hlr) _].
           exists k, r. split; [|done]. rewrite lookup_insert_ne; [done|].
           intros ->. congruence.
        -- exists i, x. split; [apply lookup_insert_eq|done].
      * intros k r t. destruct (decide (i = k)) as [->|Hne].
        -- rewrite lookup_insert_eq. intros ? Ht; simplify_eq. apply Hmax. by right.
        -- rewrite lookup_insert_ne by done. intros Hr Ht.
           destruct acc as [a|].
           ++ pose proof (proj2 (Hsome a eq_refl) k r t Hr Ht).
              pose proof (Hmax a (or_introl eq_refl)). lia.
           ++ pose proof (proj1 Hnone eq_refl k r Hr). congruence.
Qed.

Lemma db_watermark_is_the_latest_timestamp_witness :
  exists k r, landing db_2024 !! k = Some r /\
              l_lastrefresh r = Some (DateTime 2024 6 1 0 0 0 0 0).
Proof.
  apply (proj2 (db_watermark_is_the_latest_timestamp db_2024)
               (DateTime 2024 6 1 0 0 0 0 0)).
  vm_compute. reflexivity.
Defined.

(** X17: For UTC timestamps with no fraction of a second, the quoted ISO
    string built in [run_cycle] and [today_midnight_iso_quoted] is 22
    characters long and determines the timestamp: two such timestamps
    with the same string are equal. *)
Theorem iso_quoted_determines_the_timestamp (a b : datetime) :
  whole_second_utc a = true -> whole_second_utc b = true ->
  String.length (iso_quoted a) = 22%nat /\
  (iso_quoted a = iso_quoted b -> a = b).
Proof.
  intros Ha Hb. split.
  - unfold whole_second_utc in Ha.
    apply andb_true_iff in Ha as [Ha Hoa]. apply andb_true_iff in Ha as [Ha Hua].
    apply Z.eqb_eq in Hoa, Hua.
    rewrite iso_quoted_utc by assumption.
    rewrite !str_length_app, iso_seconds_length. reflexivity.
  - intros Heq. pose proof (compare_iso_quoted a b Ha Hb) as Hc.
    rewrite Heq, str_compare_refl in Hc. symmetry in Hc.
    apply civil_compare_Eq in Hc as (Hy & Hm & Hd & Hh & Hmi & Hs).
    unfold whole_second_utc in Ha, Hb.
    apply andb_true_iff in Ha as [Ha Hoa]. apply andb_true_iff in Ha as [_ Hua].
    apply andb_true_iff in Hb as [Hb Hob]. apply andb_true_iff in Hb as [_ Hub].
    apply Z.eqb_eq in Hoa, Hua, Hob, Hub.
    destruct a, b. cbn in *. congruence.
Qed.

Lemma iso_quoted_determines_the_timestamp_witness :
  String.length (iso_quoted (DateTime 2024 6 1 0 0 0 0 0)) = 22%nat.
Proof.
  apply (iso_quoted_determines_the_timestamp
           (DateTime 2024 6 1 0 0 0 0 0) (DateTime 2024 1 1 0 0 0 0 0));
    reflexivity.
Defined.

(** X18: With a UTC clock, [today_midnight_iso_quoted] is the quoted date
    of the day followed by [T00:00:00Z]. *)
Theorem today_midnight_iso_quoted_shape (now : datetime) :
  utcoffset now = 0 ->
  today_midnight_iso_quoted now =
  "'" +:+ pad 4 (year now) +:+ "-" +:+ pad 2 (month now) +:+ "-" +:+ pad 2 (day now)
      +:+ "T00:00:00Z'".
Proof.
  intros Hoff. unfold today_midnight_iso_quoted.
  rewrite iso_quoted_utc by (cbn; done).
  unfold iso_seconds, today_midnight. cbn [year month day hour minute second].
  rewrite !str_app_assoc. reflexivity.
Qed.

Lemma today_midnight_iso_quoted_shape_witness :
  today_midnight_iso_quoted noon_2025_03_10 = "'2025-03-10T00:00:00Z'".
Proof.
  rewrite (today_midnight_iso_quoted_shape noon_2025_03_10) by reflexivity.
  reflexivity.
Defined.

(** ** More on the paged fetch *)

Lemma landing_kept_refl (L : gmap string landing_row) : landing_kept L L.
Proof. intros k r Hr. eauto. Qed.

Lemma landing_kept_trans (L1 L2 L3 : gmap string landing_row) :
  landing_kept L1 L2 -> landing_kept L2 L3 -> landing_kept L1 L3.
Proof.
  intros H12 H23 k r Hr.
  destruct (H12 k r Hr) as (r2 & Hr2 & Ht2).
  destruct (H23 k r2 Hr2) as (r3 & Hr3 & Ht3).
  exists r3. split; [done|]. auto.
Qed.

Lemma page_offset_shift (page : nat -> list json) (i : nat) :
  page_offset page (S i)
  = Z.of_nat (length (page 0%nat)) + page_offset (fun j => page (S j)) i.
Proof.
  induction i as [|i IH]; [cbn; lia|].
  cbn [page_offset] in *. rewrite IH. lia.
Qed.

Lemma merged_before_shift (page : nat -> list json) (i : nat) :
  merged_before page (S i)
  = merged_count (page 0%nat) + merged_before (fun j => page (S j)) i.
Proof.
  induction i as [|i IH]; [cbn; lia|].
  cbn [merged_before] in *. rewrite IH. lia.
Qed.

Section FetchMore.

Variable server : nat -> attempt_outcome.
Variable jitter : nat -> Q.
Variable sleep_limit : Z.
Variable py_int : string -> option Z.
Variable hash_text : json -> option string.
Variable jsonb_accepts : json -> bool.
Variable timestamptz_in : string -> option datetime.
Variable BATCH_SIZE : Z.

Lemma merge_pages_shift (page : nat -> list json) (n : nat) (L : gmap string landing_row) :
  merge_pages hash_text jsonb_accepts timestamptz_in page (S n) L
  = merge_pages hash_text jsonb_accepts timestamptz_in (fun j => page (S j)) n
                (merge_landing hash_text jsonb_accepts timestamptz_in L (page 0%nat)).
Proof.
  induction n as [|n IH]; [reflexivity|].
  change (merge_pages hash_text jsonb_accepts timestamptz_in page (S (S n)) L)
    with (merge_landing hash_text jsonb_accepts timestamptz_in
            (merge_pages hash_text jsonb_accepts timestamptz_in page (S n) L) (page (S n))).
  rewrite IH. reflexivity.
Qed.

(** A page served with a success status is returned by the first
    attempt, without a sleep. *)
Lemma http_get_served (p : params) (w : world) (rows : list json) :
  serves server (w_calls w) rows ->
  exists fields, dict_get fields RECORDS_KEY = Some (JArr rows) /\
                 http_get server jitter sleep_limit py_int p w = (Ok (JObj fields), do_send p w).
Proof.
  intros (st & hdr & fields & Hsrv & Hst & Hget). exists fields. split; [done|].
  unfold http_get, attempt_range. cbn [http_get_loop]. unfold try_block. rewrite Hsrv.
  destruct (Z.eqb_spec st 429); [lia|]. destruct (Z.eqb_spec st 503); [lia|]. cbn.
  destruct (Z.geb_spec st 500); [lia|].
  destruct (Z.leb_spec 400 st); [lia|]. reflexivity.
Qed.

(** A batch the database accepts is merged whatever the table holds. *)
Lemma upsert_landing_mergeable (db : database) (rows : list json) :
  rows <> [] -> mergeable hash_text jsonb_accepts timestamptz_in rows ->
  exists db', upsert_landing hash_text jsonb_accepts timestamptz_in db rows
              = (Ok (merged_count rows), db') /\
              landing db' = merge_landing hash_text jsonb_accepts timestamptz_in (landing db) rows /\
              flat db' = flat db.
Proof.
  intros Hne (payload & B & E).
  destruct (execute_many_total hash_text jsonb_accepts timestamptz_in payload ∅ (landing db) E)
    as [L' E'].
  pose proof (upsert_landing_landing hash_text jsonb_accepts timestamptz_in db rows) as HL.
  pose proof (upsert_landing_flat hash_text jsonb_accepts timestamptz_in db rows) as HF.
  pose proof (build_payload_length rows payload B) as Hlen.
  unfold upsert_landing in *. destruct rows as [|obj rest]; [done|].
  rewrite B in *. destruct payload as [|it payload].
  - eexists. split; [by rewrite <- Hlen|]. done.
  - rewrite E' in *. eexists. split; [by rewrite <- Hlen|]. done.
Qed.

Lemma page_loop_pages (mk : Z -> params) (page : nat -> list json) (k : nat) :
  forall (fuel : nat) (total skip : Z) (w : world) (db : database),
  (k < fuel)%nat ->
  (forall i, (i <= k)%nat -> serves server (w_calls w + i)%nat (page i)) ->
  (forall i, (i < k)%nat ->
     page i <> [] /\ Z.min BATCH_SIZE MAX_TOP <= Z.of_nat (length (page i))) ->
  (page k = [] \/ Z.of_nat (length (page k)) < Z.min BATCH_SIZE MAX_TOP) ->
  (forall i, (i <= k)%nat -> mergeable hash_text jsonb_accepts timestamptz_in (page i)) ->
  exists w' db',
    page_loop server jitter sleep_limit py_int hash_text jsonb_accepts timestamptz_in BATCH_SIZE
              mk fuel total skip w db
    = (Some (Ok (total + merged_before page (S k))), w', db') /\
    w_calls w' = (w_calls w + S k)%nat /\
    w_sent w' = w_sent w ++ map (fun i => mk (skip + page_offset page i)) (seq 0 (S k)) /\
    w_slept w' = w_slept w /\
    landing db' = merge_pages hash_text jsonb_accepts timestamptz_in page (S k) (landing db) /\
    flat db' = flat db.
Proof.
  revert page. induction k as [|k IH]; intros page fuel total skip w db Hfuel Hsrv Hfull
    Hstop Hmerge;
    (destruct fuel as [|fuel]; [lia|]); cbn [page_loop];
    (destruct (http_get_served (mk skip) w (page 0%nat)) as (fields & Hget & ->);
     [rewrite <- (Nat.add_0_r (w_calls w)); apply Hsrv; lia|]);
    rewrite Hget.
  - (* the last page *)
    destruct (page 0%nat) as [|obj rest] eqn:Hp0.
    + cbn [truthy negb]. exists (do_send (mk skip) w), db.
      cbn [merged_before merge_pages seq map page_offset]. rewrite Hp0.
      cbn [merged_count length]. rewrite !Z.add_0_r.
      repeat split; try done; cbn; lia.
    + cbn [truthy negb].
      destruct (upsert_landing_mergeable db (obj :: rest)) as (db' & Hup & HL & HF);
        [done|rewrite <- Hp0; apply Hmerge; lia|].
      rewrite Hup.
      destruct Hstop as [Hstop|Hstop]; [congruence|]. try rewrite Hp0 in Hstop.
      rewrite (proj2 (Z.ltb_lt _ _) Hstop).
      exists (do_send (mk skip) w), db'.
      cbn [merged_before merge_pages seq map page_offset]. rewrite Hp0, !Z.add_0_r.
      repeat split; try done; cbn; lia.
  - (* a full page, then the rest *)
    destruct (Hfull 0%nat ltac:(lia)) as [Hne Hlen].
    destruct (page 0%nat) as [|obj rest] eqn:Hp0; [done|].
    cbn [truthy negb].
    destruct (upsert_landing_mergeable db (obj :: rest)) as (db1 & Hup & HL & HF);
      [done|rewrite <- Hp0; apply Hmerge; lia|].
    rewrite Hup. rewrite (proj2 (Z.ltb_ge _ _) Hlen).
    destruct (IH (fun j => page (S j)) fuel (total + merged_count (obj :: rest))
                 (skip + Z.of_nat (length (obj :: rest))) (do_send (mk skip) w) db1)
      as (w' & db' & Hloop & Hcalls & Hsent & Hslept & HL' & HF').
    + lia.
    + intros i Hi. cbn [w_calls do_send].
      replace (S (w_calls w) + i)%nat with (w_calls w + S i)%nat by lia.
      apply Hsrv. lia.
    + intros i Hi. apply Hfull. lia.
    + exact Hstop.
    + intros i Hi. apply Hmerge. lia.
    + exists w', db'. rewrite Hloop.
      rewrite (merged_before_shift page (S k)), Hp0.
      split; [by rewrite Z.add_assoc|].
      split; [rewrite Hcalls; cbn; lia|].
      split.
      { rewrite Hsent. cbn [w_sent do_send]. rewrite <- app_assoc. f_equal.
        change (seq 0 (S (S k))) with (0%nat :: seq 1 (S k)).
        rewrite <- (fmap_S_seq 0 (S k)). cbn [map page_offset].
        rewrite Z.add_0_r. f_equal.
        change (map (fun i => mk (skip + page_offset page i)) (S <$> seq 0 (S k)))
          with ((fun i => mk (skip + page_offset page i)) <$> (S <$> seq 0 (S k))).
        rewrite <- list_fmap_compose.
        apply list_fmap_ext. intros _ i _. unfold compose.
        rewrite (page_offset_shift page i), Hp0. f_equal. lia. }
      split; [by rewrite Hslept|].
      split; [|congruence].
      rewrite HL', (merge_pages_shift page (S k)), HL, Hp0. reflexivity.
Qed.

(** The fetch leaves the flat table alone and keeps every landing row. *)
Lemma page_loop_frame (mk : Z -> params) (fuel : nat) :
  forall (total skip : Z) (w : world) (db : database),
  flat (page_loop server jitter sleep_limit py_int hash_text jsonb_accepts timestamptz_in BATCH_SIZE
                  mk fuel total skip w db).2 = flat db /\
  landing_kept (landing db)
    (landing (page_loop server jitter sleep_limit py_int hash_text jsonb_accepts timestamptz_in BATCH_SIZE
                        mk fuel total skip w db).2) /\
  (landing_ok (landing db) ->
   landing_ok (landing (page_loop server jitter sleep_limit py_int hash_text jsonb_accepts timestamptz_in
                                  BATCH_SIZE mk fuel total skip w db).2)).
Proof.
  induction fuel as [|fuel IH]; intros total skip w db.
  - cbn. split; [done|]. split; [apply landing_kept_refl|done].
  - assert (Hhere : flat db = flat db /\ landing_kept (landing db) (landing db) /\
                    (landing_ok (landing db) -> landing_ok (landing db)))
      by (split; [done|]; split; [apply landing_kept_refl|done]).
    cbn [page_loop].
    destruct (http_get server jitter sleep_limit py_int (mk skip) w) as [[j|e] w1]; [|exact Hhere].
    destruct j as [| | | | |fields]; try exact Hhere.
    destruct (negb (truthy _)); [exact Hhere|].
    destruct (match dict_get fields RECORDS_KEY with Some v => v | None => JArr [] end)
      as [| | | |l|]; try exact Hhere.
    pose proof (upsert_landing_flat hash_text jsonb_accepts timestamptz_in db l) as HF.
    pose proof (upsert_landing_kept hash_text jsonb_accepts timestamptz_in db l) as HK.
    pose proof (upsert_landing_landing hash_text jsonb_accepts timestamptz_in db l) as HL.
    assert (Hstep : flat (upsert_landing hash_text jsonb_accepts timestamptz_in db l).2 = flat db /\
              landing_kept (landing db)
                (landing (upsert_landing hash_text jsonb_accepts timestamptz_in db l).2) /\
              (landing_ok (landing db) ->
               landing_ok (landing (upsert_landing hash_text jsonb_accepts timestamptz_in db l).2))).
    { split; [done|]. split; [done|]. rewrite HL. apply merge_landing_ok. }
    destruct (upsert_landing hash_text jsonb_accepts timestamptz_in db l) as [[n|e] db1];
      cbn [snd] in *; [|exact Hstep].
    destruct (Z.of_nat (length l) <? Z.min BATCH_SIZE MAX_TOP); [exact Hstep|].
    destruct (IH (total + n) (skip + Z.of_nat (length l)) w1 db1) as (IF & IK & IO).
    destruct Hstep as (SF & SK & SO).
    split; [congruence|]. split; [by eapply landing_kept_trans|auto].
Qed.

End FetchMore.

Lemma flat_kept_refl (F : gmap string flat_row) : flat_kept F F.
Proof. intros k f Hf. exists f. split; [done|]. intros b Hb. exists b. split; [done|lia]. Qed.

Lemma flat_kept_trans (F1 F2 F3 : gmap string flat_row) :
  flat_kept F1 F2 -> flat_kept F2 F3 -> flat_kept F1 F3.
Proof.
  intros H12 H23 k f Hf.
  destruct (H12 k f Hf) as (f2 & Hf2 & Ht2).
  destruct (H23 k f2 Hf2) as (f3 & Hf3 & Ht3).
  exists f3. split; [done|]. intros b Hb.
  destruct (Ht2 b Hb) as (b2 & Hb2 & Hle2).
  destruct (Ht3 b2 Hb2) as (b3 & Hb3 & Hle3).
  exists b3. split; [done|lia].
Qed.



Lemma rows_kept_refl (db : database) : rows_kept db db.
Proof. split; [apply landing_kept_refl|apply flat_kept_refl]. Qed.

Lemma rows_kept_trans (db1 db2 db3 : database) :
  rows_kept db1 db2 -> rows_kept db2 db3 -> rows_kept db1 db3.
Proof.
  intros [HL1 HF1] [HL2 HF2].
  split; [by eapply landing_kept_trans|by eapply flat_kept_trans].
Qed.

Lemma empty_db_consistent : consistent empty_db.
Proof.
  split; [|split]; intros k; cbn; rewrite lookup_empty; try done; by intros [? ?].
Qed.

Section CycleFacts.

Variable server : nat -> attempt_outcome.
Variable jitter : nat -> Q.
Variable sleep_limit : Z.
Variable py_int : string -> option Z.
Variable hash_text : json -> option string.
Variable jsonb_accepts : json -> bool.
Variable timestamptz_in : string -> option datetime.
Variable scalar_in : sqltype -> string -> option string.
Variable jsonb_text : json -> string.
Variable BATCH_SIZE : Z.

Lemma page_loop_consistent (mk : Z -> params) (fuel : nat) (total skip : Z)
      (w : world) (db : database) :
  consistent db ->
  consistent (page_loop server jitter sleep_limit py_int hash_text jsonb_accepts timestamptz_in BATCH_SIZE
                        mk fuel total skip w db).2.
Proof.
  intros (HL & HF & HI).
  destruct (page_loop_frame server jitter sleep_limit py_int hash_text jsonb_accepts timestamptz_in BATCH_SIZE
                            mk fuel total skip w db) as (Hflat & Hkept & Hok).
  split; [by apply Hok|]. split; [by rewrite Hflat|].
  intros k. rewrite Hflat. intros Hk. destruct (HI k Hk) as [r Hr].
  destruct (Hkept k r Hr) as (r' & Hr' & _). eauto.
Qed.

Lemma page_loop_rows_kept (mk : Z -> params) (fuel : nat) (total skip : Z)
      (w : world) (db : database) :
  rows_kept db (page_loop server jitter sleep_limit py_int hash_text jsonb_accepts timestamptz_in BATCH_SIZE
                          mk fuel total skip w db).2.
Proof.
  destruct (page_loop_frame server jitter sleep_limit py_int hash_text jsonb_accepts timestamptz_in BATCH_SIZE
                            mk fuel total skip w db) as (Hflat & Hkept & _).
  split; [exact Hkept|]. rewrite Hflat. apply flat_kept_refl.
Qed.

Lemma sync_consistent (db : database) :
  consistent db ->
  consistent (sync_flat_from_landing timestamptz_in scalar_in jsonb_text db).2.
Proof.
  intros (HL & HF & HI).
  split; [by rewrite sync_flat_landing|].
  split; [by apply sync_flat_ok|by apply sync_flat_in_landing].
Qed.

Lemma sync_rows_kept (db : database) :
  rows_kept db (sync_flat_from_landing timestamptz_in scalar_in jsonb_text db).2.
Proof.
  split; [rewrite sync_flat_landing; apply landing_kept_refl|apply sync_flat_kept].
Qed.

Lemma truncate_consistent (LOAD_MODE : string) (db : database) :
  consistent db -> consistent (truncate_if_replace LOAD_MODE db).
Proof.
  intros H. unfold truncate_if_replace. destruct (negb _); [exact H|].
  split; [|split]; intros k; cbn; rewrite lookup_empty; try done; by intros [? ?].
Qed.

(** What a cycle, finished or not, leaves behind. *)
Lemma run_cycle_stores (LOAD_MODE : string) (now : datetime) (fuel : nat)
      (w : world) (db : database) :
  let db0 := if String.eqb LOAD_MODE "replace"
             then truncate_if_replace LOAD_MODE db else db in
  (consistent db0 ->
   consistent (run_cycle server jitter sleep_limit py_int hash_text jsonb_accepts timestamptz_in scalar_in
                         jsonb_text BATCH_SIZE LOAD_MODE now fuel w db).2) /\
  rows_kept db0 (run_cycle server jitter sleep_limit py_int hash_text jsonb_accepts timestamptz_in scalar_in
                           jsonb_text BATCH_SIZE LOAD_MODE now fuel w db).2.
Proof.
  intros db0. unfold run_cycle. fold db0.
  assert (Hfull :
    let r := if landing_count db0 =? 0
             then full_dump server jitter sleep_limit py_int hash_text jsonb_accepts timestamptz_in BATCH_SIZE
                            fuel w db0
             else (Some (Ok 0), w, db0) in
    (consistent db0 -> consistent r.2) /\ rows_kept db0 r.2).
  { destruct (landing_count db0 =? 0); cbn.
    - split; [apply page_loop_consistent|apply page_loop_rows_kept].
    - split; [done|apply rows_kept_refl]. }
  destruct (if landing_count db0 =? 0
            then full_dump server jitter sleep_limit py_int hash_text jsonb_accepts timestamptz_in BATCH_SIZE
                           fuel w db0
            else (Some (Ok 0), w, db0)) as [[[[n|e]|] w1] db1];
    cbn [snd] in Hfull; [|exact Hfull|exact Hfull].
  destruct Hfull as [Hc1 Hk1].
  pose proof (page_loop_consistent
                (incremental_params BATCH_SIZE (run_cycle_watermark (db_watermark db1) now))
                fuel 0 0 w1 db1) as Hc2.
  pose proof (page_loop_rows_kept
                (incremental_params BATCH_SIZE (run_cycle_watermark (db_watermark db1) now))
                fuel 0 0 w1 db1) as Hk2.
  unfold incremental_from.
  destruct (page_loop server jitter sleep_limit py_int hash_text jsonb_accepts timestamptz_in BATCH_SIZE
              (incremental_params BATCH_SIZE (run_cycle_watermark (db_watermark db1) now))
              fuel 0 0 w1 db1) as [[[[n2|e2]|] w2] db2]; cbn [snd] in Hc2, Hk2;
    try (split; [auto|by eapply rows_kept_trans]).
  pose proof (sync_consistent db2) as Hc3. pose proof (sync_rows_kept db2) as Hk3.
  destruct (sync_flat_from_landing timestamptz_in scalar_in jsonb_text db2)
    as [[n3|e3] db3]; cbn [snd] in Hc3, Hk3;
    (split; [auto|]; eapply rows_kept_trans; [|exact Hk3]; by eapply rows_kept_trans).
Qed.

Lemma run_cycle_consistent_kept (LOAD_MODE : string) (now : datetime) (fuel : nat)
      (w : world) (db : database) :
  (consistent db ->
   consistent (run_cycle server jitter sleep_limit py_int hash_text jsonb_accepts timestamptz_in scalar_in
                         jsonb_text BATCH_SIZE LOAD_MODE now fuel w db).2) /\
  (String.eqb LOAD_MODE "replace" = false ->
   rows_kept db (run_cycle server jitter sleep_limit py_int hash_text jsonb_accepts timestamptz_in scalar_in
                           jsonb_text BATCH_SIZE LOAD_MODE now fuel w db).2).
Proof.
  pose proof (run_cycle_stores LOAD_MODE now fuel w db) as [Hc Hk].
  cbv zeta in Hc, Hk. split.
  - intros Hdb. apply Hc. destruct (String.eqb LOAD_MODE "replace"); [|exact Hdb].
    by apply truncate_consistent.
  - intros Hmode. by rewrite Hmode in Hk.
Qed.

End CycleFacts.

(** X19: When the server serves [k] full pages and then a page that is
    empty or shorter than [min(BATCH_SIZE, 1000)], each at the first
    attempt, and the database accepts every page, [full_dump] and
    [incremental_from] send exactly [k + 1] requests, at the offsets given
    by the lengths of the pages before, never sleep, merge the pages in
    order, leave the flat table alone and return the number of records
    with a hash. *)
Theorem fetch_stops_at_the_short_page
        (server : nat -> attempt_outcome) (jitter : nat -> Q) (sleep_limit : Z)
        (py_int : string -> option Z) (hash_text : json -> option string) (jsonb_accepts : json -> bool)
        (timestamptz_in : string -> option datetime) (BATCH_SIZE : Z)
        (watermark_iso : string) (page : nat -> list json) (k fuel : nat)
        (w : world) (db : database) :
  (k < fuel)%nat ->
  (forall i, (i <= k)%nat -> serves server (w_calls w + i)%nat (page i)) ->
  (forall i, (i < k)%nat ->
     page i <> [] /\ Z.min BATCH_SIZE MAX_TOP <= Z.of_nat (length (page i))) ->
  (page k = [] \/ Z.of_nat (length (page k)) < Z.min BATCH_SIZE MAX_TOP) ->
  (forall i, (i <= k)%nat -> mergeable hash_text jsonb_accepts timestamptz_in (page i)) ->
  (exists w' db',
      full_dump server jitter sleep_limit py_int hash_text jsonb_accepts timestamptz_in BATCH_SIZE fuel w db
      = (Some (Ok (merged_before page (S k))), w', db') /\
      w_sent w' = w_sent w ++ map (fun i => full_dump_params BATCH_SIZE (page_offset page i))
                                  (seq 0 (S k)) /\
      w_slept w' = w_slept w /\
      landing db' = merge_pages hash_text jsonb_accepts timestamptz_in page (S k) (landing db) /\
      flat db' = flat db) /\
  (exists w' db',
      incremental_from server jitter sleep_limit py_int hash_text jsonb_accepts timestamptz_in BATCH_SIZE
                       watermark_iso fuel w db
      = (Some (Ok (merged_before page (S k))), w', db') /\
      w_sent w' = w_sent w ++ map (fun i => incremental_params BATCH_SIZE watermark_iso
                                              (page_offset page i))
                                  (seq 0 (S k)) /\
      w_slept w' = w_slept w /\
      landing db' = merge_pages hash_text jsonb_accepts timestamptz_in page (S k) (landing db) /\
      flat db' = flat db).
Proof.
  intros Hfuel Hsrv Hfull Hstop Hmerge. split.
  - destruct (page_loop_pages server jitter sleep_limit py_int hash_text jsonb_accepts timestamptz_in BATCH_SIZE
                (full_dump_params BATCH_SIZE) page k fuel 0 0 w db
                Hfuel Hsrv Hfull Hstop Hmerge)
      as (w' & db' & Hloop & _ & Hsent & Hslept & HL & HF).
    exists w', db'. unfold full_dump. rewrite Hloop, Z.add_0_l.
    split; [done|]. split; [|done]. rewrite Hsent. reflexivity.
  - destruct (page_loop_pages server jitter sleep_limit py_int hash_text jsonb_accepts timestamptz_in BATCH_SIZE
                (incremental_params BATCH_SIZE watermark_iso) page k fuel 0 0 w db
                Hfuel Hsrv Hfull Hstop Hmerge)
      as (w' & db' & Hloop & _ & Hsent & Hslept & HL & HF).
    exists w', db'. unfold incremental_from. rewrite Hloop, Z.add_0_l.
    split; [done|]. split; [|done]. rewrite Hsent. reflexivity.
Qed.

Lemma sample_pages_mergeable (i : nat) :
  mergeable sample_hash_text sample_jsonb_accepts sample_timestamptz_in (sample_pages i).
Proof.
  destruct i as [|[|i]]; eexists; (split; [reflexivity|]); eexists; vm_compute; reflexivity.
Qed.

Lemma fetch_stops_at_the_short_page_witness :
  exists w' db',
    full_dump server_pages half_jitter sample_sleep_limit sample_int sample_hash_text sample_jsonb_accepts sample_timestamptz_in
              2 5 world0 empty_db
    = (Some (Ok 4), w', db') /\
    w_sent w' = [Params 0 2 None None; Params 2 2 None None; Params 4 2 None None].
Proof.
  destruct (fetch_stops_at_the_short_page
              server_pages half_jitter sample_sleep_limit sample_int sample_hash_text sample_jsonb_accepts sample_timestamptz_in
              2 "" sample_pages 2 5 world0 empty_db) as [(w' & db' & H & Hs & _) _].
  - lia.
  - intros i _. exists 200, None, [(RECORDS_KEY, JArr (sample_pages i))].
    split; [reflexivity|]. split; [lia|reflexivity].
  - intros i Hi. destruct i as [|[|i]]; [| |lia]; unfold MAX_TOP; cbn; split; (done || lia).
  - right. unfold MAX_TOP. cbn. lia.
  - intros i _. apply sample_pages_mergeable.
  - exists w', db'. split; [exact H|exact Hs].
Defined.

(** X20: Whatever the server answers and however the fetch ends,
    [full_dump] and [incremental_from] never change the flat table, delete
    no landing row and never turn a known [lastrefresh] into a null one. *)
Theorem fetch_keeps_rows_and_leaves_flat
        (server : nat -> attempt_outcome) (jitter : nat -> Q) (sleep_limit : Z)
        (py_int : string -> option Z) (hash_text : json -> option string) (jsonb_accepts : json -> bool)
        (timestamptz_in : string -> option datetime) (BATCH_SIZE : Z)
        (watermark_iso : string) (fuel : nat) (w : world) (db : database) :
  (flat (full_dump server jitter sleep_limit py_int hash_text jsonb_accepts timestamptz_in BATCH_SIZE
                   fuel w db).2 = flat db /\
   landing_kept (landing db)
     (landing (full_dump server jitter sleep_limit py_int hash_text jsonb_accepts timestamptz_in BATCH_SIZE
                         fuel w db).2)) /\
  (flat (incremental_from server jitter sleep_limit py_int hash_text jsonb_accepts timestamptz_in BATCH_SIZE
                          watermark_iso fuel w db).2 = flat db /\
   landing_kept (landing db)
     (landing (incremental_from server jitter sleep_limit py_int hash_text jsonb_accepts timestamptz_in BATCH_SIZE
                                watermark_iso fuel w db).2)).
Proof.
  split.
  - destruct (page_loop_frame server jitter sleep_limit py_int hash_text jsonb_accepts timestamptz_in BATCH_SIZE
                (full_dump_params BATCH_SIZE) fuel 0 0 w db) as (HF & HK & _). done.
  - destruct (page_loop_frame server jitter sleep_limit py_int hash_text jsonb_accepts timestamptz_in BATCH_SIZE
                (incremental_params BATCH_SIZE watermark_iso) fuel 0 0 w db)
      as (HF & HK & _). done.
Qed.

(** X21: Every request of [full_dump] has neither [$orderby] nor
    [$filter]; every request of [incremental_from] has
    [$orderby = lastRefresh] and [$filter = lastRefresh ge <watermark>]. *)
Theorem fetch_requests_carry_the_filter
        (server : nat -> attempt_outcome) (jitter : nat -> Q) (sleep_limit : Z)
        (py_int : string -> option Z) (hash_text : json -> option string) (jsonb_accepts : json -> bool)
        (timestamptz_in : string -> option datetime) (BATCH_SIZE : Z)
        (watermark_iso : string) (fuel : nat) (w : world) (db : database) :
  (exists reqs,
      w_sent (full_dump server jitter sleep_limit py_int hash_text jsonb_accepts timestamptz_in BATCH_SIZE
                        fuel w db).1.2 = w_sent w ++ reqs /\
      Forall (fun p => p_orderby p = None /\ p_filter p = None) reqs) /\
  (exists reqs,
      w_sent (incremental_from server jitter sleep_limit py_int hash_text jsonb_accepts timestamptz_in BATCH_SIZE
                               watermark_iso fuel w db).1.2 = w_sent w ++ reqs /\
      Forall (fun p => p_orderby p = Some "lastRefresh" /\
                       p_filter p = Some ("lastRefresh ge " +:+ watermark_iso)) reqs).
Proof. split; apply page_loop_sent; intros skip; done. Qed.

(** X22: One cycle, however it ends, keeps the stores consistent (every
    stored document has a hash, every flat row has a landing row); unless
    [LOAD_MODE] is [replace] it deletes no landing or flat row, keeps
    known landing timestamps known and never moves a flat timestamp back. *)
Theorem run_cycle_keeps_the_stores_consistent
        (server : nat -> attempt_outcome) (jitter : nat -> Q) (sleep_limit : Z)
        (py_int : string -> option Z) (hash_text : json -> option string) (jsonb_accepts : json -> bool)
        (timestamptz_in : string -> option datetime)
        (scalar_in : sqltype -> string -> option string) (jsonb_text : json -> string)
        (BATCH_SIZE : Z) (LOAD_MODE : string) (now : datetime) (fuel : nat)
        (w : world) (db : database) :
  (consistent db ->
   consistent (run_cycle server jitter sleep_limit py_int hash_text jsonb_accepts timestamptz_in scalar_in
                         jsonb_text BATCH_SIZE LOAD_MODE now fuel w db).2) /\
  (String.eqb LOAD_MODE "replace" = false ->
   rows_kept db (run_cycle server jitter sleep_limit py_int hash_text jsonb_accepts timestamptz_in scalar_in
                           jsonb_text BATCH_SIZE LOAD_MODE now fuel w db).2).
Proof.
  apply run_cycle_consistent_kept.
Qed.

Lemma run_cycle_keeps_the_stores_consistent_witness :
  consistent (run_cycle server_pages half_jitter sample_sleep_limit sample_int sample_hash_text sample_jsonb_accepts
                        sample_timestamptz_in sample_scalar_in sample_jsonb_text
                        2 "upsert" noon_2025_03_10 5 world0 empty_db).2.
Proof.
  apply (run_cycle_keeps_the_stores_consistent
           server_pages half_jitter sample_sleep_limit sample_int sample_hash_text sample_jsonb_accepts sample_timestamptz_in
           sample_scalar_in sample_jsonb_text 2 "upsert" noon_2025_03_10 5 world0 empty_db).
  apply empty_db_consistent.
Defined.

(** X23: When the landing table has rows and [LOAD_MODE] is not [replace],
    [run_cycle] sends no unfiltered request: every request carries
    [$orderby = lastRefresh] and the filter on the watermark computed from
    the store before the cycle. *)
Theorem run_cycle_skips_the_full_dump_on_a_filled_store
        (server : nat -> attempt_outcome) (jitter : nat -> Q) (sleep_limit : Z)
        (py_int : string -> option Z) (hash_text : json -> option string) (jsonb_accepts : json -> bool)
        (timestamptz_in : string -> option datetime)
        (scalar_in : sqltype -> string -> option string) (jsonb_text : json -> string)
        (BATCH_SIZE : Z) (LOAD_MODE : string) (now : datetime) (fuel : nat)
        (w : world) (db : database) :
  String.eqb LOAD_MODE "replace" = false ->
  landing_count db <> 0 ->
  exists reqs,
    w_sent (run_cycle server jitter sleep_limit py_int hash_text jsonb_accepts timestamptz_in scalar_in
                      jsonb_text BATCH_SIZE LOAD_MODE now fuel w db).1.2
    = w_sent w ++ reqs /\
    Forall (fun p => p_orderby p = Some "lastRefresh" /\
                     p_filter p = Some ("lastRefresh ge "
                                        +:+ run_cycle_watermark (db_watermark db) now))
           reqs.
Proof.
  intros Hmode Hcount. unfold run_cycle. rewrite Hmode.
  rewrite (proj2 (Z.eqb_neq _ _) Hcount).
  destruct (page_loop_sent server jitter sleep_limit py_int hash_text jsonb_accepts timestamptz_in BATCH_SIZE
              (fun p => p_orderby p = Some "lastRefresh" /\
                        p_filter p = Some ("lastRefresh ge "
                                           +:+ run_cycle_watermark (db_watermark db) now))
              (incremental_params BATCH_SIZE (run_cycle_watermark (db_watermark db) now))
              ltac:(done) fuel 0 0 w db)
    as (reqs & Hsent & Hall).
  exists reqs. split; [|exact Hall].
  unfold incremental_from.
  destruct (page_loop server jitter sleep_limit py_int hash_text jsonb_accepts timestamptz_in BATCH_SIZE
              (incremental_params BATCH_SIZE (run_cycle_watermark (db_watermark db) now))
              fuel 0 0 w db)
    as [[[[n|e]|] w2] db2]; cbn in *; try exact Hsent.
  by destruct (sync_flat_from_landing timestamptz_in scalar_in jsonb_text db2) as [[?|?] ?].
Qed.

Lemma run_cycle_skips_the_full_dump_on_a_filled_store_witness :
  exists reqs,
    w_sent (run_cycle server_pages half_jitter sample_sleep_limit sample_int sample_hash_text sample_jsonb_accepts
                      sample_timestamptz_in sample_scalar_in sample_jsonb_text
                      2 "upsert" noon_2025_03_10 5 world0 db_with_new).1.2
    = w_sent world0 ++ reqs /\
    Forall (fun p => p_orderby p = Some "lastRefresh" /\
                     p_filter p = Some ("lastRefresh ge "
                                        +:+ run_cycle_watermark (db_watermark db_with_new)
                                                                noon_2025_03_10))
           reqs.
Proof.
  apply (run_cycle_skips_the_full_dump_on_a_filled_store
           server_pages half_jitter sample_sleep_limit sample_int sample_hash_text sample_jsonb_accepts sample_timestamptz_in
           sample_scalar_in sample_jsonb_text 2 "upsert" noon_2025_03_10 5 world0
           db_with_new).
  - reflexivity.
  - vm_compute. discriminate.
Defined.

(** ** The scheduling loop *)

Section MainFacts.

Variable server : nat -> attempt_outcome.
Variable jitter : nat -> Q.
Variable sleep_limit : Z.
Variable py_int : string -> option Z.
Variable hash_text : json -> option string.
Variable jsonb_accepts : json -> bool.
Variable timestamptz_in : string -> option datetime.
Variable scalar_in : sqltype -> string -> option string.
Variable jsonb_text : json -> string.
Variable BATCH_SIZE : Z.
Variable LOAD_MODE : string.
Variable POLL_ONCE : bool.
Variable POLL_INTERVAL : Z.
Variable clock : nat -> datetime.

Abbreviation main_ :=
  (main server jitter sleep_limit py_int hash_text jsonb_accepts timestamptz_in scalar_in jsonb_text
        BATCH_SIZE LOAD_MODE POLL_ONCE POLL_INTERVAL clock).
Abbreviation run_cycle_ :=
  (run_cycle server jitter sleep_limit py_int hash_text jsonb_accepts timestamptz_in scalar_in jsonb_text
             BATCH_SIZE LOAD_MODE).


Lemma main_stores (cycles : nat) :
  forall (n fuel : nat) (w : world) (db : database),
  (consistent db -> consistent (main_ cycles n fuel w db).2) /\
  (String.eqb LOAD_MODE "replace" = false -> rows_kept db (main_ cycles n fuel w db).2).
Proof.
  induction cycles as [|cycles IH]; intros n fuel w db.
  - cbn. split; [done|]. intros _. apply rows_kept_refl.
  - cbn [main].
    pose proof (run_cycle_consistent_kept
                  server jitter sleep_limit py_int hash_text jsonb_accepts timestamptz_in scalar_in jsonb_text
                  BATCH_SIZE LOAD_MODE (clock n) fuel w db) as [Hc Hk].
    destruct (run_cycle_ (clock n) fuel w db) as [[[r|] w1] db1]; cbn [snd] in Hc, Hk;
      [|done].
    destruct POLL_ONCE; [done|].
    destruct (time_sleep sleep_limit POLL_INTERVAL w1) as [[u|e] w2]; [|done].
    destruct (IH (S n) fuel w2 db1) as [IHc IHk].
    split; [auto|]. intros Hmode. eapply rows_kept_trans; eauto.
Qed.

End MainFacts.




(** X25: Over any number of cycles [main] keeps the stores consistent, and
    unless [LOAD_MODE] is [replace] it deletes no landing or flat row and
    never moves a flat timestamp back. *)
Theorem main_keeps_the_stores_consistent
        (server : nat -> attempt_outcome) (jitter : nat -> Q) (sleep_limit : Z)
        (py_int : string -> option Z) (hash_text : json -> option string) (jsonb_accepts : json -> bool)
        (timestamptz_in : string -> option datetime)
        (scalar_in : sqltype -> string -> option string) (jsonb_text : json -> string)
        (BATCH_SIZE : Z) (LOAD_MODE : string) (POLL_ONCE : bool) (POLL_INTERVAL : Z)
        (clock : nat -> datetime)
        (cycles n fuel : nat) (w : world) (db : database) :
  (consistent db ->
   consistent (main server jitter sleep_limit py_int hash_text jsonb_accepts timestamptz_in scalar_in jsonb_text
                    BATCH_SIZE LOAD_MODE POLL_ONCE POLL_INTERVAL clock
                    cycles n fuel w db).2) /\
  (String.eqb LOAD_MODE "replace" = false ->
   rows_kept db (main server jitter sleep_limit py_int hash_text jsonb_accepts timestamptz_in scalar_in jsonb_text
                      BATCH_SIZE LOAD_MODE POLL_ONCE POLL_INTERVAL clock
                      cycles n fuel w db).2).
Proof. apply main_stores. Qed.

Lemma main_keeps_the_stores_consistent_witness :
  consistent (main server_pages half_jitter sample_sleep_limit sample_int sample_hash_text sample_jsonb_accepts
                   sample_timestamptz_in sample_scalar_in sample_jsonb_text
                   2 "upsert" false 86400 sample_clock 2 0 5 world0 empty_db).2.
Proof.
  apply (main_keeps_the_stores_consistent
           server_pages half_jitter sample_sleep_limit sample_int sample_hash_text sample_jsonb_accepts sample_timestamptz_in
           sample_scalar_in sample_jsonb_text 2 "upsert" false 86400 sample_clock
           2 0 5 world0 empty_db).
  apply empty_db_consistent.
Defined.
